(** * pybuzzers: the BuzzerSet session, its report decoder and its dispatcher

    A shallow embedding of [pybuzzers/BuzzerSet.py].  Python integers are
    modelled by [Z], [bytes] by [string], [list[bool]] by [list bool], the
    handler dictionaries by insertion-ordered association lists, object
    identity by addresses into a heap, and methods by computations in a
    state-and-exception monad over the interpreter's world.

    Sessions are objects with identity, so they live in the heap.  The lists
    a session holds (its lights, its grid) are modelled by their values: the
    session replaces its grid wholesale and never updates a row in place,
    and the one in-place update, of an element of the lights in
    [set_light], is followed at once by the assignment of the same list.
    The locks of the class order accesses between threads; one method call
    is modelled at a time, and the threads themselves are not. *)

From Stdlib Require Import ZArith Lia.
From stdpp Require Import base option list strings gmap.

Local Open Scope string_scope.
Local Open Scope list_scope.
Local Open Scope Z_scope.

(** ** Exceptions and results *)

Inductive exn := IndexError | OSError | AttributeError.

Inductive result (A : Type) :=
| OK (a : A)
| Raise (e : exn).
Arguments OK {A} a.
Arguments Raise {A} e.

Definition rbind {A B} (r : result A) (k : A -> result B) : result B :=
  match r with
  | OK a => k a
  | Raise e => Raise e
  end.

Notation "'try' x <- r ; k" := (rbind r (fun x => k))
  (at level 10, x name, r at level 100, k at level 200).

(** ** Python list primitives *)

(** [l[i]] for a literal, non-negative index. *)
Definition getitem {A} (l : list A) (i : nat) : result A :=
  match l !! i with
  | Some x => OK x
  | None => Raise IndexError
  end.

(** [l[i] = x] for an arbitrary integer index: negative indices count from
    the end, anything outside [-len, len) raises. *)
Definition setitem {A} (l : list A) (i : Z) (x : A) : result (list A) :=
  let n := Z.of_nat (length l) in
  if (0 <=? i) && (i <? n) then OK (<[Z.to_nat i := x]> l)
  else if (- n <=? i) && (i <? 0) then OK (<[Z.to_nat (n + i) := x]> l)
  else Raise IndexError.

(** [l[a:b]] for literal non-negative bounds. *)
Definition slice {A} (l : list A) (a b : nat) : list A :=
  take (b - a) (drop a l).

(** [range(n)] *)
Definition range (n : nat) : list nat := seq 0 n.

(** ** The state decoder *)

Abbreviation grid := (list (list bool)).

(** [bool(n)] for an integer. *)
Definition bool_of_int (n : Z) : bool := negb (n =? 0).

(** [[bool(num & 2 ** i) for num in data[2:5] for i in range(8)]] *)
Definition report_bits (data : list Z) : list bool :=
  flat_map
    (fun num => map (fun i => bool_of_int (Z.land num (2 ^ Z.of_nat i))) (range 8))
    (slice data 2 5).

(** One row of the literal the decoder returns: five subscriptions, in the
    order Python evaluates them. *)
Definition decode_row (data : list bool) (i0 i1 i2 i3 i4 : nat)
  : result (list bool) :=
  try x0 <- getitem data i0;
  try x1 <- getitem data i1;
  try x2 <- getitem data i2;
  try x3 <- getitem data i3;
  try x4 <- getitem data i4;
  OK [x0; x1; x2; x3; x4].

(** [BuzzerSet.__decode_state] *)
Definition decode_state (data : list Z) : result grid :=
  let data := report_bits data in
  try r0 <- decode_row data 0 4 3 2 1;
  try r1 <- decode_row data 5 9 8 7 6;
  try r2 <- decode_row data 10 14 13 12 11;
  try r3 <- decode_row data 15 19 18 17 16;
  OK [r0; r1; r2; r3].

(** *** What the decoder is specified to compute *)

Definition is_byte (n : Z) : Prop := 0 <= n < 256.

(** The 24-bit field whose bit [8 * k + i] is bit [i] of the byte at offset
    [2 + k]. *)
Definition field24 (b2 b3 b4 : Z) : Z := b2 + 2 ^ 8 * b3 + 2 ^ 16 * b4.

(** The bytes at offsets 2, 3 and 4, and the field they form. *)
Definition report_field (data : list Z) : Z :=
  field24 (data !!! 2%nat) (data !!! 3%nat) (data !!! 4%nat).

(** Button order inside a cluster. *)
Definition button_order : list Z := [0; 4; 3; 2; 1].

(** The cluster of controller [c], permuted into button order. *)
Definition cluster_row (field : Z) (c : Z) : list bool :=
  map (fun k => Z.testbit field (5 * c + k)) button_order.

Definition spec_grid (field : Z) : grid :=
  map (cluster_row field) [0; 1; 2; 3].

(** ** Dictionaries

    A Python [dict] keeps its keys in insertion order, and assigning to a key
    that is present keeps the key's position. *)

Abbreviation dict V := (list (string * V)).

(** [d[k] = v] *)
Fixpoint dict_set {V} (d : dict V) (k : string) (v : V) : dict V :=
  match d with
  | [] => [(k, v)]
  | (k', v') :: d' =>
      if decide (k' = k) then (k, v) :: d' else (k', v') :: dict_set d' k v
  end.

(** [d.pop(k, None)], the popped value dropped. *)
Definition dict_pop {V} (d : dict V) (k : string) : dict V :=
  filter (fun kv => kv.1 ≠ k) d.

(** [d.get(k)] *)
Fixpoint dict_get {V} (d : dict V) (k : string) : option V :=
  match d with
  | [] => None
  | (k', v) :: d' => if decide (k' = k) then Some v else dict_get d' k
  end.

Definition dict_keys {V} (d : dict V) : list string := map fst d.

(** [x or y] where [x] is an optional string: [None] and the empty string
    are falsy. *)
Definition label_or (x : option string) (y : string) : string :=
  match x with
  | Some l => if decide (l = "") then y else l
  | None => y
  end.

(** ** Truth values of the dispatcher's tests *)

(** [any(l)] for a list of truth values. *)
Definition py_any (l : list bool) : bool := existsb id l.

(** [bool(t)] for a 2-tuple: a tuple is falsy only when it is empty. *)
Definition bool_of_pair {A B} (t : A * B) : bool := true.

(** [[x for x in l if p(x)]] where the test may raise. *)
Fixpoint filter_try {A} (p : A -> result bool) (l : list A) : result (list A) :=
  match l with
  | [] => OK []
  | x :: l' =>
      try b <- p x;
      try r <- filter_try p l';
      OK (if b then x :: r else r)
  end.

(** [for buzzer in range(4) for button in range(5)] *)
Definition cells : list (nat * nat) :=
  buzzer ← range 4; button ← range 5; [(buzzer, button)].

(** [g[buzzer][button]] *)
Definition cell (g : grid) (buzzer button : nat) : result bool :=
  try row <- getitem g buzzer;
  getitem row button.

(** [new_state[buzzer][button] and not old_state[buzzer][button]]: the right
    operand is evaluated only when the left one is true. *)
Definition pressed (new_state old_state : grid) (c : nat * nat) : result bool :=
  try n <- cell new_state c.1 c.2;
  if n then (try o <- cell old_state c.1 c.2; OK (negb o)) else OK false.

(** [not new_state[buzzer][button] and old_state[buzzer][button]] *)
Definition released (new_state old_state : grid) (c : nat * nat) : result bool :=
  try n <- cell new_state c.1 c.2;
  if negb n then cell old_state c.1 c.2 else OK false.

(** ** The session and the interpreter's world *)

Section Session.

(** Callbacks are opaque values supplied by the application; [str_of] is
    Python's [str] on them. *)
Context {handler : Type}.
Variable str_of : handler -> string.

Definition bytes := string.

(** Object identity: the address of an instance in the heap. *)
Definition ref := nat.

(** A [hid.device] object: the path it was opened at, if any. *)
Record hid_device := { opened : option bytes }.

(** The calls the session issues to the transport. *)
Inductive hid_call :=
| HidOpenPath (dev : hid_device) (path : bytes)
| HidWrite (dev : hid_device) (data : list Z)
| HidClose (dev : hid_device).

(** The instance attributes of a [BuzzerSet]. *)
Record BuzzerSet := {
  __initialised : bool;
  path : bytes;
  label : option string;
  __lights : list bool;
  __state : grid;
  __on_change : dict handler;
  __on_buzz : dict handler;
  __on_button_down : dict handler;
  __on_button_up : dict handler;
  __interface : hid_device
}.

(** The attribute [path], under a name that a parameter called [path] does
    not hide. *)
Definition attr_path (s : BuzzerSet) : bytes := path s.

(** What [super().__new__(cls)] returns has no instance attribute yet;
    [__initialised] then resolves to the class attribute [False]. *)
Inductive object :=
| Blank
| Instance (s : BuzzerSet).

(** A callback invocation.  The label under which the callback is registered
    is recorded next to it, to tell registrations apart; the remaining
    fields are the arguments of the call. *)
Inductive firing :=
| FireChange (l : string) (event : handler) (self : ref) (new_state : grid)
| FireButtonDown (l : string) (event : handler) (self : ref) (buzzer button : nat)
| FireBuzz (l : string) (event : handler) (self : ref) (buzzer : nat)
| FireButtonUp (l : string) (event : handler) (self : ref) (buzzer button : nat).

(** The world: the class attribute [__existing_buzzer_sets], the heap of
    instances, the transport calls issued so far, the outcomes the
    transport will give to the coming calls that can fail ([true]: the call
    raises [OSError]; an exhausted script means success), and the callback
    invocations made so far. *)
Record world := {
  __existing_buzzer_sets : gmap bytes ref;
  heap : list object;
  hid_log : list hid_call;
  hid_script : list bool;
  fired : list firing
}.

(** *** The monad of methods: state that survives exceptions *)

Definition M (A : Type) := world -> world * result A.

Definition ret {A} (a : A) : M A := fun w => (w, OK a).

Definition raise {A} (e : exn) : M A := fun w => (w, Raise e).

Definition bind {A B} (m : M A) (k : A -> M B) : M B :=
  fun w =>
    match m w with
    | (w', OK a) => k a w'
    | (w', Raise e) => (w', Raise e)
    end.

Definition lift {A} (r : result A) : M A := fun w => (w, r).

Notation "x <- m ;; k" := (bind m (fun x => k))
  (at level 20, m at level 99, k at level 200, only parsing).
Notation "m ;; k" := (bind m (fun _ => k))
  (at level 100, k at level 200, right associativity, only parsing).

(** [for x in l: body(x)] *)
Fixpoint for_ {A} (l : list A) (body : A -> M unit) : M unit :=
  match l with
  | [] => ret tt
  | x :: l' => body x ;; for_ l' body
  end.

(** *** Attribute access *)

Definition with_label (v : option string) (s : BuzzerSet) : BuzzerSet :=
  {| __initialised := __initialised s; path := path s; label := v;
     __lights := __lights s; __state := __state s;
     __on_change := __on_change s; __on_buzz := __on_buzz s;
     __on_button_down := __on_button_down s; __on_button_up := __on_button_up s;
     __interface := __interface s |}.

Definition with_lights (v : list bool) (s : BuzzerSet) : BuzzerSet :=
  {| __initialised := __initialised s; path := path s; label := label s;
     __lights := v; __state := __state s;
     __on_change := __on_change s; __on_buzz := __on_buzz s;
     __on_button_down := __on_button_down s; __on_button_up := __on_button_up s;
     __interface := __interface s |}.

Definition with_state (v : grid) (s : BuzzerSet) : BuzzerSet :=
  {| __initialised := __initialised s; path := path s; label := label s;
     __lights := __lights s; __state := v;
     __on_change := __on_change s; __on_buzz := __on_buzz s;
     __on_button_down := __on_button_down s; __on_button_up := __on_button_up s;
     __interface := __interface s |}.

Definition with_on_change (v : dict handler) (s : BuzzerSet) : BuzzerSet :=
  {| __initialised := __initialised s; path := path s; label := label s;
     __lights := __lights s; __state := __state s;
     __on_change := v; __on_buzz := __on_buzz s;
     __on_button_down := __on_button_down s; __on_button_up := __on_button_up s;
     __interface := __interface s |}.

Definition with_on_buzz (v : dict handler) (s : BuzzerSet) : BuzzerSet :=
  {| __initialised := __initialised s; path := path s; label := label s;
     __lights := __lights s; __state := __state s;
     __on_change := __on_change s; __on_buzz := v;
     __on_button_down := __on_button_down s; __on_button_up := __on_button_up s;
     __interface := __interface s |}.

Definition with_on_button_down (v : dict handler) (s : BuzzerSet) : BuzzerSet :=
  {| __initialised := __initialised s; path := path s; label := label s;
     __lights := __lights s; __state := __state s;
     __on_change := __on_change s; __on_buzz := __on_buzz s;
     __on_button_down := v; __on_button_up := __on_button_up s;
     __interface := __interface s |}.

Definition with_on_button_up (v : dict handler) (s : BuzzerSet) : BuzzerSet :=
  {| __initialised := __initialised s; path := path s; label := label s;
     __lights := __lights s; __state := __state s;
     __on_change := __on_change s; __on_buzz := __on_buzz s;
     __on_button_down := __on_button_down s; __on_button_up := v;
     __interface := __interface s |}.

Definition with_interface (v : hid_device) (s : BuzzerSet) : BuzzerSet :=
  {| __initialised := __initialised s; path := path s; label := label s;
     __lights := __lights s; __state := __state s;
     __on_change := __on_change s; __on_buzz := __on_buzz s;
     __on_button_down := __on_button_down s; __on_button_up := __on_button_up s;
     __interface := v |}.

Definition with_heap (h : list object) (w : world) : world :=
  {| __existing_buzzer_sets := __existing_buzzer_sets w; heap := h;
     hid_log := hid_log w; hid_script := hid_script w; fired := fired w |}.

Definition with_fired (tr : list firing) (w : world) : world :=
  {| __existing_buzzer_sets := __existing_buzzer_sets w; heap := heap w;
     hid_log := hid_log w; hid_script := hid_script w; fired := tr |}.

(** [self.attr]: an instance that was never initialised has no instance
    attribute. *)
Definition getattr {A} (self : ref) (attr : BuzzerSet -> A) : M A :=
  fun w =>
    match heap w !! self with
    | Some (Instance s) => (w, OK (attr s))
    | _ => (w, Raise AttributeError)
    end.

(** An update of the attributes of an initialised instance.  (An object is
    [Blank] only between [__new__] and [__init__] inside one construction
    call; no method runs on it in between.) *)
Definition setattr (self : ref) (upd : BuzzerSet -> BuzzerSet) : M unit :=
  fun w =>
    match heap w !! self with
    | Some (Instance s) => (with_heap (<[self := Instance (upd s)]> (heap w)) w, OK tt)
    | _ => (w, Raise AttributeError)
    end.

(** *** The transport *)

(** Modelled from the spec: the Transport Handle is the external [hid]
    library, of which the session uses [open(path) -> Handle | error] and
    [write(handle, bytes) -> ok | error].  A call is recorded, and it either
    returns or, when the transport answers with an error, raises [OSError];
    which of the two is read off the script. *)
Definition hid_issue (c : hid_call) : M unit :=
  fun w =>
    let w' :=
      {| __existing_buzzer_sets := __existing_buzzer_sets w; heap := heap w;
         hid_log := hid_log w ++ [c]; hid_script := tail (hid_script w);
         fired := fired w |} in
    match hid_script w with
    | true :: _ => (w', Raise OSError)
    | _ => (w', OK tt)
    end.

(** [hid.device()] *)
Definition hid_device_new : hid_device := {| opened := None |}.

(** [dev.open_path(path)]; the device object as it is after the call. *)
Definition open_path (dev : hid_device) (p : bytes) : M hid_device :=
  hid_issue (HidOpenPath dev p) ;;
  ret {| opened := Some p |}.

(** [dev.write(data)]; the session does not use what it returns. *)
Definition write (dev : hid_device) (data : list Z) : M unit :=
  hid_issue (HidWrite dev data).

(** *** Callbacks *)

(** [event(self, ...)]: the call of a registered callback.  Callbacks are
    code of the application; what the session does is to call them, and the
    call is recorded.  A callback is taken to return, and not to call back
    into the session while a dispatch is running. *)
Definition fire (f : firing) : M unit :=
  fun w => (with_fired (fired w ++ [f]) w, OK tt).

(** [event(self, ...)] for a callback that acts: the call is recorded, and
    the callback, which is taken to return, does [effect] to the world
    before it does.  What a callback may do is left open here; it is
    bounded where it is used. *)
Definition call (effect : firing -> world -> world) (f : firing) : M unit :=
  fun w => (effect f (with_fired (fired w ++ [f]) w), OK tt).

(** *** Lights *)

(** [BuzzerSet.set_lights] *)
Definition set_lights (self : ref) (lights : list bool) : M unit :=
  setattr self (with_lights lights) ;;
  let binLights := map (fun light : bool => if light then 255 else 0) lights in
  dev <- getattr self __interface ;;
  write dev ([0; 0] ++ binLights ++ [0; 0]).

(** [BuzzerSet.set_light]: the stored list is updated in place and then
    handed to [set_lights]. *)
Definition set_light (self : ref) (buzzer : Z) (light : bool) : M unit :=
  lights <- getattr self __lights ;;
  lights <- lift (setitem lights buzzer light) ;;
  setattr self (with_lights lights) ;;
  set_lights self lights.

(** [BuzzerSet.set_lights_on] *)
Definition set_lights_on (self : ref) : M unit :=
  set_lights self (replicate 4 true).

(** [BuzzerSet.set_lights_off] *)
Definition set_lights_off (self : ref) : M unit :=
  set_lights self (replicate 4 false).

(** *** Construction *)

(** [super().__new__(cls)]: a fresh object. *)
Definition object_new : M ref :=
  fun w => (with_heap (heap w ++ [Blank]) w, OK (length (heap w))).

(** [BuzzerSet.__existing_buzzer_sets.get(path)] *)
Definition existing (path : bytes) : M (option ref) :=
  fun w => (w, OK (__existing_buzzer_sets w !! path)).

(** [BuzzerSet.__existing_buzzer_sets[path] = instance] *)
Definition register (path : bytes) (instance : ref) : M unit :=
  fun w =>
    ({| __existing_buzzer_sets := <[path := instance]> (__existing_buzzer_sets w);
        heap := heap w; hid_log := hid_log w; hid_script := hid_script w;
        fired := fired w |}, OK tt).

(** [BuzzerSet.__new__] *)
Definition __new__ (path : bytes) : M ref :=
  found <- existing path ;;
  match found with
  | Some instance => ret instance
  | None =>
      instance <- object_new ;;
      register path instance ;;
      ret instance
  end.

(** [self.__initialised] *)
Definition get_initialised (self : ref) : M bool :=
  fun w =>
    match heap w !! self with
    | Some (Instance s) => (w, OK (__initialised s))
    | Some Blank => (w, OK false)
    | None => (w, Raise AttributeError)
    end.

(** The attribute assignments of [__init__], up to the creation of the
    device object. *)
Definition init_attrs (self : ref) (s : BuzzerSet) : M unit :=
  fun w => (with_heap (<[self := Instance s]> (heap w)) w, OK tt).

(** [BuzzerSet.__init__] *)
Definition __init__ (self : ref) (path : bytes) (label : option string) : M unit :=
  initialised <- get_initialised self ;;
  if initialised then ret tt else
  init_attrs self
    {| __initialised := true; path := path; label := label;
       __lights := replicate 4 false;
       __state := replicate 4 (replicate 5 false);
       __on_change := []; __on_buzz := [];
       __on_button_down := []; __on_button_up := [];
       __interface := hid_device_new |} ;;
  dev <- getattr self __interface ;;
  p <- getattr self attr_path ;;
  dev <- open_path dev p ;;
  setattr self (with_interface dev) ;;
  set_lights_off self.

(** The call [BuzzerSet(path)]: [__new__], then [__init__] on what it
    returned.  ([__new__] takes the path only, so no label can be given.) *)
Definition BuzzerSet_call (path : bytes) : M ref :=
  self <- __new__ path ;;
  __init__ self path None ;;
  ret self.

(** [BuzzerSet.set_label] *)
Definition set_label (self : ref) (label : string) : M unit :=
  setattr self (with_label (Some label)).

(** *** State queries *)

(** [BuzzerSet.get_buttons_state] *)
Definition get_buttons_state (self : ref) : M grid :=
  getattr self __state.

(** [BuzzerSet.get_lights_state] *)
Definition get_lights_state (self : ref) : M (list bool) :=
  getattr self __lights.

(** *** Handler registration *)

(** [BuzzerSet.on_change] *)
Definition on_change (self : ref) (handler : handler) (label : option string)
  : M string :=
  let label := label_or label (str_of handler) in
  setattr self (fun s => with_on_change (dict_set (__on_change s) label handler) s) ;;
  ret label.

(** [BuzzerSet.on_buzz] *)
Definition on_buzz (self : ref) (handler : handler) (label : option string)
  : M string :=
  let label := label_or label (str_of handler) in
  setattr self (fun s => with_on_buzz (dict_set (__on_buzz s) label handler) s) ;;
  ret label.

(** [BuzzerSet.on_button_down] *)
Definition on_button_down (self : ref) (handler : handler) (label : option string)
  : M string :=
  let label := label_or label (str_of handler) in
  setattr self
    (fun s => with_on_button_down (dict_set (__on_button_down s) label handler) s) ;;
  ret label.

(** [BuzzerSet.on_button_up] *)
Definition on_button_up (self : ref) (handler : handler) (label : option string)
  : M string :=
  let label := label_or label (str_of handler) in
  setattr self
    (fun s => with_on_button_up (dict_set (__on_button_up s) label handler) s) ;;
  ret label.

(** [BuzzerSet.remove_handler] *)
Definition remove_handler (self : ref) (label : string) : M unit :=
  setattr self (fun s => with_on_change (dict_pop (__on_change s) label) s) ;;
  setattr self (fun s => with_on_buzz (dict_pop (__on_buzz s) label) s) ;;
  setattr self (fun s => with_on_button_down (dict_pop (__on_button_down s) label) s) ;;
  setattr self (fun s => with_on_button_up (dict_pop (__on_button_up s) label) s).

(** [BuzzerSet.clear_handlers] *)
Definition clear_handlers (self : ref) : M unit :=
  setattr self (with_on_change []) ;;
  setattr self (with_on_buzz []) ;;
  setattr self (with_on_button_up []) ;;
  setattr self (with_on_button_down []).

(** *** Dispatch *)

(** [BuzzerSet.__handle_event], over what the call of a callback does
    ([event] below). *)
Definition handle_event_calling (event : firing -> M unit)
    (self : ref) (new_state : grid) : M unit :=
  old_state <- getattr self __state ;;
  setattr self (with_state new_state) ;;
  button_downs <- lift (filter_try (pressed new_state old_state) cells) ;;
  button_ups <- lift (filter_try (released new_state old_state) cells) ;;
  if negb (py_any (map bool_of_pair button_ups))
     && negb (py_any (map bool_of_pair button_downs))
  then ret tt
  else
    (events <- getattr self __on_change ;;
     for_ events (fun '(l, h) => event (FireChange l h self new_state))) ;;
    for_ button_downs (fun '(buzzer, button) =>
      (events <- getattr self __on_button_down ;;
       for_ events (fun '(l, h) => event (FireButtonDown l h self buzzer button))) ;;
      if (button =? 0)%nat
      then
        events <- getattr self __on_buzz ;;
        for_ events (fun '(l, h) => event (FireBuzz l h self buzzer))
      else ret tt) ;;
    for_ button_ups (fun '(buzzer, button) =>
      events <- getattr self __on_button_up ;;
      for_ events (fun '(l, h) => event (FireButtonUp l h self buzzer button))).

(** [BuzzerSet.__handle_event] with callbacks that return and leave the
    world as it is. *)
Definition __handle_event (self : ref) (new_state : grid) : M unit :=
  handle_event_calling fire self new_state.

(** One turn of [__listen_loop] on a report that was read: decode it, then
    dispatch. *)
Definition listen_step (self : ref) (data : list Z) : M unit :=
  new_state <- lift (decode_state data) ;;
  __handle_event self new_state.

End Session.

(** ** Vocabulary of the specification *)

(** A grid has four rows of five cells. *)
Definition grid_ok (g : grid) : Prop :=
  length g = 4%nat /\ Forall (fun row => length row = 5%nat) g.

(** Cell [c] of a grid, read without fault. *)
Definition lit (g : grid) (c : nat * nat) : bool :=
  match g !! c.1 with
  | Some row => default false (row !! c.2)
  | None => false
  end.

(** A false-to-true transition, and a true-to-false one. *)
Definition went_down (old new : grid) (c : nat * nat) : bool :=
  negb (lit old c) && lit new c.

Definition went_up (old new : grid) (c : nat * nat) : bool :=
  lit old c && negb (lit new c).

Definition downs (old new : grid) : list (nat * nat) :=
  List.filter (went_down old new) cells.

Definition ups (old new : grid) : list (nat * nat) :=
  List.filter (went_up old new) cells.

(** The twenty cells of a grid: button 0..4 of buzzer 0, then of buzzer 1,
    of buzzer 2, of buzzer 3.  (Written out, so that what is said about
    the cells below does not rest on the loops of the dispatcher.) *)
Definition twenty_cells : list (nat * nat) :=
  [(0, 0); (0, 1); (0, 2); (0, 3); (0, 4);
   (1, 0); (1, 1); (1, 2); (1, 3); (1, 4);
   (2, 0); (2, 1); (2, 2); (2, 3); (2, 4);
   (3, 0); (3, 1); (3, 2); (3, 3); (3, 4)]%nat.

(** The two grids differ in at least one of the twenty cells. *)
Definition differ (old new : grid) : Prop :=
  exists buzzer button : nat,
    (buzzer < 4)%nat /\ (button < 5)%nat /\
    lit old (buzzer, button) <> lit new (buzzer, button).

(** The keys of a dictionary are pairwise distinct. *)
Definition dict_ok {V} (d : dict V) : Prop := NoDup (dict_keys d).

(** The command that sets the four lights. *)
Definition light_byte (light : bool) : Z := if light then 255 else 0.

Definition light_command (lights : list bool) : list Z :=
  [0; 0] ++ map light_byte lights ++ [0; 0].

Section Vocabulary.

Context {handler : Type}.

#[local] Abbreviation firing := (@firing handler).
#[local] Abbreviation BuzzerSet := (@BuzzerSet handler).
#[local] Abbreviation world := (@world handler).

(** Kinds of callback invocations. *)
Definition is_change (f : firing) : bool :=
  match f with FireChange _ _ _ _ => true | _ => false end.

Definition is_button_down (f : firing) : bool :=
  match f with FireButtonDown _ _ _ _ _ => true | _ => false end.

Definition is_buzz (f : firing) : bool :=
  match f with FireBuzz _ _ _ _ => true | _ => false end.

Definition is_button_up (f : firing) : bool :=
  match f with FireButtonUp _ _ _ _ _ => true | _ => false end.

(** The phase of a dispatch an invocation belongs to: change handlers, then
    presses (with their buzzes), then releases. *)
Definition phase (f : firing) : nat :=
  match f with
  | FireChange _ _ _ _ => 0
  | FireButtonDown _ _ _ _ _ | FireBuzz _ _ _ _ => 1
  | FireButtonUp _ _ _ _ _ => 2
  end.

(** Invocations by what they are about, whichever callback is called: a
    button-down invocation for cell [c], a buzz invocation for [buzzer], a
    button-up invocation for cell [c]. *)
Definition button_down_at (c : nat * nat) (f : firing) : bool :=
  match f with
  | FireButtonDown _ _ _ buzzer button => bool_decide ((buzzer, button) = c)
  | _ => false
  end.

Definition buzz_at (buzzer : nat) (f : firing) : bool :=
  match f with
  | FireBuzz _ _ _ buzzer' => bool_decide (buzzer' = buzzer)
  | _ => false
  end.

Definition button_up_at (c : nat * nat) (f : firing) : bool :=
  match f with
  | FireButtonUp _ _ _ buzzer button => bool_decide ((buzzer, button) = c)
  | _ => false
  end.

(** How many invocations of a trace satisfy a test. *)
Definition count (p : firing -> bool) (tr : list firing) : nat :=
  length (List.filter p tr).

(** The invocations one pressed cell gives rise to. *)
Definition press_firings (s : BuzzerSet) (self : ref) (c : nat * nat) : list firing :=
  map (fun '(l, event) => FireButtonDown l event self c.1 c.2) (__on_button_down s)
  ++ (if (c.2 =? 0)%nat
      then map (fun '(l, event) => FireBuzz l event self c.1) (__on_buzz s)
      else []).

(** The invocations one released cell gives rise to. *)
Definition release_firings (s : BuzzerSet) (self : ref) (c : nat * nat) : list firing :=
  map (fun '(l, event) => FireButtonUp l event self c.1 c.2) (__on_button_up s).

Definition change_firings (s : BuzzerSet) (self : ref) (new_state : grid) : list firing :=
  map (fun '(l, event) => FireChange l event self new_state) (__on_change s).

(** The registries of an instance are dictionaries and its stored grid is a
    grid. *)
Definition instance_ok (s : BuzzerSet) : Prop :=
  grid_ok (__state s) /\ dict_ok (__on_change s) /\ dict_ok (__on_buzz s)
  /\ dict_ok (__on_button_down s) /\ dict_ok (__on_button_up s).

(** The session registry names instances of the heap, one per path. *)
Definition registry_ok (w : world) : Prop :=
  (forall p r, __existing_buzzer_sets w !! p = Some r -> (r < length (heap w))%nat)
  /\ (forall p p' r, __existing_buzzer_sets w !! p = Some r ->
        __existing_buzzer_sets w !! p' = Some r -> p = p').

Definition instances_ok (w : world) : Prop :=
  forall r s, heap w !! r = Some (Instance s) -> instance_ok s.

Definition world_ok (w : world) : Prop :=
  registry_ok w /\ instances_ok w.

(** The object at [r] is an instance whose [__init__] has run. *)
Definition initialised_at (w : world) (r : ref) : Prop :=
  exists s, heap w !! r = Some (Instance s) /\ __initialised s = true.

(** A computation that leaves the session registry and the size of the heap
    alone, keeps the instances well formed and keeps initialised instances
    initialised. *)
Definition stable {A} (m : M A) : Prop :=
  forall (w w' : world) (r : result A),
    m w = (w', r) ->
    __existing_buzzer_sets w' = __existing_buzzer_sets w /\
    length (heap w') = length (heap w) /\
    (instances_ok w -> instances_ok w') /\
    (forall a, initialised_at w a -> initialised_at w' a).

(** The worlds a program reaches by calling methods: construction calls, and
    computations that are [stable], which is what every other method is. *)
Inductive reaches : world -> world -> Prop :=
| reaches_refl (w : world) : reaches w w
| reaches_construct (path : bytes) (w w1 w2 : world) (r : result ref) :
    BuzzerSet_call path w = (w1, r) -> reaches w1 w2 -> reaches w w2
| reaches_method {A} (m : M A) (w w1 w2 : world) (r : result A) :
    stable m -> m w = (w1, r) -> reaches w1 w2 -> reaches w w2.

(** The world a program starts in: no session, no object, nothing issued,
    and a transport that will answer as [script] says. *)
Definition initial_world (script : list bool) : world :=
  {| __existing_buzzer_sets := ∅; heap := []; hid_log := [];
     hid_script := script; fired := [] |}.

(** The transport accepts the next [n] calls. *)
Definition accepts (n : nat) (w : world) : Prop :=
  Forall (fun fails => fails = false) (take n (hid_script w)).

(** Registering [h] through [method] with the empty string as its label
    is registering it without a label: the label returned is [label], the
    registry [registry] gets [h] under that label, and what the registry
    holds under the empty string is what it held. *)
Definition empty_label_ignored
    (method : ref -> handler -> option string -> M string)
    (registry : BuzzerSet -> dict handler)
    (w : world) (self : ref) (s : BuzzerSet) (h : handler) (label : string) : Prop :=
  method self h (Some "") w = method self h None w /\
  exists w' s',
    method self h (Some "") w = (w', OK label) /\
    heap w' !! self = Some (Instance s') /\
    registry s' = dict_set (registry s) label h /\
    dict_get (registry s') label = Some h /\
    dict_get (registry s') "" = dict_get (registry s) "" /\
    ("" ∈ dict_keys (registry s') -> "" ∈ dict_keys (registry s)).

(** The attributes [__init__] assigns before it opens the transport. *)
Definition unopened (path : bytes) (label : option string) : BuzzerSet :=
  {| __initialised := true; path := path; label := label;
     __lights := replicate 4 false;
     __state := replicate 4 (replicate 5 false);
     __on_change := []; __on_buzz := [];
     __on_button_down := []; __on_button_up := [];
     __interface := hid_device_new |}.

(** The attributes of a session whose construction has returned. *)
Definition constructed (path : bytes) (label : option string) : BuzzerSet :=
  with_lights (replicate 4 false)
    (with_interface {| opened := Some path |} (unopened path label)).

(** The invocations of one state update from the stored grid of [s] to
    [new_state]: none when no cell changes; otherwise the change handlers,
    then the pressed cells, then the released cells. *)
Definition dispatched (s : BuzzerSet) (self : ref) (new_state : grid) : list firing :=
  let button_downs := downs (__state s) new_state in
  let button_ups := ups (__state s) new_state in
  match button_ups, button_downs with
  | [], [] => []
  | _, _ =>
      change_firings s self new_state
      ++ flat_map (press_firings s self) button_downs
      ++ flat_map (release_firings s self) button_ups
  end.

(** What a callback may do to the world while [self] dispatches, for the
    dispatcher to be the one modelled: anything (to the stored grid of
    [self] too, to its lights, to other sessions, to the transport) that
    leaves [self] a session with the four registries it had, and that calls
    no callback of its own.  (Python iterates over the live registry; a
    callback that adds or removes a handler of [self] in the middle of a
    dispatch is outside what is modelled.) *)
Definition keeps_handlers (self : ref) (effect : firing -> world -> world) : Prop :=
  forall (f : firing) (w : world) (s : BuzzerSet),
    heap w !! self = Some (Instance s) ->
    fired (effect f w) = fired w /\
    exists s', heap (effect f w) !! self = Some (Instance s')
               /\ __on_change s' = __on_change s
               /\ __on_buzz s' = __on_buzz s
               /\ __on_button_down s' = __on_button_down s
               /\ __on_button_up s' = __on_button_up s.

(** The world has [self] as a session with the four registries of [s]. *)
Definition has_handlers_of (s : BuzzerSet) (self : ref) (w : world) : Prop :=
  exists s', heap w !! self = Some (Instance s')
             /\ __on_change s' = __on_change s
             /\ __on_buzz s' = __on_buzz s
             /\ __on_button_down s' = __on_button_down s
             /\ __on_button_up s' = __on_button_up s.

(** A computation that, from a world where [P] holds, returns, keeps [P]
    and makes the invocations [tr], in that order. *)
Definition appends (P : world -> Prop) (m : world -> world * result unit)
    (tr : list firing) : Prop :=
  forall w, P w ->
    exists w', m w = (w', OK tt) /\ P w' /\ fired w' = fired w ++ tr.

(** In a trace in phase order no invocation of a later phase comes before
    one of an earlier phase. *)
Definition in_phase_order (tr : list firing) : Prop :=
  forall (i j : nat) (f1 f2 : firing),
    (i < j)%nat -> tr !! i = Some f1 -> tr !! j = Some f2 ->
    (phase f1 <= phase f2)%nat.

(** What an invocation made while [self] goes from [old] to [new_state] is
    about: the new grid for a change handler, a pressed cell for a
    button-down handler, a pressed primary cell for a buzz handler, a
    released cell for a button-up handler. *)
Definition caused_by (self : ref) (old new_state : grid) (f : firing) : Prop :=
  match f with
  | FireChange _ _ self' g => self' = self /\ g = new_state
  | FireButtonDown _ _ self' buzzer button =>
      self' = self /\ lit old (buzzer, button) = false
      /\ lit new_state (buzzer, button) = true
  | FireBuzz _ _ self' buzzer =>
      self' = self /\ lit old (buzzer, 0%nat) = false
      /\ lit new_state (buzzer, 0%nat) = true
  | FireButtonUp _ _ self' buzzer button =>
      self' = self /\ lit old (buzzer, button) = true
      /\ lit new_state (buzzer, button) = false
  end.

End Vocabulary.

(** ** Sample data

    A session as an application sets one up, used to instantiate the
    statements below. *)

(** The world after a method has run, whatever it returned. *)
Definition after {handler A} (m : @M handler A) (w : @world handler)
  : @world handler := (m w).1.

(** Callbacks named by numbers, all printed alike. *)
Definition sample_str (h : nat) : string := "<function handler>".

Definition sample_path : bytes := "/dev/hidraw0".

(** One session, with a handler of each kind. *)
Definition sample_world : @world nat :=
  after (on_button_up sample_str 0%nat 4%nat (Some "up"))
    (after (on_button_down sample_str 0%nat 3%nat None)
       (after (on_buzz sample_str 0%nat 2%nat (Some ""))
          (after (on_change sample_str 0%nat 1%nat (Some "state"))
             (after (BuzzerSet_call sample_path) (initial_world []))))).

(** The attributes of that session. *)
Definition sample_session : @BuzzerSet nat :=
  {| __initialised := true; path := sample_path; label := None;
     __lights := [false; false; false; false];
     __state := replicate 4 (replicate 5 false);
     __on_change := [("state", 1%nat)];
     __on_buzz := [("<function handler>", 2%nat)];
     __on_button_down := [("<function handler>", 3%nat)];
     __on_button_up := [("up", 4%nat)];
     __interface := {| opened := Some sample_path |} |}.

(** The same session on a transport that rejects the next call. *)
Definition sample_world_failing : @world nat :=
  {| __existing_buzzer_sets := __existing_buzzer_sets sample_world;
     heap := heap sample_world; hid_log := hid_log sample_world;
     hid_script := [true]; fired := fired sample_world |}.

(** The primary button of buzzer 0 and the second button of buzzer 2 are
    down. *)
Definition sample_grid : grid :=
  [[true; false; false; false; false];
   [false; false; false; false; false];
   [false; true; false; false; false];
   [false; false; false; false; false]].

(** A report that decodes to [sample_grid]: bit 0 and bit 14 are set. *)
Definition sample_report : list Z := [0; 0; 1; 64; 0].

(** ** Shutdown, the listen loop and discovery *)

Section Listening.

Context {handler : Type}.

#[local] Abbreviation M := (@M handler).
#[local] Abbreviation world := (@world handler).
#[local] Abbreviation firing := (@firing handler).
#[local] Abbreviation BuzzerSet := (@BuzzerSet handler).

Notation "x <- m ;; k" := (bind m (fun x => k))
  (at level 20, m at level 99, k at level 200, only parsing).
Notation "m ;; k" := (bind m (fun _ => k))
  (at level 100, k at level 200, right associativity, only parsing).

(** Modelled from the spec: [close(handle)] of the Transport Handle.  The
    call is recorded.  It gives no result and has no error, so it takes no
    answer from the script; what it does to a read that is pending on the
    handle is seen by the reader, as the outcome of that read. *)
Definition close (dev : hid_device) : M unit :=
  fun w =>
    ({| __existing_buzzer_sets := __existing_buzzer_sets w; heap := heap w;
        hid_log := hid_log w ++ [HidClose dev]; hid_script := hid_script w;
        fired := fired w |}, OK tt).

(** [BuzzerSet.stop_listening]: the handle is closed and a new one is opened
    at the path of the session. *)
Definition stop_listening (self : ref) : M unit :=
  dev <- getattr self __interface ;;
  close dev ;;
  setattr self (with_interface hid_device_new) ;;
  dev <- getattr self __interface ;;
  p <- getattr self attr_path ;;
  dev <- open_path dev p ;;
  setattr self (with_interface dev).

(** Modelled from the spec: [read(handle, n_bytes) -> bytes | error].  What
    the transport hands to one read is an input of the loop: a report, or
    the exception the read raises. *)
Definition read (dev : hid_device) (outcome : result (list Z)) : M (list Z) :=
  lift outcome.

(** How a run of the loop over finitely many reads ends: the loop has left
    through [break], or it is waiting in the next read. *)
Inductive loop_end := Broke | Waiting.

(** [BuzzerSet.__listen_loop], run on the outcomes of the reads it makes.
    [OSError] raised anywhere in the body ends the loop; any other exception
    leaves the loop and the thread with it. *)
Fixpoint __listen_loop (self : ref) (reads : list (result (list Z))) : M loop_end :=
  match reads with
  | [] => ret Waiting
  | outcome :: reads =>
      fun w =>
        match (dev <- getattr self __interface ;;
               data <- read dev outcome ;;
               new_state <- lift (decode_state data) ;;
               __handle_event self new_state) w with
        | (w', OK _) => __listen_loop self reads w'
        | (w', Raise OSError) => (w', OK Broke)
        | (w', Raise e) => (w', Raise e)
        end
  end.

(** *** Discovery ([pybuzzers.py]) *)

(** An entry of [hid.enumerate()], with the two keys the package reads. *)
Record device_info := { info_path : bytes; product_string : string }.

(** [str.upper] is a parameter, as [str] on callbacks is. *)
Variable upper : string -> string.

(** [sub in s] for two strings: [sub] occurs in [s]. *)
Fixpoint occurs (sub s : string) : bool :=
  String.prefix sub s
  || match s with
     | EmptyString => false
     | String _ s' => occurs sub s'
     end.

(** [list_connected_buzzers], on what [hid.enumerate()] returned. *)
Definition list_connected_buzzers (enumerated : list device_info) : list device_info :=
  List.filter (fun device => occurs "BUZZ" (upper (product_string device))) enumerated.

(** [[BuzzerSet(device["path"]) for device in devices]] *)
Fixpoint construct_each (devices : list device_info) : M (list ref) :=
  match devices with
  | [] => ret []
  | device :: devices =>
      instance <- BuzzerSet_call (info_path device) ;;
      instances <- construct_each devices ;;
      ret (instance :: instances)
  end.

(** [get_all_buzzers], on what [hid.enumerate()] returned. *)
Definition get_all_buzzers (enumerated : list device_info) : M (list ref) :=
  construct_each (list_connected_buzzers enumerated).

(** *** Programs

    A program is a sequence of calls of the package's functions and of the
    public methods of sessions; a listen loop takes part through the reads
    it is given.  A program may catch what a call raises, so the calls
    after a failed one still run. *)

Variable str_of : handler -> string.

Inductive api_call :=
| CallBuzzerSet (path : bytes)
| CallGetAllBuzzers (enumerated : list device_info)
| CallSetLabel (self : ref) (label : string)
| CallGetButtonsState (self : ref)
| CallGetLightsState (self : ref)
| CallOnChange (self : ref) (h : handler) (label : option string)
| CallOnBuzz (self : ref) (h : handler) (label : option string)
| CallOnButtonDown (self : ref) (h : handler) (label : option string)
| CallOnButtonUp (self : ref) (h : handler) (label : option string)
| CallRemoveHandler (self : ref) (label : string)
| CallClearHandlers (self : ref)
| CallListen (self : ref) (reads : list (result (list Z)))
| CallStopListening (self : ref)
| CallSetLights (self : ref) (lights : list bool)
| CallSetLight (self : ref) (buzzer : Z) (light : bool)
| CallSetLightsOn (self : ref)
| CallSetLightsOff (self : ref).

(** The world after one call, whatever the call returned or raised. *)
Definition perform (c : api_call) (w : world) : world :=
  match c with
  | CallBuzzerSet path => after (BuzzerSet_call path) w
  | CallGetAllBuzzers enumerated => after (get_all_buzzers enumerated) w
  | CallSetLabel self label => after (set_label self label) w
  | CallGetButtonsState self => after (get_buttons_state self) w
  | CallGetLightsState self => after (get_lights_state self) w
  | CallOnChange self h label => after (on_change str_of self h label) w
  | CallOnBuzz self h label => after (on_buzz str_of self h label) w
  | CallOnButtonDown self h label => after (on_button_down str_of self h label) w
  | CallOnButtonUp self h label => after (on_button_up str_of self h label) w
  | CallRemoveHandler self label => after (remove_handler self label) w
  | CallClearHandlers self => after (clear_handlers self) w
  | CallListen self reads => after (__listen_loop self reads) w
  | CallStopListening self => after (stop_listening self) w
  | CallSetLights self lights => after (set_lights self lights) w
  | CallSetLight self buzzer light => after (set_light self buzzer light) w
  | CallSetLightsOn self => after (set_lights_on self) w
  | CallSetLightsOff self => after (set_lights_off self) w
  end.

(** The world after a program. *)
Definition run (program : list api_call) (w : world) : world :=
  fold_left (fun w c => perform c w) program w.

End Listening.

(** ** Vocabulary of the further properties *)

(** How many of the twenty buttons a grid shows as held down. *)
Definition held (g : grid) : nat := length (List.filter (lit g) twenty_cells).

Section FurtherVocabulary.

Context {handler : Type}.

#[local] Abbreviation M := (@M handler).
#[local] Abbreviation world := (@world handler).
#[local] Abbreviation firing := (@firing handler).
#[local] Abbreviation BuzzerSet := (@BuzzerSet handler).

(** The label under which the callback of an invocation is registered. *)
Definition label_of (f : firing) : string :=
  match f with
  | FireChange l _ _ _ | FireButtonDown l _ _ _ _
  | FireBuzz l _ _ _ | FireButtonUp l _ _ _ _ => l
  end.

(** A trace without the invocations made for label [l]. *)
Definition without_label (l : string) (tr : list firing) : list firing :=
  List.filter (fun f => negb (bool_decide (label_of f = l))) tr.

(** No registry of the session has the label [l]. *)
Definition unregistered (l : string) (s : BuzzerSet) : Prop :=
  (l ∉ dict_keys (__on_change s)) /\ (l ∉ dict_keys (__on_buzz s))
  /\ (l ∉ dict_keys (__on_button_down s)) /\ (l ∉ dict_keys (__on_button_up s)).

(** The session after [remove_handler(l)], and after [clear_handlers()]. *)
Definition removed (l : string) (s : BuzzerSet) : BuzzerSet :=
  {| __initialised := __initialised s; path := path s; label := label s;
     __lights := __lights s; __state := __state s;
     __on_change := dict_pop (__on_change s) l;
     __on_buzz := dict_pop (__on_buzz s) l;
     __on_button_down := dict_pop (__on_button_down s) l;
     __on_button_up := dict_pop (__on_button_up s) l;
     __interface := __interface s |}.

Definition cleared (s : BuzzerSet) : BuzzerSet :=
  {| __initialised := __initialised s; path := path s; label := label s;
     __lights := __lights s; __state := __state s;
     __on_change := []; __on_buzz := [];
     __on_button_down := []; __on_button_up := [];
     __interface := __interface s |}.

(** The invocations of a run of state updates, each dispatched against the
    grid the one before it has stored. *)
Fixpoint dispatched_all (s : BuzzerSet) (self : ref) (grids : list grid) : list firing :=
  match grids with
  | [] => []
  | g :: grids => dispatched s self g ++ dispatched_all (with_state g s) self grids
  end.

(** The call of the callback [h] as the button-down handler registered as
    [l], for any button of the session; likewise as a button-up handler. *)
Definition button_down_as `{EqDecision handler} (l : string) (h : handler)
    (self : ref) (f : firing) : bool :=
  match f with
  | FireButtonDown l' h' self' _ _ => bool_decide (l' = l /\ h' = h /\ self' = self)
  | _ => false
  end.

Definition button_up_as `{EqDecision handler} (l : string) (h : handler)
    (self : ref) (f : firing) : bool :=
  match f with
  | FireButtonUp l' h' self' _ _ => bool_decide (l' = l /\ h' = h /\ self' = self)
  | _ => false
  end.

(** Every path of the session registry names an initialised instance, whose
    attribute [path] is that path. *)
Definition sessions_ok (w : world) : Prop :=
  forall p r, __existing_buzzer_sets w !! p = Some r ->
    exists s, heap w !! r = Some (Instance s)
              /\ __initialised s = true /\ path s = p.

(** A computation that leaves the session registry alone, and under which
    an instance stays an instance with its [path] and its [__initialised]. *)
Definition keeps_sessions {A} (m : M A) : Prop :=
  forall (w w' : world) (r : result A),
    m w = (w', r) ->
    __existing_buzzer_sets w' = __existing_buzzer_sets w /\
    length (heap w') = length (heap w) /\
    (forall a s, heap w !! a = Some (Instance s) ->
       exists s', heap w' !! a = Some (Instance s')
                  /\ path s' = path s /\ __initialised s' = __initialised s).

(** A computation that leaves one component of the world as it is. *)
Definition preserves {A B} (proj : world -> B) (m : M A) : Prop :=
  forall (w w' : world) (r : result A), m w = (w', r) -> proj w' = proj w.

(** The calls that reach the transport, and the one that runs the loop. *)
Definition uses_transport (c : @api_call handler) : bool :=
  match c with
  | CallBuzzerSet _ | CallGetAllBuzzers _ | CallStopListening _
  | CallSetLights _ _ | CallSetLight _ _ _
  | CallSetLightsOn _ | CallSetLightsOff _ => true
  | _ => false
  end.

Definition listens (c : @api_call handler) : bool :=
  match c with
  | CallListen _ _ => true
  | _ => false
  end.

End FurtherVocabulary.

(** ** More sample data *)

(** [str.upper] on ASCII letters. *)
Definition upper_ascii (c : Ascii.ascii) : Ascii.ascii :=
  let n := Ascii.nat_of_ascii c in
  if ((97 <=? n) && (n <=? 122))%nat then Ascii.ascii_of_nat (n - 32) else c.

Fixpoint sample_upper (s : string) : string :=
  match s with
  | EmptyString => EmptyString
  | String c s' => String (upper_ascii c) (sample_upper s')
  end.

(** An enumeration that lists one Buzz device twice, next to a keyboard. *)
Definition sample_devices : list device_info :=
  [ {| info_path := sample_path; product_string := "Logitech Buzz(tm) Controller V1" |};
    {| info_path := "/dev/hidraw3"; product_string := "USB Keyboard" |};
    {| info_path := sample_path; product_string := "Logitech Buzz(tm) Controller V1" |} ].

(** The world after the loop of the sample session has read the sample
    report. *)
Definition sample_world_listening : @world nat :=
  after (__listen_loop 0%nat [OK sample_report]) sample_world.

(** The world after a construction whose opening is rejected. *)
Definition sample_world_rejected : @world nat :=
  after (BuzzerSet_call sample_path) (initial_world [true]).

(** The world after the sample devices have been collected. *)
Definition sample_world_collected : @world nat :=
  after (get_all_buzzers sample_upper sample_devices) (initial_world []).

(** What a callback does that overwrites the grid of session 0, and
    switches its lights. *)
Definition sample_effect (f : @firing nat) (w : @world nat) : @world nat :=
  after (set_lights_on 0%nat)
    (after (setattr 0%nat (with_state (replicate 4 (replicate 5 true)))) w).

(** Python's [str] on a callback that prints as the empty string. *)
Definition blank_str (h : nat) : string := "".

(** A small program. *)
Definition sample_program : list (@api_call nat) :=
  [CallBuzzerSet sample_path; CallSetLights 0%nat [true];
   CallOnBuzz 0%nat 2%nat None; CallListen 0%nat [OK sample_report]].

(** * Properties *)

(** ** The decoder *)

Example decode_zero : decode_state [0; 0; 0; 0; 0] = OK (replicate 4 (replicate 5 false)).
Proof. reflexivity. Qed.

Example decode_primary_0 :
  decode_state [0; 0; 1; 0; 0; 7; 7; 7]
  = OK [[true; false; false; false; false];
        replicate 5 false; replicate 5 false; replicate 5 false].
Proof. reflexivity. Qed.

Example decode_short : decode_state [0; 0; 255; 255] = Raise IndexError.
Proof. reflexivity. Qed.

Example decode_permutation :
  decode_state [0; 0; 2; 0; 0] = OK [[false; false; false; false; true];
        replicate 5 false; replicate 5 false; replicate 5 false].
Proof. reflexivity. Qed.

Example decode_ignores_high_bits :
  decode_state [0; 0; 255; 255; 255] = decode_state [0; 0; 255; 255; 15].
Proof. reflexivity. Qed.

(** [bool(num & 2 ** i)] is bit [i] of [num]. *)
Lemma bool_of_int_land_pow2 (num i : Z) :
  0 <= i -> bool_of_int (Z.land num (2 ^ i)) = Z.testbit num i.
Proof.
  intros Hi. unfold bool_of_int.
  destruct (Z.testbit num i) eqn:Hb.
  - apply negb_true_iff, Z.eqb_neq. intros H0.
    assert (Hbit : Z.testbit (Z.land num (2 ^ i)) i = false)
      by (rewrite H0; apply Z.bits_0).
    rewrite Z.land_spec, Hb, Z.pow2_bits_true in Hbit by lia. discriminate.
  - apply negb_false_iff, Z.eqb_eq, Z.bits_inj'. intros n Hn.
    rewrite Z.land_spec, Z.bits_0.
    destruct (Z.eq_dec n i) as [->|Hne].
    + rewrite Hb. reflexivity.
    + rewrite Z.pow2_bits_false by lia. apply andb_false_r.
Qed.

(** The eight truth values one report byte contributes. *)
Lemma byte_bits (num : Z) :
  map (fun i => bool_of_int (Z.land num (2 ^ Z.of_nat i))) (range 8)
  = map (Z.testbit num) [0; 1; 2; 3; 4; 5; 6; 7].
Proof.
  unfold range. cbn [seq map].
  rewrite !bool_of_int_land_pow2 by lia. reflexivity.
Qed.

Lemma field24_low (b2 b3 b4 i : Z) :
  is_byte b2 -> 0 <= i < 8 ->
  Z.testbit (field24 b2 b3 b4) i = Z.testbit b2 i.
Proof.
  unfold is_byte, field24. intros Hb Hi.
  rewrite <- (Z.mod_pow2_bits_low (b2 + 2 ^ 8 * b3 + 2 ^ 16 * b4) 8 i) by lia.
  f_equal.
  replace (b2 + 2 ^ 8 * b3 + 2 ^ 16 * b4) with (b2 + (b3 + 2 ^ 8 * b4) * 2 ^ 8) by lia.
  rewrite Z.mod_add by lia. apply Z.mod_small. lia.
Qed.

Lemma field24_mid (b2 b3 b4 i : Z) :
  is_byte b2 -> is_byte b3 -> 0 <= i < 8 ->
  Z.testbit (field24 b2 b3 b4) (8 + i) = Z.testbit b3 i.
Proof.
  unfold is_byte. intros H2 H3 Hi.
  replace (8 + i) with (i + 8) by lia.
  rewrite <- Z.div_pow2_bits by lia.
  replace (field24 b2 b3 b4 / 2 ^ 8) with (field24 b3 b4 0).
  - apply field24_low; unfold is_byte; lia.
  - unfold field24.
    replace (b2 + 2 ^ 8 * b3 + 2 ^ 16 * b4) with (b2 + (b3 + 2 ^ 8 * b4) * 2 ^ 8) by lia.
    rewrite Z.div_add by lia. rewrite (Z.div_small b2) by lia. lia.
Qed.

Lemma field24_high (b2 b3 b4 i : Z) :
  is_byte b2 -> is_byte b3 -> is_byte b4 -> 0 <= i < 8 ->
  Z.testbit (field24 b2 b3 b4) (16 + i) = Z.testbit b4 i.
Proof.
  unfold is_byte. intros H2 H3 H4 Hi.
  replace (16 + i) with ((8 + i) + 8) by lia.
  rewrite <- Z.div_pow2_bits by lia.
  replace (field24 b2 b3 b4 / 2 ^ 8) with (field24 b3 b4 0).
  - apply field24_mid; unfold is_byte; lia.
  - unfold field24.
    replace (b2 + 2 ^ 8 * b3 + 2 ^ 16 * b4) with (b2 + (b3 + 2 ^ 8 * b4) * 2 ^ 8) by lia.
    rewrite Z.div_add by lia. rewrite (Z.div_small b2) by lia. lia.
Qed.

(** The truth values the decoder indexes are the bits of the field, least
    significant first. *)
Lemma report_bits_field (data : list Z) :
  (5 <= length data)%nat -> Forall is_byte data ->
  report_bits data = map (Z.testbit (report_field data)) (map Z.of_nat (seq 0 24)).
Proof.
  intros Hlen Hbytes.
  destruct data as [|d0 [|d1 [|b2 [|b3 [|b4 rest]]]]]; simpl in Hlen; try lia.
  apply Forall_cons in Hbytes as [_ Hbytes].
  apply Forall_cons in Hbytes as [_ Hbytes].
  apply Forall_cons in Hbytes as [H2 Hbytes].
  apply Forall_cons in Hbytes as [H3 Hbytes].
  apply Forall_cons in Hbytes as [H4 _].
  unfold report_bits, slice, report_field.
  change (take (5 - 2) (drop 2 (d0 :: d1 :: b2 :: b3 :: b4 :: rest)))
    with [b2; b3; b4].
  change ((d0 :: d1 :: b2 :: b3 :: b4 :: rest) !!! 2%nat) with b2.
  change ((d0 :: d1 :: b2 :: b3 :: b4 :: rest) !!! 3%nat) with b3.
  change ((d0 :: d1 :: b2 :: b3 :: b4 :: rest) !!! 4%nat) with b4.
  change (map Z.of_nat (seq 0 24))
    with [0; 1; 2; 3; 4; 5; 6; 7; 8; 9; 10; 11; 12; 13; 14; 15; 16; 17; 18;
          19; 20; 21; 22; 23].
  cbn [flat_map]. rewrite !byte_bits. cbn [map app].
  repeat (f_equal;
    [ match goal with
      | |- Z.testbit b2 ?k = _ =>
          symmetry; exact (field24_low b2 b3 b4 k H2 ltac:(lia))
      | |- Z.testbit b3 ?k = _ =>
          symmetry; exact (field24_mid b2 b3 b4 k H2 H3 ltac:(lia))
      | |- Z.testbit b4 ?k = _ =>
          symmetry; exact (field24_high b2 b3 b4 k H2 H3 H4 ltac:(lia))
      end | ]).
  f_equal. symmetry. exact (field24_high b2 b3 b4 7 H2 H3 H4 ltac:(lia)).
Qed.

Lemma decode_state_field (data : list Z) :
  (5 <= length data)%nat -> Forall is_byte data ->
  decode_state data = OK (spec_grid (report_field data)).
Proof.
  intros Hlen Hbytes. unfold decode_state.
  rewrite report_bits_field by done. reflexivity.
Qed.

(** Two fields that agree on their low 20 bits have the same clusters. *)
Lemma spec_grid_low20 (f f' : Z) :
  f mod 2 ^ 20 = f' mod 2 ^ 20 -> spec_grid f = spec_grid f'.
Proof.
  intros Hmod.
  assert (Hbit : forall n, 0 <= n < 20 -> Z.testbit f n = Z.testbit f' n).
  { intros n Hn.
    rewrite <- (Z.mod_pow2_bits_low f 20 n), <- (Z.mod_pow2_bits_low f' 20 n) by lia.
    by rewrite Hmod. }
  unfold spec_grid, cluster_row, button_order. cbn [map].
  rewrite !Hbit by lia. reflexivity.
Qed.

Lemma report_field_lookup (data : list Z) :
  (5 <= length data)%nat ->
  exists b2 b3 b4,
    data !! 2%nat = Some b2 /\ data !! 3%nat = Some b3 /\ data !! 4%nat = Some b4 /\
    report_field data = field24 b2 b3 b4.
Proof.
  intros Hlen.
  destruct data as [|d0 [|d1 [|b2 [|b3 [|b4 rest]]]]]; simpl in Hlen; try lia.
  by exists b2, b3, b4.
Qed.

(** C1.  For every report of at least five bytes the decoder returns a grid
    of four rows of five cells; row [c] is the cluster at bits
    [5c .. 5c+4] of the 24-bit field formed, least significant bit first,
    from the bytes at offsets 2, 3 and 4, in the button order
    bit 0, bit 4, bit 3, bit 2, bit 1; and a report whose field differs from
    it at most in bits 20..23 decodes to the same grid. *)
Theorem decode_state_clusters (data : list Z) :
  (5 <= length data)%nat -> Forall is_byte data ->
  exists (b2 b3 b4 : Z) (g : grid),
    data !! 2%nat = Some b2 /\ data !! 3%nat = Some b3 /\ data !! 4%nat = Some b4 /\
    decode_state data = OK g /\
    length g = 4%nat /\
    (forall c : nat, (c < 4)%nat ->
       g !! c = Some
         (let bit k := Z.testbit (field24 b2 b3 b4) (5 * Z.of_nat c + k) in
          [bit 0; bit 4; bit 3; bit 2; bit 1])) /\
    (forall (data' : list Z) (b2' b3' b4' : Z),
       Forall is_byte data' ->
       data' !! 2%nat = Some b2' -> data' !! 3%nat = Some b3' ->
       data' !! 4%nat = Some b4' ->
       field24 b2' b3' b4' mod 2 ^ 20 = field24 b2 b3 b4 mod 2 ^ 20 ->
       decode_state data' = OK g).
Proof.
  intros Hlen Hbytes.
  destruct (report_field_lookup data Hlen) as (b2 & b3 & b4 & H2 & H3 & H4 & Hfield).
  exists b2, b3, b4, (spec_grid (field24 b2 b3 b4)).
  do 3 (split; [done|]).
  split; [rewrite <- Hfield; by apply decode_state_field|].
  split; [reflexivity|].
  split.
  - intros c Hc.
    destruct c as [|[|[|[|c]]]]; try lia; reflexivity.
  - intros data' b2' b3' b4' Hbytes' H2' H3' H4' Hmod.
    assert (Hlen' : (5 <= length data')%nat)
      by (apply lookup_lt_Some in H4'; lia).
    rewrite decode_state_field by done.
    destruct (report_field_lookup data' Hlen') as (? & ? & ? & ? & ? & ? & ->).
    f_equal. apply spec_grid_low20. congruence.
Qed.

Lemma decode_row_length (data : list bool) (i0 i1 i2 i3 i4 : nat) (row : list bool) :
  decode_row data i0 i1 i2 i3 i4 = OK row -> length row = 5%nat.
Proof.
  unfold decode_row, rbind. intros Hrow.
  repeat match type of Hrow with
  | context [getitem ?l ?i] => destruct (getitem l i); [|discriminate]
  end.
  by injection Hrow as <-.
Qed.

(** Whatever the decoder returns is a grid. *)
Lemma decode_state_grid_ok (data : list Z) (g : grid) :
  decode_state data = OK g -> grid_ok g.
Proof.
  unfold decode_state, rbind. intros Hg.
  repeat match type of Hg with
  | context [decode_row ?d ?a ?b ?c ?e ?f] =>
      let H := fresh "Hrow" in
      destruct (decode_row d a b c e f) eqn:H; [apply decode_row_length in H|discriminate]
  end.
  injection Hg as <-. split; [done|].
  repeat constructor; done.
Qed.

(** ** The session *)

Set Default Proof Using "Type".

Section SessionProperties.

Context {handler : Type}.

#[local] Abbreviation BuzzerSet := (@BuzzerSet handler).
#[local] Abbreviation world := (@world handler).
#[local] Abbreviation firing := (@firing handler).
#[local] Abbreviation M := (@M handler).

Implicit Types (w : world) (s : BuzzerSet) (self : ref).

Notation "x <- m ;; k" := (bind m (fun x => k))
  (at level 20, m at level 99, k at level 200, only parsing).
Notation "m ;; k" := (bind m (fun _ => k))
  (at level 100, k at level 200, right associativity, only parsing).

(** *** Attribute access on an initialised instance *)

Lemma getattr_instance {A} w self s (attr : BuzzerSet -> A) :
  heap w !! self = Some (Instance s) ->
  getattr self attr w = (w, OK (attr s)).
Proof. intros Hs. unfold getattr. by rewrite Hs. Qed.

Lemma setattr_instance w self s (upd : BuzzerSet -> BuzzerSet) :
  heap w !! self = Some (Instance s) ->
  setattr self upd w = (with_heap (<[self := Instance (upd s)]> (heap w)) w, OK tt).
Proof. intros Hs. unfold setattr. by rewrite Hs. Qed.

Lemma heap_insert_lookup w self s o :
  heap w !! self = Some o ->
  <[self := Instance s]> (heap w) !! self = Some (Instance s).
Proof. intros Hs. apply list_lookup_insert_eq. by eapply lookup_lt_Some. Qed.

(** *** Lights *)

(** What [set_lights] does in full: the list is stored, one write is
    issued, and the transport decides the outcome. *)
Lemma set_lights_spec w self s (lights : list bool) :
  heap w !! self = Some (Instance s) ->
  set_lights self lights w =
    ({| __existing_buzzer_sets := __existing_buzzer_sets w;
        heap := <[self := Instance (with_lights lights s)]> (heap w);
        hid_log := hid_log w ++ [HidWrite (__interface s) (light_command lights)];
        hid_script := tail (hid_script w);
        fired := fired w |},
     match hid_script w with
     | true :: _ => Raise OSError
     | _ => OK tt
     end).
Proof.
  intros Hs. unfold set_lights, bind.
  rewrite (setattr_instance _ _ _ _ Hs).
  erewrite getattr_instance by (cbn; by eapply heap_insert_lookup).
  unfold write, hid_issue. cbn.
  by destruct (hid_script w) as [|[] ?].
Qed.

(** A call of [set_lights] that returns has stored its argument and issued
    its command. *)
Lemma set_lights_returns w w' self (lights : list bool) :
  set_lights self lights w = (w', OK tt) ->
  exists s,
    heap w !! self = Some (Instance s) /\
    heap w' !! self = Some (Instance (with_lights lights s)) /\
    hid_log w' = hid_log w ++ [HidWrite (__interface s) (light_command lights)].
Proof.
  intros Hrun.
  destruct (heap w !! self) as [[|s]|] eqn:Hs.
  - unfold set_lights, bind, setattr in Hrun. by rewrite Hs in Hrun.
  - rewrite (set_lights_spec _ _ _ _ Hs) in Hrun.
    injection Hrun as <- _. exists s. cbn.
    split; [done|]. split; [by eapply heap_insert_lookup|done].
  - unfold set_lights, bind, setattr in Hrun. by rewrite Hs in Hrun.
Qed.

(** C5.  After [set_lights([a, b, c, d])] has returned, [get_lights_state()]
    returns [[a, b, c, d]], and the call has issued, through the session's
    handle, exactly one write, of the eight bytes
    [0x00, 0x00, L0, L1, L2, L3, 0x00, 0x00] with [Li] being [0xFF] for a
    true element and [0x00] for a false one. *)
Theorem set_lights_round_trip w w' self (a b c d : bool) :
  set_lights self [a; b; c; d] w = (w', OK tt) ->
  get_lights_state self w' = (w', OK [a; b; c; d]) /\
  exists s,
    heap w !! self = Some (Instance s) /\
    hid_log w' = hid_log w ++
      [HidWrite (__interface s)
         [0; 0; (if a then 255 else 0); (if b then 255 else 0);
          (if c then 255 else 0); (if d then 255 else 0); 0; 0]].
Proof.
  intros Hrun.
  destruct (set_lights_returns _ _ _ _ Hrun) as (s & Hs & Hs' & Hlog).
  split.
  - unfold get_lights_state. by rewrite (getattr_instance _ _ _ _ Hs').
  - exists s. split; [done|]. exact Hlog.
Qed.

(** The transport accepting the write is all [set_lights] needs in order to
    return. *)
Lemma set_lights_accepted w self s (lights : list bool) :
  heap w !! self = Some (Instance s) -> accepts 1 w ->
  exists w', set_lights self lights w = (w', OK tt).
Proof.
  intros Hs Hacc. rewrite (set_lights_spec _ _ _ _ Hs).
  unfold accepts in Hacc.
  destruct (hid_script w) as [|[] ?]; eauto.
  apply Forall_cons in Hacc as [? _]. done.
Qed.

(** C6, as the code has it.  When the write raises, the exception reaches
    the caller of [set_lights], one write has been issued, and the stored
    Light State is the list that was passed in: it is assigned before the
    write and stays assigned. *)
Theorem set_lights_failed_write w self s (lights : list bool) (rest : list bool) :
  heap w !! self = Some (Instance s) ->
  hid_script w = true :: rest ->
  exists w',
    set_lights self lights w = (w', Raise OSError) /\
    get_lights_state self w' = (w', OK lights) /\
    hid_log w' = hid_log w ++ [HidWrite (__interface s) (light_command lights)].
Proof.
  intros Hs Hscript. rewrite (set_lights_spec _ _ _ _ Hs), Hscript.
  eexists. split; [reflexivity|]. split; [|reflexivity].
  unfold get_lights_state.
  erewrite getattr_instance by (cbn; by eapply heap_insert_lookup).
  reflexivity.
Qed.

Lemma setitem_in_range {A} (l : list A) (i : Z) (x : A) :
  0 <= i < Z.of_nat (length l) ->
  setitem l i x = OK (<[Z.to_nat i := x]> l).
Proof.
  intros Hi. unfold setitem.
  destruct (Z.leb_spec 0 i); [|lia].
  destruct (Z.ltb_spec i (Z.of_nat (length l))); [done|lia].
Qed.

(** What [set_light] does for an index inside the stored list. *)
Lemma set_light_spec w self s (i : Z) (v : bool) :
  heap w !! self = Some (Instance s) ->
  0 <= i < Z.of_nat (length (__lights s)) ->
  set_light self i v w =
    (let lights := <[Z.to_nat i := v]> (__lights s) in
     ({| __existing_buzzer_sets := __existing_buzzer_sets w;
         heap := <[self := Instance (with_lights lights s)]> (heap w);
         hid_log := hid_log w ++ [HidWrite (__interface s) (light_command lights)];
         hid_script := tail (hid_script w);
         fired := fired w |},
      match hid_script w with
      | true :: _ => Raise OSError
      | _ => OK tt
      end)).
Proof.
  intros Hs Hi. unfold set_light, bind.
  rewrite (getattr_instance _ _ _ _ Hs).
  unfold lift. rewrite setitem_in_range by done.
  rewrite (setattr_instance _ _ _ _ Hs).
  erewrite set_lights_spec by (cbn; by eapply heap_insert_lookup).
  cbn. by rewrite list_insert_insert_eq.
Qed.

(** C9.  For an index [i] in 0..3 and a session whose Light State has its
    four elements, [set_light(i, v)] leaves a Light State whose element [i]
    is [v] and whose other elements are what they were, and issues exactly
    one write: the full eight-byte command for the four updated lights.
    The call returns normally when the transport accepts the write and
    raises the transport's error otherwise. *)
Theorem set_light_frame w self s (i : Z) (v : bool) :
  heap w !! self = Some (Instance s) ->
  length (__lights s) = 4%nat ->
  0 <= i < 4 ->
  exists w' r lights,
    set_light self i v w = (w', r) /\
    get_lights_state self w' = (w', OK lights) /\
    lights !! Z.to_nat i = Some v /\
    (forall j : nat, j <> Z.to_nat i -> lights !! j = __lights s !! j) /\
    length lights = 4%nat /\
    hid_log w' = hid_log w ++ [HidWrite (__interface s) (light_command lights)] /\
    length (light_command lights) = 8%nat /\
    (accepts 1 w -> r = OK tt) /\
    (r = OK tt \/ r = Raise OSError).
Proof.
  intros Hs Hlen Hi.
  rewrite (set_light_spec _ _ _ _ _ Hs) by lia.
  eexists _, _, (<[Z.to_nat i := v]> (__lights s)).
  split; [reflexivity|].
  split.
  { unfold get_lights_state.
    erewrite getattr_instance by (cbn; by eapply heap_insert_lookup).
    reflexivity. }
  split; [apply list_lookup_insert_eq; lia|].
  split; [intros j Hj; by apply list_lookup_insert_ne|].
  split; [by rewrite length_insert|].
  split; [reflexivity|].
  split.
  { unfold light_command. rewrite !length_app, length_map, length_insert, Hlen.
    reflexivity. }
  split.
  - unfold accepts. intros Hacc.
    destruct (hid_script w) as [|[] ?]; try done.
    apply Forall_cons in Hacc as [? _]. done.
  - destruct (hid_script w) as [|[] ?]; auto.
Qed.

(** *** Dictionaries *)

Lemma dict_get_set {V} (d : dict V) (k : string) (v : V) :
  dict_get (dict_set d k v) k = Some v.
Proof.
  induction d as [|[k' v'] d IH]; cbn.
  - by rewrite decide_True.
  - destruct (decide (k' = k)) as [->|Hne]; cbn.
    + by rewrite decide_True.
    + by rewrite decide_False.
Qed.

Lemma dict_get_set_ne {V} (d : dict V) (k k' : string) (v : V) :
  k <> k' -> dict_get (dict_set d k v) k' = dict_get d k'.
Proof.
  intros Hne. induction d as [|[k0 v0] d IH]; cbn.
  - by rewrite decide_False.
  - destruct (decide (k0 = k)) as [->|Hne0]; cbn.
    + by rewrite !decide_False.
    + by rewrite IH.
Qed.

Lemma dict_keys_set {V} (d : dict V) (k k' : string) (v : V) :
  k' ∈ dict_keys (dict_set d k v) <-> k' = k \/ k' ∈ dict_keys d.
Proof.
  unfold dict_keys. induction d as [|[k0 v0] d IH]; cbn.
  - rewrite list_elem_of_singleton, elem_of_nil. tauto.
  - destruct (decide (k0 = k)) as [->|Hne0]; cbn.
    + rewrite !elem_of_cons. tauto.
    + rewrite !elem_of_cons, IH. tauto.
Qed.

Lemma dict_ok_set {V} (d : dict V) (k : string) (v : V) :
  dict_ok d -> dict_ok (dict_set d k v).
Proof.
  unfold dict_ok. induction d as [|[k0 v0] d IH]; cbn; intros Hok.
  - apply NoDup_singleton.
  - apply NoDup_cons in Hok as [Hnotin Hok].
    destruct (decide (k0 = k)) as [->|Hne0]; cbn.
    + by apply NoDup_cons.
    + apply NoDup_cons. split; [|by apply IH].
      fold (dict_keys (dict_set d k v)). rewrite dict_keys_set.
      intros [?|?]; [done|]. by apply Hnotin.
Qed.

Lemma dict_ok_nil {V} : dict_ok (@nil (string * V)).
Proof. apply NoDup_nil_2. Qed.

Lemma dict_ok_pop {V} (d : dict V) (k : string) :
  dict_ok d -> dict_ok (dict_pop d k).
Proof.
  unfold dict_ok, dict_pop, dict_keys. intros Hok.
  apply (sublist_NoDup _ _ Hok), (fmap_sublist fst), sublist_filter.
Qed.

Lemma dict_pop_absent {V} (d : dict V) (k : string) :
  k ∉ dict_keys (dict_pop d k).
Proof.
  unfold dict_keys, dict_pop. intros Hin.
  apply list_elem_of_fmap in Hin as ([k' v] & -> & Hin).
  apply list_elem_of_filter in Hin as [Hne _]. by apply Hne.
Qed.

(** *** Registration *)

(** A registration method, seen as an update of one registry. *)
Lemma register_spec
    (registry : BuzzerSet -> dict handler)
    (with_registry : dict handler -> BuzzerSet -> BuzzerSet)
    w self s (h : handler) (l : string) :
  (forall d s0, registry (with_registry d s0) = d) ->
  heap w !! self = Some (Instance s) ->
  l <> "" ->
  let register := fun self h label =>
    bind (setattr self
            (fun s => with_registry
                        (dict_set (registry s) (label_or label l) h) s))
         (fun _ => ret (label_or label l)) in
  register self h (Some "") w = register self h None w /\
  exists w' s',
    register self h (Some "") w = (w', OK l) /\
    heap w' !! self = Some (Instance s') /\
    registry s' = dict_set (registry s) l h /\
    dict_get (registry s') l = Some h /\
    dict_get (registry s') "" = dict_get (registry s) "" /\
    ("" ∈ dict_keys (registry s') -> "" ∈ dict_keys (registry s)).
Proof.
  intros Hreg Hs Hl register. split; [reflexivity|].
  unfold register, bind. rewrite (setattr_instance _ _ _ _ Hs). cbn.
  eexists _, _. split; [reflexivity|].
  split; [cbn; by eapply heap_insert_lookup|].
  rewrite Hreg. split; [reflexivity|].
  split; [apply dict_get_set|].
  split; [by apply dict_get_set_ne|].
  rewrite dict_keys_set. intros [Heq|?]; [by destruct Hl|done].
Qed.

(** C10.  For each of the four registration methods and a callback whose
    [str] is not the empty string, a caller that passes the empty string as
    the label gets what a caller passing no label gets: the callback is
    stored under [str(handler)], that string is returned, and the entry of
    the registry under the empty string is not written.  (For a callback
    whose [str] is the empty string this fails, see
    [empty_label_used_as_key].) *)
Theorem empty_label_is_no_label (str_of : handler -> string) w self s (h : handler) :
  heap w !! self = Some (Instance s) ->
  str_of h <> "" ->
  empty_label_ignored (on_change str_of) __on_change w self s h (str_of h) /\
  empty_label_ignored (on_buzz str_of) __on_buzz w self s h (str_of h) /\
  empty_label_ignored (on_button_down str_of) __on_button_down w self s h (str_of h) /\
  empty_label_ignored (on_button_up str_of) __on_button_up w self s h (str_of h).
Proof.
  intros Hs Hstr. unfold empty_label_ignored. repeat split.
  all: try reflexivity.
  - eapply (register_spec __on_change with_on_change); done.
  - eapply (register_spec __on_buzz with_on_buzz); done.
  - eapply (register_spec __on_button_down with_on_button_down); done.
  - eapply (register_spec __on_button_up with_on_button_up); done.
Qed.

(** *** Construction *)

Lemma new_registered w (path : bytes) (instance : ref) :
  __existing_buzzer_sets w !! path = Some instance ->
  __new__ path w = (w, OK instance).
Proof. intros Hp. unfold __new__, bind, existing. by rewrite Hp. Qed.

Lemma new_unregistered w (path : bytes) :
  __existing_buzzer_sets w !! path = None ->
  __new__ path w =
    ({| __existing_buzzer_sets := <[path := length (heap w)]> (__existing_buzzer_sets w);
        heap := heap w ++ [Blank];
        hid_log := hid_log w; hid_script := hid_script w; fired := fired w |},
     OK (length (heap w))).
Proof. intros Hp. unfold __new__, bind, existing. by rewrite Hp. Qed.

Lemma init_initialised w self s (path : bytes) (label : option string) :
  heap w !! self = Some (Instance s) -> __initialised s = true ->
  __init__ self path label w = (w, OK tt).
Proof.
  intros Hs Hinit. unfold __init__, bind, get_initialised.
  by rewrite Hs, Hinit.
Qed.

(** What [__init__] does on an instance that is not initialised yet: the
    attributes are assigned, the transport is opened, the lights are set
    off; either transport call may fail, and what was done before it stays
    done. *)
Lemma init_uninitialised w self (path : bytes) (label : option string) :
  get_initialised self w = (w, OK false) ->
  __init__ self path label w =
    match hid_script w with
    | true :: rest =>
        ({| __existing_buzzer_sets := __existing_buzzer_sets w;
            heap := <[self := Instance (unopened path label)]> (heap w);
            hid_log := hid_log w ++ [HidOpenPath hid_device_new path];
            hid_script := rest;
            fired := fired w |},
         Raise OSError)
    | script =>
        ({| __existing_buzzer_sets := __existing_buzzer_sets w;
            heap := <[self := Instance (constructed path label)]> (heap w);
            hid_log := hid_log w ++
              [HidOpenPath hid_device_new path;
               HidWrite {| opened := Some path |} (light_command (replicate 4 false))];
            hid_script := tail (tail script);
            fired := fired w |},
         match tail script with
         | true :: _ => Raise OSError
         | _ => OK tt
         end)
    end.
Proof.
  intros Hinit.
  assert (Hlt : (self < length (heap w))%nat).
  { unfold get_initialised in Hinit.
    destruct (heap w !! self) eqn:Hs; [by eapply lookup_lt_Some|].
    discriminate. }
  unfold __init__, bind. rewrite Hinit. unfold init_attrs.
  erewrite !getattr_instance by (cbn; by apply list_lookup_insert_eq).
  unfold open_path, bind, hid_issue. cbn.
  destruct (hid_script w) as [|[] script] eqn:Hscript; cbn.
  - erewrite setattr_instance by (cbn; by apply list_lookup_insert_eq).
    unfold set_lights_off.
    erewrite set_lights_spec
      by (cbn; apply list_lookup_insert_eq; by rewrite length_insert).
    cbn. rewrite !list_insert_insert_eq, <- app_assoc. reflexivity.
  - reflexivity.
  - erewrite setattr_instance by (cbn; by apply list_lookup_insert_eq).
    unfold set_lights_off.
    erewrite set_lights_spec
      by (cbn; apply list_lookup_insert_eq; by rewrite length_insert).
    cbn. rewrite !list_insert_insert_eq, <- app_assoc. reflexivity.
Qed.

Lemma snoc_lookup {A} (l : list A) (x : A) : (l ++ [x]) !! length l = Some x.
Proof. by rewrite lookup_app_r, Nat.sub_diag. Qed.

Lemma snoc_insert {A} (l : list A) (x y : A) :
  <[length l := y]> (l ++ [x]) = l ++ [y].
Proof.
  rewrite insert_app_r_alt by lia. by rewrite Nat.sub_diag.
Qed.

(** The call [BuzzerSet(path)] for a path that has no session yet. *)
Lemma call_unregistered w (path : bytes) :
  __existing_buzzer_sets w !! path = None ->
  BuzzerSet_call path w =
    let self := length (heap w) in
    let reg := <[path := self]> (__existing_buzzer_sets w) in
    match hid_script w with
    | true :: rest =>
        ({| __existing_buzzer_sets := reg;
            heap := heap w ++ [Instance (unopened path None)];
            hid_log := hid_log w ++ [HidOpenPath hid_device_new path];
            hid_script := rest;
            fired := fired w |},
         Raise OSError)
    | script =>
        ({| __existing_buzzer_sets := reg;
            heap := heap w ++ [Instance (constructed path None)];
            hid_log := hid_log w ++
              [HidOpenPath hid_device_new path;
               HidWrite {| opened := Some path |} (light_command (replicate 4 false))];
            hid_script := tail (tail script);
            fired := fired w |},
         match tail script with
         | true :: _ => Raise OSError
         | _ => OK self
         end)
    end.
Proof.
  intros Hp. unfold BuzzerSet_call, bind.
  rewrite (new_unregistered _ _ Hp).
  rewrite init_uninitialised
    by (unfold get_initialised; cbn; by rewrite snoc_lookup).
  cbn. rewrite !snoc_insert.
  destruct (hid_script w) as [|[] [|[] script]]; reflexivity.
Qed.

(** A construction whose [open_path] is rejected raises, yet leaves the new
    instance registered and flagged as initialised. *)
Lemma call_rejected_open w (path : bytes) (rest : list bool) :
  __existing_buzzer_sets w !! path = None ->
  hid_script w = true :: rest ->
  exists w',
    BuzzerSet_call path w = (w', Raise OSError) /\
    __existing_buzzer_sets w' !! path = Some (length (heap w)) /\
    heap w' !! length (heap w) = Some (Instance (unopened path None)).
Proof.
  intros Hp Hscript. rewrite (call_unregistered _ _ Hp), Hscript. cbn.
  eexists. split; [reflexivity|]. cbn.
  split; [apply lookup_insert_eq|apply snoc_lookup].
Qed.

(** C7.  Constructing a session for a path that has none, on a transport
    that accepts the two calls made, opens the transport at that path,
    issues the all-off light write and nothing else, and returns a session
    registered for the path whose [get_buttons_state()] is the all-false
    grid of four rows of five and whose [get_lights_state()] is four times
    false. *)
Theorem construction_initial_state w (path : bytes) :
  __existing_buzzer_sets w !! path = None ->
  accepts 2 w ->
  exists w' self,
    BuzzerSet_call path w = (w', OK self) /\
    __existing_buzzer_sets w' !! path = Some self /\
    hid_log w' = hid_log w ++
      [HidOpenPath hid_device_new path;
       HidWrite {| opened := Some path |} [0; 0; 0; 0; 0; 0; 0; 0]] /\
    get_buttons_state self w' =
      (w', OK [[false; false; false; false; false];
               [false; false; false; false; false];
               [false; false; false; false; false];
               [false; false; false; false; false]]) /\
    get_lights_state self w' = (w', OK [false; false; false; false]).
Proof.
  intros Hp Hacc. rewrite (call_unregistered _ _ Hp). unfold accepts in Hacc.
  assert (Hscript : hid_script w = [] \/ hid_script w = [false]
                    \/ exists rest, hid_script w = false :: false :: rest).
  { destruct (hid_script w) as [|o1 [|o2 rest]]; cbn in Hacc.
    - by left.
    - apply Forall_cons in Hacc as [-> _]. right; by left.
    - apply Forall_cons in Hacc as [-> Hacc].
      apply Forall_cons in Hacc as [-> _]. right; right; by eexists. }
  assert (Hget : forall w0 : world,
            heap w0 = heap w ++ [Instance (constructed path None)] ->
            get_buttons_state (length (heap w)) w0
              = (w0, OK (replicate 4 (replicate 5 false))) /\
            get_lights_state (length (heap w)) w0
              = (w0, OK (replicate 4 false))).
  { intros w0 Hw0. unfold get_buttons_state, get_lights_state, getattr.
    by rewrite Hw0, snoc_lookup. }
  destruct Hscript as [->|[->|[rest ->]]]; cbn;
    eexists _, _; (split; [reflexivity|]); cbn;
    (split; [apply lookup_insert_eq|]); (split; [reflexivity|]);
    by apply Hget.
Qed.

(** A construction call for a path whose session is initialised returns
    that session and changes nothing. *)
Lemma call_again w (path : bytes) (r : ref) s :
  __existing_buzzer_sets w !! path = Some r ->
  heap w !! r = Some (Instance s) ->
  __initialised s = true ->
  BuzzerSet_call path w = (w, OK r).
Proof.
  intros Hp Hs Hinit. unfold BuzzerSet_call, bind.
  by rewrite (new_registered _ _ _ Hp), (init_initialised _ _ _ _ _ Hs Hinit).
Qed.

(** How a construction call changes the registry and the heap. *)
Lemma call_cases w w1 (path : bytes) (res : result ref) :
  BuzzerSet_call path w = (w1, res) ->
  (exists r,
     __existing_buzzer_sets w !! path = Some r /\
     __existing_buzzer_sets w1 = __existing_buzzer_sets w /\
     length (heap w1) = length (heap w) /\
     (forall r1, res = OK r1 ->
        r1 = r /\ exists s, heap w1 !! r = Some (Instance s) /\ __initialised s = true))
  \/
  (__existing_buzzer_sets w !! path = None /\
   __existing_buzzer_sets w1 = <[path := length (heap w)]> (__existing_buzzer_sets w) /\
   length (heap w1) = S (length (heap w)) /\
   (forall r1, res = OK r1 ->
      r1 = length (heap w) /\
      exists s, heap w1 !! r1 = Some (Instance s) /\ __initialised s = true)).
Proof.
  intros Hrun.
  destruct (__existing_buzzer_sets w !! path) as [r|] eqn:Hp.
  - left. exists r. split; [done|].
    unfold BuzzerSet_call, bind in Hrun. rewrite (new_registered _ _ _ Hp) in Hrun.
    assert (Hcases :
      (exists s, heap w !! r = Some (Instance s) /\ __initialised s = true)
      \/ get_initialised r w = (w, OK false)
      \/ heap w !! r = None).
    { unfold get_initialised.
      destruct (heap w !! r) as [[|s]|] eqn:Hs; auto.
      destruct (__initialised s) eqn:Hinit; eauto. }
    destruct Hcases as [(s & Hs & Hinit)|[Hinit|Hnone]].
    + rewrite (init_initialised _ _ _ _ _ Hs Hinit) in Hrun.
      injection Hrun as <- <-. do 2 (split; [done|]).
      intros r1 [= <-]. eauto.
    + assert (Hlt : (r < length (heap w))%nat).
      { unfold get_initialised in Hinit.
        destruct (heap w !! r) eqn:Hs; [by eapply lookup_lt_Some|discriminate]. }
      rewrite (init_uninitialised _ _ _ _ Hinit) in Hrun.
      destruct (hid_script w) as [|[] [|[] script]];
        injection Hrun as <- <-; cbn;
        (split; [done|]); (split; [by rewrite length_insert|]);
        intros r1 [= <-]; (split; [done|]);
        eexists; (split; [by apply list_lookup_insert_eq|done]).
    + unfold __init__, bind, get_initialised in Hrun. rewrite Hnone in Hrun.
      injection Hrun as <- <-. repeat split; done.
  - right. split; [done|].
    rewrite (call_unregistered _ _ Hp) in Hrun.
    destruct (hid_script w) as [|[] [|[] script]];
      injection Hrun as <- <-; cbn;
      (split; [done|]); (split; [rewrite length_app; cbn; lia|]);
      intros r1 [= <-]; (split; [done|]);
      eexists; (split; [apply snoc_lookup|done]).
Qed.

(** Construction calls keep the registry sound. *)
Lemma call_registry_ok w w1 (path : bytes) (res : result ref) :
  registry_ok w ->
  BuzzerSet_call path w = (w1, res) ->
  registry_ok w1.
Proof.
  intros [Hlt Hinj] Hrun.
  destruct (call_cases _ _ _ _ Hrun)
    as [(r & Hp & Hreg & Hlen & _)|(Hp & Hreg & Hlen & _)];
    unfold registry_ok; rewrite Hreg, Hlen.
  - done.
  - split.
    + intros p r. rewrite lookup_insert.
      case_decide; [intros [= <-]; lia|].
      intros Hr. specialize (Hlt _ _ Hr). lia.
    + intros p p' r. rewrite !lookup_insert.
      repeat case_decide; try congruence.
      * intros [= <-] Hr. specialize (Hlt _ _ Hr). lia.
      * intros Hr [= <-]. specialize (Hlt _ _ Hr). lia.
      * apply Hinj.
Qed.

Lemma registry_ok_initial (script : list bool) :
  registry_ok (@initial_world handler script).
Proof. split; intros *; cbn; by rewrite lookup_empty. Qed.

(** *** Grids and their cells *)

Lemma cells_spec (c : nat * nat) :
  c ∈ cells <-> (c.1 < 4)%nat /\ (c.2 < 5)%nat.
Proof.
  split.
  - intros Hin.
    change cells with [(0, 0); (0, 1); (0, 2); (0, 3); (0, 4);
      (1, 0); (1, 1); (1, 2); (1, 3); (1, 4);
      (2, 0); (2, 1); (2, 2); (2, 3); (2, 4);
      (3, 0); (3, 1); (3, 2); (3, 3); (3, 4)]%nat in Hin.
    repeat (apply elem_of_cons in Hin as [->|Hin]; [cbn; lia|]).
    by apply elem_of_nil in Hin.
  - destruct c as [buzzer button]. cbn. intros [Hc Hb].
    destruct buzzer as [|[|[|[|?]]]]; try lia;
      destruct button as [|[|[|[|[|?]]]]]; try lia;
      by apply (bool_decide_unpack _).
Qed.

Lemma cells_NoDup : NoDup cells.
Proof. by apply (bool_decide_unpack _). Qed.

Lemma cell_lit (g : grid) (c : nat * nat) :
  grid_ok g -> c ∈ cells -> cell g c.1 c.2 = OK (lit g c).
Proof.
  intros [Hlen Hrows] [Hc Hb]%cells_spec.
  destruct (lookup_lt_is_Some_2 g c.1) as [row Hrow]; [lia|].
  pose proof (Forall_lookup_1 _ _ _ _ Hrows Hrow) as Hrowlen. cbn in Hrowlen.
  destruct (lookup_lt_is_Some_2 row c.2) as [x Hx]; [lia|].
  unfold cell, lit, getitem, rbind. rewrite Hrow, Hx. reflexivity.
Qed.

(** The two comprehensions of the dispatcher compute the transitions. *)
Lemma pressed_cells (old new : grid) (l : list (nat * nat)) :
  grid_ok old -> grid_ok new -> l ⊆ cells ->
  filter_try (pressed new old) l = OK (List.filter (went_down old new) l).
Proof.
  intros Hold Hnew. induction l as [|c l IH]; intros Hl; [done|].
  cbn. unfold pressed at 1, went_down at 1.
  rewrite (cell_lit new c) by (done || set_solver). cbn.
  destruct (lit new c) eqn:Hn; cbn.
  - rewrite (cell_lit old c) by (done || set_solver). cbn.
    rewrite IH by set_solver. cbn. rewrite andb_true_r. reflexivity.
  - rewrite IH by set_solver. cbn. rewrite andb_false_r. reflexivity.
Qed.

Lemma released_cells (old new : grid) (l : list (nat * nat)) :
  grid_ok old -> grid_ok new -> l ⊆ cells ->
  filter_try (released new old) l = OK (List.filter (went_up old new) l).
Proof.
  intros Hold Hnew. induction l as [|c l IH]; intros Hl; [done|].
  cbn. unfold released at 1, went_up at 1.
  rewrite (cell_lit new c) by (done || set_solver). cbn.
  destruct (lit new c) eqn:Hn; cbn.
  - rewrite IH by set_solver. cbn. rewrite andb_false_r. reflexivity.
  - rewrite (cell_lit old c) by (done || set_solver). cbn.
    rewrite IH by set_solver. cbn. rewrite andb_true_r. reflexivity.
Qed.

(** [any] of a list of pairs tells whether the list has an element. *)
Lemma any_pairs {A B} (l : list (A * B)) :
  py_any (map bool_of_pair l) = match l with [] => false | _ => true end.
Proof. by destruct l. Qed.

(** *** Firing *)

Lemma with_fired_same w : with_fired (fired w) w = w.
Proof. by destruct w. Qed.

(** A loop that fires one invocation per entry appends them in order. *)
Lemma for_fire (events : dict handler) (mk : string -> handler -> firing) w :
  for_ events (fun '(l, event) => fire (mk l event)) w
  = (with_fired (fired w ++ map (fun '(l, event) => mk l event) events) w, OK tt).
Proof.
  revert w. induction events as [|[l event] events IH]; intros w; cbn.
  - by rewrite app_nil_r, with_fired_same.
  - unfold bind, fire at 1. rewrite IH. cbn.
    by rewrite <- app_assoc.
Qed.

(** A loop whose body appends invocations appends them all, in order. *)
Lemma for_appends {A} (l : list A) (body : A -> M unit) (g : A -> list firing)
    (P : world -> Prop) w :
  (forall w tr, P w -> P (with_fired tr w)) ->
  (forall x w, P w -> body x w = (with_fired (fired w ++ g x) w, OK tt)) ->
  P w ->
  for_ l body w = (with_fired (fired w ++ flat_map g l) w, OK tt).
Proof.
  intros Hstable Hbody. revert w.
  induction l as [|x l IH]; intros w Hw; cbn.
  - by rewrite app_nil_r, with_fired_same.
  - unfold bind. rewrite Hbody by done. rewrite IH by auto. cbn.
    by rewrite <- app_assoc.
Qed.

Lemma bind_OK {A B} (m : M A) (k : A -> M B) w w' (a : A) :
  m w = (w', OK a) -> bind m k w = k a w'.
Proof. intros Hm. unfold bind. by rewrite Hm. Qed.

(** The three loops of a dispatch. *)
Lemma dispatch_loops w self s (new_state : grid) (button_downs button_ups : list (nat * nat)) :
  heap w !! self = Some (Instance s) ->
  ((events <- getattr self __on_change ;;
    for_ events (fun '(l, event) => fire (FireChange l event self new_state))) ;;
   for_ button_downs (fun '(buzzer, button) =>
     (events <- getattr self __on_button_down ;;
      for_ events (fun '(l, event) => fire (FireButtonDown l event self buzzer button))) ;;
     if (button =? 0)%nat
     then
       events <- getattr self __on_buzz ;;
       for_ events (fun '(l, event) => fire (FireBuzz l event self buzzer))
     else ret tt) ;;
   for_ button_ups (fun '(buzzer, button) =>
     events <- getattr self __on_button_up ;;
     for_ events (fun '(l, event) => fire (FireButtonUp l event self buzzer button)))) w
  = (with_fired (fired w ++ change_firings s self new_state
                 ++ flat_map (press_firings s self) button_downs
                 ++ flat_map (release_firings s self) button_ups) w,
     OK tt).
Proof.
  intros Hs.
  set (P := fun w0 : world => heap w0 !! self = Some (Instance s)).
  assert (HP : forall w0 tr, P w0 -> P (with_fired tr w0)) by done.
  erewrite bind_OK; cycle 1.
  { erewrite bind_OK by (by apply getattr_instance). apply for_fire. }
  erewrite bind_OK; cycle 1.
  { apply (for_appends _ _ (press_firings s self) P); [done| |by apply HP].
    intros [buzzer button] w0 Hw0.
    erewrite bind_OK; cycle 1.
    { erewrite bind_OK by (by apply getattr_instance). apply for_fire. }
    unfold press_firings. cbn [fst snd].
    destruct (button =? 0)%nat.
    - erewrite bind_OK by (apply getattr_instance; by apply HP).
      rewrite for_fire. cbn. by rewrite <- app_assoc.
    - cbn. by rewrite app_nil_r. }
  rewrite (for_appends _ _ (release_firings s self) P); [|done| |by do 2 apply HP].
  - cbn. by rewrite <- !app_assoc.
  - intros [buzzer button] w0 Hw0.
    erewrite bind_OK by (by apply getattr_instance). apply for_fire.
Qed.

(** What a state update does: the grid is stored, and the invocations of
    [dispatched] are made, in that order. *)
Lemma handle_event_spec w self s (new_state : grid) :
  heap w !! self = Some (Instance s) ->
  grid_ok (__state s) -> grid_ok new_state ->
  __handle_event self new_state w =
    (with_fired (fired w ++ dispatched s self new_state)
       (with_heap (<[self := Instance (with_state new_state s)]> (heap w)) w),
     OK tt).
Proof.
  intros Hs Hold Hnew. unfold __handle_event, handle_event_calling.
  erewrite bind_OK by (by apply getattr_instance).
  erewrite bind_OK by (by apply setattr_instance).
  erewrite bind_OK by (unfold lift; by rewrite pressed_cells).
  erewrite bind_OK by (unfold lift; by rewrite released_cells).
  rewrite !any_pairs. unfold dispatched.
  fold (downs (__state s) new_state). fold (ups (__state s) new_state).
  set (w1 := with_heap _ w).
  assert (Hs1 : heap w1 !! self = Some (Instance (with_state new_state s)))
    by (by eapply heap_insert_lookup).
  pose proof (dispatch_loops w1 self _ new_state
                (downs (__state s) new_state) (ups (__state s) new_state) Hs1)
    as Hrun.
  destruct (ups (__state s) new_state) as [|cu us];
    destruct (downs (__state s) new_state) as [|cd ds]; cbn [negb andb].
  - unfold ret. rewrite app_nil_r. change (fired w) with (fired w1).
    by rewrite with_fired_same.
  - exact Hrun.
  - exact Hrun.
  - exact Hrun.
Qed.

(** One turn of the listen loop: the decoded grid is stored and
    dispatched against the grid that was stored before. *)
Lemma listen_step_spec w self s (data : list Z) (g : grid) :
  heap w !! self = Some (Instance s) ->
  grid_ok (__state s) ->
  decode_state data = OK g ->
  listen_step self data w =
    (with_fired (fired w ++ dispatched s self g)
       (with_heap (<[self := Instance (with_state g s)]> (heap w)) w),
     OK tt).
Proof.
  intros Hs Hold Hdecode. unfold listen_step.
  erewrite bind_OK by (unfold lift; by rewrite Hdecode).
  apply handle_event_spec; [done|done|]. by eapply decode_state_grid_ok.
Qed.

(** Two turns in a row: the second report is dispatched against the grid
    the first one left, whatever was stored before. *)
Lemma listen_step_twice w self s (data1 data2 : list Z) (g1 g2 : grid) :
  heap w !! self = Some (Instance s) ->
  grid_ok (__state s) ->
  decode_state data1 = OK g1 ->
  decode_state data2 = OK g2 ->
  exists w2,
    (listen_step self data1 ;; listen_step self data2) w = (w2, OK tt) /\
    fired w2 = fired w ++ dispatched s self g1
                       ++ dispatched (with_state g1 s) self g2 /\
    get_buttons_state self w2 = (w2, OK g2).
Proof.
  intros Hs Hold Hd1 Hd2.
  erewrite bind_OK by (by eapply listen_step_spec).
  erewrite (listen_step_spec _ _ (with_state g1 s));
    [|cbn; by eapply heap_insert_lookup|by eapply decode_state_grid_ok|done].
  eexists. split; [reflexivity|]. cbn.
  split; [by rewrite <- app_assoc|].
  unfold get_buttons_state.
  erewrite getattr_instance
    by (cbn; apply list_lookup_insert_eq; rewrite length_insert;
        by eapply lookup_lt_Some).
  reflexivity.
Qed.

(** *** Transitions *)

Lemma went_down_cells (old new : grid) (c : nat * nat) :
  grid_ok new -> went_down old new c = true -> c ∈ cells.
Proof.
  intros [Hlen Hrows] [_ Hlit]%andb_true_iff. apply cells_spec.
  unfold lit in Hlit.
  destruct (new !! c.1) as [row|] eqn:Hrow; [|done].
  pose proof (Forall_lookup_1 _ _ _ _ Hrows Hrow) as Hrowlen. cbn in Hrowlen.
  apply lookup_lt_Some in Hrow.
  destruct (row !! c.2) eqn:Hx; [|done].
  apply lookup_lt_Some in Hx. lia.
Qed.

Lemma went_up_cells (old new : grid) (c : nat * nat) :
  grid_ok old -> went_up old new c = true -> c ∈ cells.
Proof.
  intros [Hlen Hrows] [Hlit _]%andb_true_iff. apply cells_spec.
  unfold lit in Hlit.
  destruct (old !! c.1) as [row|] eqn:Hrow; [|done].
  pose proof (Forall_lookup_1 _ _ _ _ Hrows Hrow) as Hrowlen. cbn in Hrowlen.
  apply lookup_lt_Some in Hrow.
  destruct (row !! c.2) eqn:Hx; [|done].
  apply lookup_lt_Some in Hx. lia.
Qed.

Lemma elem_of_downs (old new : grid) (c : nat * nat) :
  c ∈ downs old new <-> c ∈ cells /\ went_down old new c = true.
Proof. unfold downs. by rewrite !list_elem_of_In, filter_In. Qed.

Lemma elem_of_ups (old new : grid) (c : nat * nat) :
  c ∈ ups old new <-> c ∈ cells /\ went_up old new c = true.
Proof. unfold ups. by rewrite !list_elem_of_In, filter_In. Qed.

Lemma NoDup_List_filter {A} (p : A -> bool) (l : list A) :
  NoDup l -> NoDup (List.filter p l).
Proof.
  induction 1 as [|x l Hx Hl IH]; cbn; [constructor|].
  destruct (p x); [|done]. constructor; [|done].
  rewrite list_elem_of_In, filter_In, <- list_elem_of_In. tauto.
Qed.

Lemma downs_NoDup (old new : grid) : NoDup (downs old new).
Proof. apply NoDup_List_filter, cells_NoDup. Qed.

Lemma ups_NoDup (old new : grid) : NoDup (ups old new).
Proof. apply NoDup_List_filter, cells_NoDup. Qed.

(** The loops of the dispatcher range over the twenty cells. *)
Lemma cells_twenty : cells = twenty_cells.
Proof. reflexivity. Qed.

(** Two grids differ exactly when some cell was pressed or released. *)
Lemma differ_transitions (old new : grid) :
  differ old new <-> downs old new <> [] \/ ups old new <> [].
Proof.
  split.
  - intros (buzzer & button & Hbuzzer & Hbutton & Hne).
    set (c := (buzzer, button)) in *.
    assert (Hc : c ∈ cells) by (by apply cells_spec).
    destruct (lit old c) eqn:Ho, (lit new c) eqn:Hn; try done.
    + right. intros Hnil.
      assert (Hin : c ∈ ups old new)
        by (apply elem_of_ups; unfold went_up; by rewrite Ho, Hn).
      rewrite Hnil in Hin. by apply elem_of_nil in Hin.
    + left. intros Hnil.
      assert (Hin : c ∈ downs old new)
        by (apply elem_of_downs; unfold went_down; by rewrite Ho, Hn).
      rewrite Hnil in Hin. by apply elem_of_nil in Hin.
  - intros [Hne|Hne].
    + destruct (downs old new) as [|c l] eqn:Hd; [done|].
      assert (Hin : c ∈ downs old new) by (rewrite Hd; left).
      apply elem_of_downs in Hin as [[Hb Hk]%cells_spec [Ho Hn]%andb_true_iff].
      exists c.1, c.2. split; [done|]. split; [done|].
      apply negb_true_iff in Ho. destruct c. cbn. congruence.
    + destruct (ups old new) as [|c l] eqn:Hu; [done|].
      assert (Hin : c ∈ ups old new) by (rewrite Hu; left).
      apply elem_of_ups in Hin as [[Hb Hk]%cells_spec [Ho Hn]%andb_true_iff].
      exists c.1, c.2. split; [done|]. split; [done|].
      apply negb_true_iff in Hn. destruct c. cbn. congruence.
Qed.

(** The invocations of a state update, by whether the grids differ. *)
Lemma dispatched_cases s self (new_state : grid) :
  (~ differ (__state s) new_state /\
   downs (__state s) new_state = [] /\ ups (__state s) new_state = [] /\
   dispatched s self new_state = [])
  \/
  (differ (__state s) new_state /\
   dispatched s self new_state =
     change_firings s self new_state
     ++ flat_map (press_firings s self) (downs (__state s) new_state)
     ++ flat_map (release_firings s self) (ups (__state s) new_state)).
Proof.
  unfold dispatched. rewrite differ_transitions.
  destruct (ups (__state s) new_state), (downs (__state s) new_state).
  - left. repeat split; try done. intros [?|?]; done.
  - right. split; [by left|done].
  - right. split; [by right|done].
  - right. split; [by left|done].
Qed.

(** On grids of four rows of five, the cells pressed are the cells that
    went from false to true, and likewise for the cells released. *)
Lemma downs_went_down (old new : grid) (c : nat * nat) :
  grid_ok new -> c ∈ downs old new <-> went_down old new c = true.
Proof.
  intros Hnew. rewrite elem_of_downs. split; [by intros [_ ?]|].
  intros Hc. split; [by eapply went_down_cells|done].
Qed.

Lemma ups_went_up (old new : grid) (c : nat * nat) :
  grid_ok old -> c ∈ ups old new <-> went_up old new c = true.
Proof.
  intros Hold. rewrite elem_of_ups. split; [by intros [_ ?]|].
  intros Hc. split; [by eapply went_up_cells|done].
Qed.

(** *** Counting and selecting invocations *)

Lemma count_app (p : firing -> bool) (l1 l2 : list firing) :
  count p (l1 ++ l2) = (count p l1 + count p l2)%nat.
Proof. unfold count. by rewrite List.filter_app, length_app. Qed.

Lemma count_nil (p : firing -> bool) : count p [] = 0%nat.
Proof. reflexivity. Qed.

Lemma count_map_all {A} (p : firing -> bool) (f : A -> firing) (l : list A) :
  (forall x, p (f x) = true) -> count p (map f l) = length l.
Proof.
  intros Hp. unfold count. induction l as [|x l IH]; [done|].
  cbn. rewrite Hp. cbn. by rewrite IH.
Qed.

Lemma count_map_none {A} (p : firing -> bool) (f : A -> firing) (l : list A) :
  (forall x, p (f x) = false) -> count p (map f l) = 0%nat.
Proof.
  intros Hp. unfold count. induction l as [|x l IH]; [done|].
  cbn. by rewrite Hp.
Qed.

Lemma count_flat_map_none {A} (p : firing -> bool) (g : A -> list firing) (l : list A) :
  (forall x, count p (g x) = 0%nat) -> count p (flat_map g l) = 0%nat.
Proof.
  intros Hg. induction l as [|x l IH]; [done|].
  cbn [flat_map]. by rewrite count_app, Hg, IH.
Qed.

Lemma count_flat_map_const {A} (p : firing -> bool) (g : A -> list firing)
    (k : nat) (l : list A) :
  (forall x, count p (g x) = k) -> count p (flat_map g l) = (k * length l)%nat.
Proof.
  intros Hg. induction l as [|x l IH]; cbn [flat_map length]; [cbn; lia|].
  rewrite count_app, Hg, IH. lia.
Qed.

Lemma entry_key {V} (d : dict V) (l : string) (v : V) :
  (l, v) ∈ d -> l ∈ dict_keys d.
Proof. intros Hin. unfold dict_keys. apply list_elem_of_fmap. by exists (l, v). Qed.

Lemma filter_map_all {A} (p : firing -> bool) (f : A -> firing) (l : list A) :
  (forall x, p (f x) = true) -> List.filter p (map f l) = map f l.
Proof.
  intros Hp. induction l as [|x l IH]; [done|]. cbn. by rewrite Hp, IH.
Qed.

Lemma filter_map_none {A} (p : firing -> bool) (f : A -> firing) (l : list A) :
  (forall x, p (f x) = false) -> List.filter p (map f l) = [].
Proof.
  intros Hp. induction l as [|x l IH]; [done|]. cbn. by rewrite Hp.
Qed.

Lemma filter_flat_map {A} (p : firing -> bool) (g h : A -> list firing)
    (l : list A) :
  (forall x, List.filter p (g x) = h x) ->
  List.filter p (flat_map g l) = flat_map h l.
Proof.
  intros Hg. induction l as [|x l IH]; [done|].
  cbn [flat_map]. by rewrite List.filter_app, Hg, IH.
Qed.

Lemma filter_flat_map_none {A} (p : firing -> bool) (g : A -> list firing)
    (l : list A) :
  (forall x, List.filter p (g x) = []) -> List.filter p (flat_map g l) = [].
Proof.
  intros Hg. induction l as [|x l IH]; [done|].
  cbn [flat_map]. by rewrite List.filter_app, Hg, IH.
Qed.

(** In a list without repetition, what a test selects, when it selects from
    the segment of [c] only, is what it selects there. *)
Lemma filter_flat_map_one {A} `{EqDecision A} (p : firing -> bool)
    (g : A -> list firing) (c : A) (r : list firing) (l : list A) :
  NoDup l ->
  (forall x, List.filter p (g x) = if decide (x = c) then r else []) ->
  List.filter p (flat_map g l) = if decide (c ∈ l) then r else [].
Proof.
  intros Hl Hg. induction Hl as [|x l Hx Hl IH]; cbn [flat_map].
  - by rewrite decide_False by apply not_elem_of_nil.
  - rewrite List.filter_app, Hg, IH.
    destruct (decide (x = c)) as [->|Hne].
    + rewrite (decide_False (P := c ∈ l)) by done.
      rewrite decide_True by left. by rewrite app_nil_r.
    + destruct (decide (c ∈ l)).
      * by rewrite decide_True by (by right).
      * rewrite decide_False; [done|].
        intros [?|?]%elem_of_cons; congruence.
Qed.

(** Counts and selections over the three kinds of segments of a dispatch. *)

Ltac count_segment :=
  unfold change_firings, press_firings, release_firings;
  rewrite ?count_app;
  repeat match goal with
  | |- context [count ?p (map ?f ?l)] =>
      first
        [ rewrite (count_map_all p f l) by (by intros [??])
        | rewrite (count_map_none p f l) by (by intros [??]) ]
  | |- context [count ?p (if ?b then _ else _)] => destruct b
  | |- context [count ?p []] => rewrite (count_nil p)
  end;
  try lia.

Ltac filter_segment :=
  unfold change_firings, press_firings, release_firings;
  rewrite ?List.filter_app;
  repeat match goal with
  | |- context [List.filter ?p (map ?f ?l)] =>
      first
        [ rewrite (filter_map_all p f l) by (by intros [??])
        | rewrite (filter_map_none p f l) by (by intros [??]) ]
  | |- context [List.filter ?p (if ?b then _ else _)] => destruct b
  end;
  cbn [List.filter]; rewrite ?app_nil_r; try done.

Lemma count_button_down_segments s self (new_state : grid) (c : nat * nat) :
  count is_button_down (change_firings s self new_state) = 0%nat /\
  count is_button_down (press_firings s self c) = length (__on_button_down s) /\
  count is_button_up (release_firings s self c) = length (__on_button_up s) /\
  count is_button_up (change_firings s self new_state) = 0%nat /\
  count is_button_up (press_firings s self c) = 0%nat /\
  count is_button_down (release_firings s self c) = 0%nat.
Proof. repeat split; count_segment. Qed.

Lemma count_buzz_segments s self (new_state : grid) (c : nat * nat) :
  count is_buzz (change_firings s self new_state) = 0%nat /\
  count is_buzz (press_firings s self c)
    = (if (c.2 =? 0)%nat then length (__on_buzz s) else 0%nat) /\
  count is_buzz (release_firings s self c) = 0%nat.
Proof. repeat split; count_segment. Qed.

Lemma filter_change_segments s self (new_state : grid) (c : nat * nat) :
  List.filter is_change (change_firings s self new_state)
    = change_firings s self new_state /\
  List.filter is_change (press_firings s self c) = [] /\
  List.filter is_change (release_firings s self c) = [].
Proof. repeat split; filter_segment. Qed.

Lemma filter_button_down_segments s self (new_state : grid) (c : nat * nat) :
  List.filter is_button_down (change_firings s self new_state) = [] /\
  List.filter is_button_down (press_firings s self c)
    = map (fun '(l, h) => FireButtonDown l h self c.1 c.2) (__on_button_down s) /\
  List.filter is_button_down (release_firings s self c) = [].
Proof. repeat split; filter_segment. Qed.

Lemma filter_button_up_segments s self (new_state : grid) (c : nat * nat) :
  List.filter is_button_up (change_firings s self new_state) = [] /\
  List.filter is_button_up (press_firings s self c) = [] /\
  List.filter is_button_up (release_firings s self c)
    = map (fun '(l, h) => FireButtonUp l h self c.1 c.2) (__on_button_up s).
Proof. repeat split; filter_segment. Qed.

(** What the invocations of a state update have for one cell, or for one
    buzzer. *)
Lemma filter_button_down_at s self (new_state : grid) (c : nat * nat) :
  grid_ok new_state ->
  List.filter (button_down_at c) (dispatched s self new_state)
  = if went_down (__state s) new_state c
    then map (fun '(l, h) => FireButtonDown l h self c.1 c.2) (__on_button_down s)
    else [].
Proof.
  intros Hnew.
  assert (Hin : List.filter (button_down_at c)
                  (flat_map (press_firings s self) (downs (__state s) new_state))
                = if decide (c ∈ downs (__state s) new_state)
                  then map (fun '(l, h) => FireButtonDown l h self c.1 c.2)
                         (__on_button_down s)
                  else []).
  { apply filter_flat_map_one; [apply downs_NoDup|]. intros x.
    unfold press_firings. rewrite List.filter_app.
    replace (List.filter (button_down_at c)
               (if (x.2 =? 0)%nat
                then map (fun '(l, event) => FireBuzz l event self x.1) (__on_buzz s)
                else [])) with (@nil firing)
      by (destruct (x.2 =? 0)%nat; [by rewrite filter_map_none by (by intros [??])|done]).
    rewrite app_nil_r. destruct (decide (x = c)) as [->|Hne].
    - apply filter_map_all. intros [l h]. cbn.
      apply bool_decide_eq_true_2. by destruct c.
    - apply filter_map_none. intros [l h]. cbn.
      apply bool_decide_eq_false_2. intros Heq. apply Hne. by destruct x. }
  destruct (went_down (__state s) new_state c) eqn:Hc.
  - rewrite decide_True in Hin by (by apply downs_went_down).
    destruct (dispatched_cases s self new_state)
      as [(_ & Hdowns & _ & _)|[_ ->]].
    { apply (downs_went_down _ _ _ Hnew) in Hc. rewrite Hdowns in Hc.
      by apply elem_of_nil in Hc. }
    rewrite !List.filter_app, Hin. unfold change_firings.
    rewrite filter_map_none by (by intros [??]).
    rewrite filter_flat_map_none; [by rewrite app_nil_r|].
    intros x. unfold release_firings. by apply filter_map_none; intros [??].
  - rewrite decide_False in Hin
      by (rewrite downs_went_down by done; congruence).
    destruct (dispatched_cases s self new_state) as [(_ & _ & _ & ->)|[_ ->]];
      [done|].
    rewrite !List.filter_app, Hin. unfold change_firings.
    rewrite filter_map_none by (by intros [??]).
    rewrite filter_flat_map_none; [done|].
    intros x. unfold release_firings. by apply filter_map_none; intros [??].
Qed.

Lemma filter_buzz_at s self (new_state : grid) (buzzer : nat) :
  grid_ok new_state ->
  List.filter (buzz_at buzzer) (dispatched s self new_state)
  = if went_down (__state s) new_state (buzzer, 0%nat)
    then map (fun '(l, h) => FireBuzz l h self buzzer) (__on_buzz s)
    else [].
Proof.
  intros Hnew.
  assert (Hin : List.filter (buzz_at buzzer)
                  (flat_map (press_firings s self) (downs (__state s) new_state))
                = if decide ((buzzer, 0%nat) ∈ downs (__state s) new_state)
                  then map (fun '(l, h) => FireBuzz l h self buzzer) (__on_buzz s)
                  else []).
  { apply filter_flat_map_one; [apply downs_NoDup|]. intros [buzzer' button].
    unfold press_firings. cbn [fst snd]. rewrite List.filter_app.
    rewrite filter_map_none by (by intros [??]). cbn [app].
    destruct (Nat.eqb_spec button 0) as [->|Hbutton].
    - destruct (decide ((buzzer', 0%nat) = (buzzer, 0%nat))) as [[= ->]|Hne].
      + apply filter_map_all. intros [l h]. cbn. by apply bool_decide_eq_true_2.
      + apply filter_map_none. intros [l h]. cbn.
        apply bool_decide_eq_false_2. intros ->. by apply Hne.
    - by rewrite decide_False by congruence. }
  destruct (went_down (__state s) new_state (buzzer, 0%nat)) eqn:Hc.
  - rewrite decide_True in Hin by (by apply downs_went_down).
    destruct (dispatched_cases s self new_state)
      as [(_ & Hdowns & _ & _)|[_ ->]].
    { apply (downs_went_down _ _ _ Hnew) in Hc. rewrite Hdowns in Hc.
      by apply elem_of_nil in Hc. }
    rewrite !List.filter_app, Hin. unfold change_firings.
    rewrite filter_map_none by (by intros [??]).
    rewrite filter_flat_map_none; [by rewrite app_nil_r|].
    intros x. unfold release_firings. by apply filter_map_none; intros [??].
  - rewrite decide_False in Hin
      by (rewrite downs_went_down by done; congruence).
    destruct (dispatched_cases s self new_state) as [(_ & _ & _ & ->)|[_ ->]];
      [done|].
    rewrite !List.filter_app, Hin. unfold change_firings.
    rewrite filter_map_none by (by intros [??]).
    rewrite filter_flat_map_none; [done|].
    intros x. unfold release_firings. by apply filter_map_none; intros [??].
Qed.

Lemma count_buzz_presses s self (l : list (nat * nat)) :
  count is_buzz (flat_map (press_firings s self) l)
  = (length (__on_buzz s) * length (List.filter (fun c => (c.2 =? 0)%nat) l))%nat.
Proof.
  induction l as [|c l IH]; cbn [flat_map List.filter]; [cbn; lia|].
  rewrite count_app, IH.
  rewrite (proj1 (proj2 (count_buzz_segments s self [] c))).
  destruct (c.2 =? 0)%nat; cbn [length]; lia.
Qed.

(** *** The dispatcher *)

(** C2.  One state update from the stored grid to a new one returns, stores
    the new grid, and calls the registered callbacks as follows.  When at
    least one of the twenty cells differs, the change invocations are one
    for each registered change handler, each calling the callback of its
    registration with the session and the new grid, and none else; when no
    cell differs, nothing at all is invoked.  The button-down invocations
    are, for each of the twenty cells that went from false to true, one for
    each registered button-down handler, calling its callback with that
    cell, and none else: they number the registered button-down handlers
    times those cells.  Likewise the button-up invocations, for the cells
    that went from true to false. *)
Theorem state_update_counts w self s (new_state : grid) :
  heap w !! self = Some (Instance s) ->
  grid_ok (__state s) ->
  grid_ok new_state ->
  exists w' tr,
    __handle_event self new_state w = (w', OK tt) /\
    fired w' = fired w ++ tr /\
    get_buttons_state self w' = (w', OK new_state) /\
    (differ (__state s) new_state ->
       List.filter is_change tr
       = map (fun '(l, h) => FireChange l h self new_state) (__on_change s)) /\
    (~ differ (__state s) new_state -> tr = []) /\
    List.filter is_button_down tr
      = flat_map
          (fun c => map (fun '(l, h) => FireButtonDown l h self c.1 c.2)
                      (__on_button_down s))
          (List.filter (fun c => negb (lit (__state s) c) && lit new_state c)
             twenty_cells) /\
    count is_button_down tr =
      (length (__on_button_down s) *
       length (List.filter (fun c => negb (lit (__state s) c) && lit new_state c)
                 twenty_cells))%nat /\
    List.filter is_button_up tr
      = flat_map
          (fun c => map (fun '(l, h) => FireButtonUp l h self c.1 c.2)
                      (__on_button_up s))
          (List.filter (fun c => lit (__state s) c && negb (lit new_state c))
             twenty_cells) /\
    count is_button_up tr =
      (length (__on_button_up s) *
       length (List.filter (fun c => lit (__state s) c && negb (lit new_state c))
                 twenty_cells))%nat.
Proof.
  intros Hs Hold Hnew.
  rewrite (handle_event_spec _ _ _ _ Hs Hold Hnew).
  eexists _, (dispatched s self new_state).
  split; [reflexivity|]. split; [reflexivity|].
  split.
  { unfold get_buttons_state.
    erewrite getattr_instance by (cbn; by eapply heap_insert_lookup).
    reflexivity. }
  change (List.filter (fun c => negb (lit (__state s) c) && lit new_state c)
            twenty_cells) with (downs (__state s) new_state).
  change (List.filter (fun c => lit (__state s) c && negb (lit new_state c))
            twenty_cells) with (ups (__state s) new_state).
  destruct (dispatched_cases s self new_state)
    as [(Hsame & Hdowns & Hups & ->)|[Hdiff ->]].
  - rewrite Hdowns, Hups. repeat split; try done. all: cbn; lia.
  - split; [|split; [done|]].
    { intros _. rewrite !List.filter_app.
      rewrite (proj1 (filter_change_segments s self new_state (0, 0)%nat)).
      rewrite !filter_flat_map_none; [by rewrite app_nil_r| |];
        intros c; apply (filter_change_segments s self new_state c). }
    split; [|split; [|split]].
    + rewrite !List.filter_app.
      rewrite (proj1 (filter_button_down_segments s self new_state (0, 0)%nat)).
      rewrite (filter_flat_map_none _ (release_firings s self))
        by (intros c; apply (filter_button_down_segments s self new_state c)).
      rewrite app_nil_r. cbn [app]. apply filter_flat_map.
      intros c. apply (filter_button_down_segments s self new_state c).
    + rewrite !count_app.
      rewrite (proj1 (count_button_down_segments s self new_state (0, 0)%nat)).
      rewrite (count_flat_map_const _ _ (length (__on_button_down s)))
        by (intros c; apply (count_button_down_segments s self new_state c)).
      rewrite count_flat_map_none
        by (intros c; apply (count_button_down_segments s self new_state c)).
      lia.
    + rewrite !List.filter_app.
      rewrite (proj1 (filter_button_up_segments s self new_state (0, 0)%nat)).
      rewrite (filter_flat_map_none _ (press_firings s self))
        by (intros c; apply (filter_button_up_segments s self new_state c)).
      cbn [app]. apply filter_flat_map.
      intros c. apply (filter_button_up_segments s self new_state c).
    + rewrite !count_app.
      rewrite (proj1 (proj2 (proj2 (proj2
                 (count_button_down_segments s self new_state (0, 0)%nat))))).
      rewrite count_flat_map_none
        by (intros c; apply (count_button_down_segments s self new_state c)).
      rewrite (count_flat_map_const _ _ (length (__on_button_up s)))
        by (intros c; apply (count_button_down_segments s self new_state c)).
      lia.
Qed.

(** C3.  In one state update, for every cell that goes from false to true:
    the button-down invocations for that cell are one for each registered
    button-down handler, each calling the callback of its registration; and
    when the cell is a primary button (index 0), the buzz invocations for
    its buzzer are one for each registered buzz handler, each calling the
    callback of its registration, as well.  The buzz invocations for a
    buzzer are these when the primary button of the buzzer goes from false
    to true and none otherwise, so the other cells cause no buzz: the buzz
    invocations number the registered buzz handlers times the pressed
    primary cells among the twenty. *)
Theorem buzz_on_primary_press w self s (new_state : grid) :
  heap w !! self = Some (Instance s) ->
  grid_ok (__state s) ->
  grid_ok new_state ->
  exists w' tr,
    __handle_event self new_state w = (w', OK tt) /\
    fired w' = fired w ++ tr /\
    (forall buzzer button : nat,
       lit (__state s) (buzzer, button) = false ->
       lit new_state (buzzer, button) = true ->
       List.filter (button_down_at (buzzer, button)) tr
         = map (fun '(l, h) => FireButtonDown l h self buzzer button)
             (__on_button_down s) /\
       (button = 0%nat ->
        List.filter (buzz_at buzzer) tr
          = map (fun '(l, h) => FireBuzz l h self buzzer) (__on_buzz s))) /\
    (forall buzzer : nat,
       List.filter (buzz_at buzzer) tr
       = if negb (lit (__state s) (buzzer, 0%nat)) && lit new_state (buzzer, 0%nat)
         then map (fun '(l, h) => FireBuzz l h self buzzer) (__on_buzz s)
         else []) /\
    count is_buzz tr =
      (length (__on_buzz s) *
       length (List.filter
                 (fun c => negb (lit (__state s) c) && lit new_state c && (c.2 =? 0)%nat)
                 twenty_cells))%nat.
Proof.
  intros Hs Hold Hnew.
  rewrite (handle_event_spec _ _ _ _ Hs Hold Hnew).
  eexists _, (dispatched s self new_state).
  split; [reflexivity|]. split; [reflexivity|].
  split; [|split].
  - intros buzzer button Ho Hn.
    assert (Hwent : went_down (__state s) new_state (buzzer, button) = true)
      by (unfold went_down; by rewrite Ho, Hn).
    split.
    + by rewrite filter_button_down_at, Hwent by done.
    + intros ->. by rewrite filter_buzz_at, Hwent by done.
  - intros buzzer. by rewrite filter_buzz_at by done.
  - assert (Hfilter :
      List.filter (fun c => negb (lit (__state s) c) && lit new_state c && (c.2 =? 0)%nat)
        twenty_cells
      = List.filter (fun c => (c.2 =? 0)%nat) (downs (__state s) new_state)).
    { unfold downs, went_down. rewrite cells_twenty. generalize twenty_cells.
      intros l. induction l as [|c l IH]; [done|]. cbn [List.filter].
      destruct (negb (lit (__state s) c) && lit new_state c); cbn [andb List.filter].
      - destruct (c.2 =? 0)%nat; by rewrite IH.
      - done. }
    rewrite Hfilter.
    destruct (dispatched_cases s self new_state)
      as [(Hsame & Hdowns & Hups & ->)|[Hdiff ->]].
    + rewrite Hdowns. cbn. lia.
    + rewrite !count_app, count_buzz_presses.
      unfold change_firings at 1. rewrite count_map_none by (by intros [??]).
      rewrite count_flat_map_none
        by (intros x; unfold release_firings; by apply count_map_none; intros [??]).
      lia.
Qed.

(** *** Order of a dispatch *)

Lemma in_phase_order_const (tr : list firing) (k : nat) :
  Forall (fun f => phase f = k) tr -> in_phase_order tr.
Proof.
  intros Hall i j f1 f2 _ H1 H2.
  rewrite (Forall_lookup_1 _ _ _ _ Hall H1), (Forall_lookup_1 _ _ _ _ Hall H2).
  done.
Qed.

Lemma in_phase_order_app (tr1 tr2 : list firing) (k : nat) :
  Forall (fun f => (phase f <= k)%nat) tr1 ->
  Forall (fun f => (k <= phase f)%nat) tr2 ->
  in_phase_order tr1 -> in_phase_order tr2 ->
  in_phase_order (tr1 ++ tr2).
Proof.
  intros Hlow Hhigh H1 H2 i j f1 f2 Hij Hi Hj.
  apply lookup_app_Some in Hi as [Hi|[Hlen Hi]];
    apply lookup_app_Some in Hj as [Hj|[Hlen' Hj]].
  - by eapply H1.
  - pose proof (Forall_lookup_1 _ _ _ _ Hlow Hi) as Hle. cbn in Hle.
    pose proof (Forall_lookup_1 _ _ _ _ Hhigh Hj) as Hge. cbn in Hge. lia.
  - apply lookup_lt_Some in Hj. lia.
  - eapply (H2 (i - length tr1)%nat (j - length tr1)%nat); [lia|done|done].
Qed.

Lemma Forall_flat_map {A} (P : firing -> Prop) (g : A -> list firing) (l : list A) :
  (forall x, x ∈ l -> Forall P (g x)) -> Forall P (flat_map g l).
Proof.
  induction l as [|x l IH]; intros Hg; cbn [flat_map]; [constructor|].
  apply Forall_app. split; [apply Hg; left|].
  apply IH. intros y Hy. apply Hg. by right.
Qed.

Lemma Forall_entries (P : firing -> Prop) (mk : string -> handler -> firing)
    (d : dict handler) :
  (forall l e, P (mk l e)) -> Forall P (map (fun '(l, event) => mk l event) d).
Proof.
  intros HP. induction d as [|[l e] d IH]; cbn [map]; constructor; auto.
Qed.

Lemma Forall_change_firings (P : firing -> Prop) s self (new_state : grid) :
  (forall l e, P (FireChange l e self new_state)) ->
  Forall P (change_firings s self new_state).
Proof. intros HP. by apply (Forall_entries P (fun l e => FireChange l e self new_state)). Qed.

Lemma Forall_press_firings (P : firing -> Prop) s self (c : nat * nat) :
  (forall l e, P (FireButtonDown l e self c.1 c.2)) ->
  (c.2 = 0%nat -> forall l e, P (FireBuzz l e self c.1)) ->
  Forall P (press_firings s self c).
Proof.
  intros Hdown Hbuzz. unfold press_firings. apply Forall_app. split.
  - by apply (Forall_entries P (fun l e => FireButtonDown l e self c.1 c.2)).
  - destruct (Nat.eqb_spec c.2 0) as [Hprimary|_]; [|constructor].
    apply (Forall_entries P (fun l e => FireBuzz l e self c.1)). by apply Hbuzz.
Qed.

Lemma Forall_release_firings (P : firing -> Prop) s self (c : nat * nat) :
  (forall l e, P (FireButtonUp l e self c.1 c.2)) ->
  Forall P (release_firings s self c).
Proof.
  intros HP. by apply (Forall_entries P (fun l e => FireButtonUp l e self c.1 c.2)).
Qed.

(** The invocations of a state update are in phase order, and each is about
    a transition between the two grids. *)
Lemma dispatched_in_phase_order s self (new_state : grid) :
  in_phase_order (dispatched s self new_state).
Proof.
  destruct (dispatched_cases s self new_state) as [(_ & _ & _ & ->)|[_ ->]].
  { intros i j f1 f2 _ Hi. by rewrite lookup_nil in Hi. }
  apply (in_phase_order_app _ _ 1).
  - apply Forall_change_firings. cbn. lia.
  - apply Forall_app. split.
    + apply Forall_flat_map. intros c _.
      apply Forall_press_firings; cbn; lia.
    + apply Forall_flat_map. intros c _.
      apply Forall_release_firings; cbn; lia.
  - apply (in_phase_order_const _ 0). by apply Forall_change_firings.
  - apply (in_phase_order_app _ _ 2).
    + apply Forall_flat_map. intros c _.
      apply Forall_press_firings; cbn; lia.
    + apply Forall_flat_map. intros c _.
      apply Forall_release_firings; cbn; lia.
    + apply (in_phase_order_const _ 1). apply Forall_flat_map. intros c _.
      by apply Forall_press_firings.
    + apply (in_phase_order_const _ 2). apply Forall_flat_map. intros c _.
      by apply Forall_release_firings.
Qed.

Lemma dispatched_caused_by s self (new_state : grid) :
  Forall (caused_by self (__state s) new_state) (dispatched s self new_state).
Proof.
  destruct (dispatched_cases s self new_state) as [(_ & _ & _ & ->)|[_ ->]];
    [constructor|].
  apply Forall_app. split; [by apply Forall_change_firings|].
  apply Forall_app. split.
  - apply Forall_flat_map.
    intros [buzzer button] [_ [Ho Hn]%andb_true_iff]%elem_of_downs.
    apply negb_true_iff in Ho.
    apply Forall_press_firings; cbn; [done|].
    by intros ->.
  - apply Forall_flat_map.
    intros [buzzer button] [_ [Ho Hn]%andb_true_iff]%elem_of_ups.
    apply negb_true_iff in Hn.
    by apply Forall_release_firings.
Qed.

(** Loops of a dispatch whose callbacks act on the world. *)

Lemma appends_ret (P : world -> Prop) : appends P (ret tt) [].
Proof. intros w Hw. exists w. by rewrite app_nil_r. Qed.

Lemma appends_bind (P : world -> Prop) (m : M unit) (k : M unit)
    (tr1 tr2 : list firing) :
  appends P m tr1 -> appends P k tr2 ->
  appends P (bind m (fun _ => k)) (tr1 ++ tr2).
Proof.
  intros Hm Hk w Hw. destruct (Hm w Hw) as (w1 & Hrun1 & Hw1 & Hfired1).
  destruct (Hk w1 Hw1) as (w2 & Hrun2 & Hw2 & Hfired2).
  exists w2. unfold bind. rewrite Hrun1, Hrun2. split; [done|]. split; [done|].
  by rewrite Hfired2, Hfired1, app_assoc.
Qed.

Lemma appends_for {A} (P : world -> Prop) (l : list A) (body : A -> M unit)
    (g : A -> list firing) :
  (forall x, appends P (body x) (g x)) ->
  appends P (for_ l body) (flat_map g l).
Proof.
  intros Hbody. induction l as [|x l IH]; cbn [for_ flat_map].
  - apply appends_ret.
  - by apply appends_bind.
Qed.

Lemma appends_call (effect : firing -> world -> world) self s (f : firing) :
  keeps_handlers self effect ->
  appends (has_handlers_of s self) (call effect f) [f].
Proof.
  intros Heffect w (s0 & Hs0 & Hc & Hb & Hd & Hu).
  destruct (Heffect f (with_fired (fired w ++ [f]) w) s0 Hs0)
    as (Hfired & s1 & Hs1 & Hc1 & Hb1 & Hd1 & Hu1).
  eexists. split; [reflexivity|]. split; [|by rewrite Hfired].
  exists s1. split; [done|]. repeat split; congruence.
Qed.

Lemma appends_registry (effect : firing -> world -> world) self s
    (registry : BuzzerSet -> dict handler) (mk : string -> handler -> firing) :
  keeps_handlers self effect ->
  (forall w s0, has_handlers_of s self w -> heap w !! self = Some (Instance s0) ->
     registry s0 = registry s) ->
  appends (has_handlers_of s self)
    (events <- getattr self registry ;;
     for_ events (fun '(l, h) => call effect (mk l h)))
    (map (fun '(l, h) => mk l h) (registry s)).
Proof.
  intros Heffect Hregistry w Hw. pose proof Hw as (s0 & Hs0 & _).
  erewrite bind_OK by (by apply getattr_instance).
  rewrite (Hregistry w s0 Hw Hs0).
  assert (Hloop : appends (has_handlers_of s self)
            (for_ (registry s) (fun '(l, h) => call effect (mk l h)))
            (flat_map (fun '(l, h) => [mk l h]) (registry s))).
  { apply appends_for. intros [l h]. by apply appends_call. }
  destruct (Hloop w Hw) as (w' & Hrun & Hw' & Hfired).
  exists w'. split; [done|]. split; [done|]. rewrite Hfired. f_equal.
  clear. induction (registry s) as [|[l h] d IH]; [done|]. cbn. by rewrite IH.
Qed.

(** C4.  The invocations of one state update come in phase order: every
    change invocation before every button-down or buzz invocation, and these
    before every button-up invocation.  The cells pressed and the cells
    released are computed once, before any callback is called, from the
    grid that was stored when the update began and the new grid: whatever
    the callbacks do to the world while they run (to the stored grid of
    the session too), short of changing the registries of the session, the
    trace is the change invocations, then, cell by cell, the invocations
    for the cells among the twenty that went from false to true between
    these two grids (the button-down handlers of a cell, followed by the
    buzz handlers when the cell is a primary button), then, cell by cell,
    those for the cells that went from true to false between the same two
    grids; and it is empty when the two grids do not differ. *)
Theorem dispatch_order (effect : firing -> world -> world) w self s
    (new_state : grid) :
  heap w !! self = Some (Instance s) ->
  grid_ok (__state s) ->
  grid_ok new_state ->
  keeps_handlers self effect ->
  exists w' tr,
    handle_event_calling (call effect) self new_state w = (w', OK tt) /\
    fired w' = fired w ++ tr /\
    in_phase_order tr /\
    Forall (caused_by self (__state s) new_state) tr /\
    (differ (__state s) new_state ->
       tr = map (fun '(l, h) => FireChange l h self new_state) (__on_change s)
            ++ flat_map (press_firings s self)
                 (List.filter (fun c => negb (lit (__state s) c) && lit new_state c)
                    twenty_cells)
            ++ flat_map (release_firings s self)
                 (List.filter (fun c => lit (__state s) c && negb (lit new_state c))
                    twenty_cells)) /\
    (~ differ (__state s) new_state -> tr = []).
Proof.
  intros Hs Hold Hnew Heffect.
  assert (Hrun : exists w',
            handle_event_calling (call effect) self new_state w = (w', OK tt) /\
            fired w' = fired w ++ dispatched s self new_state).
  { unfold handle_event_calling.
    erewrite bind_OK by (by apply getattr_instance).
    erewrite bind_OK by (by apply setattr_instance).
    erewrite bind_OK by (unfold lift; by rewrite pressed_cells).
    erewrite bind_OK by (unfold lift; by rewrite released_cells).
    rewrite !any_pairs. unfold dispatched.
    fold (downs (__state s) new_state). fold (ups (__state s) new_state).
    set (w1 := with_heap _ w).
    assert (Hw1 : has_handlers_of s self w1).
    { exists (with_state new_state s). split; [by eapply heap_insert_lookup|done]. }
    assert (Hloops : appends (has_handlers_of s self)
      ((events <- getattr self __on_change ;;
        for_ events (fun '(l, h) => call effect (FireChange l h self new_state))) ;;
       for_ (downs (__state s) new_state) (fun '(buzzer, button) =>
         (events <- getattr self __on_button_down ;;
          for_ events (fun '(l, h) =>
            call effect (FireButtonDown l h self buzzer button))) ;;
         if (button =? 0)%nat
         then
           events <- getattr self __on_buzz ;;
           for_ events (fun '(l, h) => call effect (FireBuzz l h self buzzer))
         else ret tt) ;;
       for_ (ups (__state s) new_state) (fun '(buzzer, button) =>
         events <- getattr self __on_button_up ;;
         for_ events (fun '(l, h) =>
           call effect (FireButtonUp l h self buzzer button))))
      (change_firings s self new_state
       ++ flat_map (press_firings s self) (downs (__state s) new_state)
       ++ flat_map (release_firings s self) (ups (__state s) new_state))).
    { apply appends_bind.
      { apply (appends_registry effect self s __on_change
                 (fun l h => FireChange l h self new_state)); [done|].
        intros w0 s0 (s1 & Hs1 & Hc & _) Hs0. congruence. }
      apply appends_bind.
      - apply appends_for. intros [buzzer button]. unfold press_firings.
        cbn [fst snd]. apply appends_bind.
        + apply (appends_registry effect self s __on_button_down
                   (fun l h => FireButtonDown l h self buzzer button)); [done|].
          intros w0 s0 (s1 & Hs1 & _ & _ & Hd & _) Hs0. congruence.
        + destruct (button =? 0)%nat; [|apply appends_ret].
          apply (appends_registry effect self s __on_buzz
                   (fun l h => FireBuzz l h self buzzer)); [done|].
          intros w0 s0 (s1 & Hs1 & _ & Hb & _) Hs0. congruence.
      - apply appends_for. intros [buzzer button].
        apply (appends_registry effect self s __on_button_up
                 (fun l h => FireButtonUp l h self buzzer button)); [done|].
        intros w0 s0 (s1 & Hs1 & _ & _ & _ & Hu) Hs0. congruence. }
    destruct (Hloops w1 Hw1) as (w' & Hrun & _ & Hfired).
    destruct (ups (__state s) new_state) as [|cu us];
      destruct (downs (__state s) new_state) as [|cd ds]; cbn [negb andb].
    - exists w1. by rewrite app_nil_r.
    - exists w'. by rewrite Hrun.
    - exists w'. by rewrite Hrun.
    - exists w'. by rewrite Hrun. }
  destruct Hrun as (w' & Hrun & Hfired).
  exists w', (dispatched s self new_state).
  split; [done|]. split; [done|].
  split; [apply dispatched_in_phase_order|].
  split; [apply dispatched_caused_by|].
  change (List.filter (fun c => negb (lit (__state s) c) && lit new_state c)
            twenty_cells) with (downs (__state s) new_state).
  change (List.filter (fun c => lit (__state s) c && negb (lit new_state c))
            twenty_cells) with (ups (__state s) new_state).
  destruct (dispatched_cases s self new_state)
    as [(Hsame & _ & _ & ->)|[Hdiff ->]]; done.
Qed.

(** With callbacks that leave the world as it is, this is
    [__handle_event]. *)
Lemma handle_event_inert self (new_state : grid) :
  handle_event_calling (call (fun _ (w : world) => w)) self new_state
  = __handle_event self new_state.
Proof. reflexivity. Qed.

(** *** Invariants of the world *)

Lemma stable_ret {A} (a : A) : stable (@ret handler A a).
Proof. intros w w' r [= <- <-]. done. Qed.

Lemma stable_lift {A} (x : result A) : stable (@lift handler A x).
Proof. intros w w' r [= <- <-]. done. Qed.

Lemma stable_getattr {A} self (attr : BuzzerSet -> A) : stable (getattr self attr).
Proof.
  intros w w' r. unfold getattr.
  destruct (heap w !! self) as [[|s]|]; intros [= <- <-]; done.
Qed.

Lemma stable_setattr self (upd : BuzzerSet -> BuzzerSet) :
  (forall s, instance_ok s -> instance_ok (upd s)) ->
  (forall s, __initialised (upd s) = __initialised s) ->
  stable (setattr self upd).
Proof.
  intros Hupd Hinit w w' r. unfold setattr.
  destruct (heap w !! self) as [[|s]|] eqn:Hs; intros [= <- <-]; try done.
  cbn. split; [done|]. split; [by rewrite length_insert|].
  assert (Hlt : (self < length (heap w))%nat) by (by eapply lookup_lt_Some).
  split.
  - intros Hok r' s' Hr'. cbn in Hr'.
    destruct (decide (r' = self)) as [->|Hne].
    + rewrite list_lookup_insert_eq in Hr' by done.
      injection Hr' as <-. apply Hupd. by eapply Hok.
    + rewrite list_lookup_insert_ne in Hr' by done. by eapply Hok.
  - intros a (s' & Ha & Hs'). unfold initialised_at. cbn.
    destruct (decide (a = self)) as [->|Hne].
    + rewrite list_lookup_insert_eq by done. exists (upd s).
      split; [done|]. rewrite Hinit. congruence.
    + rewrite list_lookup_insert_ne by done. eauto.
Qed.

Lemma stable_hid_issue (c : hid_call) : stable (@hid_issue handler c).
Proof.
  intros w w' r. unfold hid_issue.
  destruct (hid_script w) as [|[] ?]; intros [= <- <-]; done.
Qed.

Lemma stable_fire (f : firing) : stable (fire f).
Proof. intros w w' r [= <- <-]. done. Qed.

Lemma stable_bind {A B} (m : M A) (k : A -> M B) :
  stable m -> (forall a, stable (k a)) -> stable (bind m k).
Proof.
  intros Hm Hk w w' r. unfold bind.
  destruct (m w) as [w1 [a|e]] eqn:Hrun.
  - intros Hrun'. destruct (Hm _ _ _ Hrun) as (Hreg & Hlen & Hok & Hinit).
    destruct (Hk _ _ _ _ Hrun') as (Hreg' & Hlen' & Hok' & Hinit').
    split; [congruence|]. split; [congruence|auto].
  - intros [= <- <-]. by eapply Hm.
Qed.

Lemma stable_for {A} (l : list A) (body : A -> M unit) :
  (forall x, stable (body x)) -> stable (for_ l body).
Proof.
  intros Hbody. induction l as [|x l IH]; cbn [for_].
  - apply stable_ret.
  - apply stable_bind; auto.
Qed.

Lemma stable_for_fire (events : dict handler) (mk : string -> handler -> firing) :
  stable (for_ events (fun '(l, event) => fire (mk l event))).
Proof. apply stable_for. intros [l e]. apply stable_fire. Qed.

Create HintDb stable.

#[local] Hint Resolve stable_ret stable_lift stable_getattr stable_hid_issue
  stable_fire stable_for_fire : stable.

Ltac stable_step :=
  first
    [ apply stable_bind; [|intros ?]
    | apply stable_for; intros [??]
    | apply stable_setattr;
        [ intros ? (? & ? & ? & ? & ?);
          (split; [|split; [|split; [|split]]]); cbn;
          auto using dict_ok_set, dict_ok_pop, dict_ok_nil
        | reflexivity ]
    | match goal with |- stable (if ?b then _ else _) => destruct b end
    | solve [auto with stable] ].

Lemma stable_set_lights self (lights : list bool) :
  stable (handler := handler) (set_lights self lights).
Proof. unfold set_lights, write. repeat stable_step. Qed.

Lemma stable_set_light self (buzzer : Z) (light : bool) :
  stable (handler := handler) (set_light self buzzer light).
Proof.
  unfold set_light, set_lights, write. repeat stable_step.
Qed.

Lemma stable_set_lights_on self :
  stable (handler := handler) (set_lights_on self).
Proof. apply stable_set_lights. Qed.

Lemma stable_set_lights_off self :
  stable (handler := handler) (set_lights_off self).
Proof. apply stable_set_lights. Qed.

Lemma stable_set_label self (l : string) :
  stable (handler := handler) (set_label self l).
Proof. unfold set_label. repeat stable_step. Qed.

Lemma stable_get_buttons_state self :
  stable (handler := handler) (get_buttons_state self).
Proof. apply stable_getattr. Qed.

Lemma stable_get_lights_state self :
  stable (handler := handler) (get_lights_state self).
Proof. apply stable_getattr. Qed.

Lemma stable_on_change (str_of : handler -> string) self (h : handler)
    (l : option string) :
  stable (handler := handler) (on_change str_of self h l).
Proof. unfold on_change. repeat stable_step. Qed.

Lemma stable_on_buzz (str_of : handler -> string) self (h : handler)
    (l : option string) :
  stable (handler := handler) (on_buzz str_of self h l).
Proof. unfold on_buzz. repeat stable_step. Qed.

Lemma stable_on_button_down (str_of : handler -> string) self (h : handler)
    (l : option string) :
  stable (handler := handler) (on_button_down str_of self h l).
Proof. unfold on_button_down. repeat stable_step. Qed.

Lemma stable_on_button_up (str_of : handler -> string) self (h : handler)
    (l : option string) :
  stable (handler := handler) (on_button_up str_of self h l).
Proof. unfold on_button_up. repeat stable_step. Qed.

Lemma stable_remove_handler self (l : string) :
  stable (handler := handler) (remove_handler self l).
Proof. unfold remove_handler. repeat stable_step. Qed.

Lemma stable_clear_handlers self :
  stable (handler := handler) (clear_handlers self).
Proof. unfold clear_handlers. repeat stable_step. Qed.

Lemma stable_handle_event self (new_state : grid) :
  grid_ok new_state -> stable (handler := handler) (__handle_event self new_state).
Proof.
  intros Hnew. unfold __handle_event, handle_event_calling. repeat stable_step.
Qed.

Lemma stable_listen_step self (data : list Z) :
  stable (handler := handler) (listen_step self data).
Proof.
  unfold listen_step. intros w w' r. unfold bind, lift.
  destruct (decode_state data) as [g|e] eqn:Hdecode.
  - apply stable_handle_event. by eapply decode_state_grid_ok.
  - intros [= <- <-]. done.
Qed.

Lemma stable_init self (path : bytes) (label : option string) :
  stable (handler := handler) (__init__ self path label).
Proof.
  unfold __init__. apply stable_bind.
  { intros w w' r. unfold get_initialised.
    destruct (heap w !! self) as [[|s]|]; intros [= <- <-]; done. }
  intros [|]; [apply stable_ret|].
  apply stable_bind.
  { intros w w' r. unfold init_attrs. intros [= <- <-]. cbn.
    split; [done|]. split; [by rewrite length_insert|]. split.
    - intros Hok r' s' Hr'. cbn in Hr'.
      destruct (decide (r' = self)) as [->|Hne].
      + apply list_lookup_insert_Some in Hr' as [(_ & [= <-] & _)|[? _]]; [|done].
        repeat split; try apply NoDup_nil_2. cbn.
        repeat constructor.
      + rewrite list_lookup_insert_ne in Hr' by done. by eapply Hok.
    - intros a (s' & Ha & Hs'). unfold initialised_at. cbn.
      destruct (decide (a = self)) as [->|Hne].
      + rewrite list_lookup_insert_eq by (by eapply lookup_lt_Some). eauto.
      + rewrite list_lookup_insert_ne by done. eauto. }
  intros _. unfold open_path, set_lights_off, set_lights, write.
  repeat stable_step.
Qed.

(** Every method keeps a sound world sound. *)
Lemma stable_world_ok {A} (m : M A) w w' (r : result A) :
  stable m -> world_ok w -> m w = (w', r) -> world_ok w'.
Proof.
  intros Hm [[Hlt Hinj] Hinst] Hrun.
  destruct (Hm _ _ _ Hrun) as (Hreg & Hlen & Hok & _).
  split; [|auto]. unfold registry_ok. by rewrite Hreg, Hlen.
Qed.

Lemma world_ok_initial (script : list bool) :
  world_ok (@initial_world handler script).
Proof.
  split; [apply registry_ok_initial|].
  intros r s Hr. cbn in Hr. by rewrite lookup_nil in Hr.
Qed.

(** *** One session per path *)

Lemma new_keeps w w1 (path : bytes) (res : result ref) :
  __new__ path w = (w1, res) ->
  (instances_ok w -> instances_ok w1) /\
  (forall a, initialised_at w a -> initialised_at w1 a).
Proof.
  intros Hnew.
  destruct (__existing_buzzer_sets w !! path) as [r|] eqn:Hp.
  { rewrite (new_registered _ _ _ Hp) in Hnew. by injection Hnew as <- <-. }
  rewrite (new_unregistered _ _ Hp) in Hnew.
  injection Hnew as <- <-. cbn. split.
  - intros Hinst r' s' Hr'. cbn in Hr'.
    apply lookup_app_Some in Hr' as [Hr'|[_ Hr']]; [by eapply Hinst|].
    by destruct (r' - length (heap w))%nat as [|[|?]].
  - intros a (s & Ha & Hs). exists s. split; [|done].
    cbn. by apply lookup_app_l_Some.
Qed.

(** A construction call keeps what is registered registered and what is
    initialised initialised. *)
Lemma call_keeps w w1 (path : bytes) (res : result ref) :
  BuzzerSet_call path w = (w1, res) ->
  (forall p a, __existing_buzzer_sets w !! p = Some a ->
     __existing_buzzer_sets w1 !! p = Some a) /\
  (instances_ok w -> instances_ok w1) /\
  (forall a, initialised_at w a -> initialised_at w1 a).
Proof.
  intros Hrun. split.
  - intros p a Hp.
    destruct (call_cases _ _ _ _ Hrun)
      as [(r & _ & Hreg & _)|(Hnone & Hreg & _)]; rewrite Hreg; [done|].
    rewrite lookup_insert_ne; [done|]. congruence.
  - unfold BuzzerSet_call, bind in Hrun.
    destruct (__new__ path w) as [w0 [self|e]] eqn:Hnew.
    + destruct (new_keeps _ _ _ _ Hnew) as [Hinst0 Hinit0].
      destruct (__init__ self path None w0) as [w2 [[]|e]] eqn:Hinit;
        injection Hrun as <- <-;
        destruct (stable_init _ _ _ _ _ _ Hinit) as (_ & _ & Hinst2 & Hinit2);
        split; auto.
    + destruct (__existing_buzzer_sets w !! path) as [r|] eqn:Hp.
      * by rewrite (new_registered _ _ _ Hp) in Hnew.
      * by rewrite (new_unregistered _ _ Hp) in Hnew.
Qed.

Lemma call_world_ok w w' (path : bytes) (r : result ref) :
  world_ok w -> BuzzerSet_call path w = (w', r) -> world_ok w'.
Proof.
  intros [Hreg Hinst] Hrun. split; [by eapply call_registry_ok|].
  by apply (call_keeps _ _ _ _ Hrun).
Qed.

(** Whatever a program does after a session has been constructed, the
    session stays the one registered for its path, and stays initialised. *)
Lemma reaches_keeps w w' :
  reaches w w' ->
  registry_ok w ->
  registry_ok w' /\
  (forall p a, __existing_buzzer_sets w !! p = Some a ->
     __existing_buzzer_sets w' !! p = Some a) /\
  (forall a, initialised_at w a -> initialised_at w' a).
Proof.
  induction 1 as [w|path w w1 w2 r Hcall _ IH|A m w w1 w2 r Hm Hrun _ IH];
    intros Hok.
  - done.
  - destruct (call_keeps _ _ _ _ Hcall) as (Hreg & _ & Hinit).
    destruct IH as (Hok2 & Hreg2 & Hinit2); [by eapply call_registry_ok|].
    split; [done|]. split; auto.
  - destruct (Hm _ _ _ Hrun) as (Hreg & Hlen & _ & Hinit).
    destruct IH as (Hok2 & Hreg2 & Hinit2).
    { destruct Hok as [Hlt Hinj]. unfold registry_ok. by rewrite Hreg, Hlen. }
    split; [done|]. split; [|auto].
    intros p a Hp. apply Hreg2. by rewrite Hreg.
Qed.

Lemma reaches_world_ok w w' : reaches w w' -> world_ok w -> world_ok w'.
Proof.
  induction 1 as [w|path w w1 w2 r Hcall _ IH|A m w w1 w2 r Hm Hrun _ IH];
    intros Hok; [done| |].
  - apply IH. by eapply call_world_ok.
  - apply IH. by eapply stable_world_ok.
Qed.

(** C8.  Take two construction calls of a program, the first of which
    returned a session, with any method calls in between.  When the paths
    are equal the second call returns the same session and leaves the world,
    hence the session's state, exactly as it was, so initialisation has not
    run again; when the paths differ the second call does not return the
    session of the first. *)
Theorem singleton_per_path w w1 w1' w2 (p1 p2 : bytes) (r1 : ref) (res2 : result ref) :
  registry_ok w ->
  BuzzerSet_call p1 w = (w1, OK r1) ->
  reaches w1 w1' ->
  BuzzerSet_call p2 w1' = (w2, res2) ->
  (p1 = p2 -> res2 = OK r1 /\ w2 = w1') /\
  (p1 <> p2 -> res2 <> OK r1).
Proof.
  intros Hok Hrun1 Hreach Hrun2.
  assert (Hok1 : registry_ok w1) by (by eapply call_registry_ok).
  assert (Hfirst : __existing_buzzer_sets w1 !! p1 = Some r1 /\ initialised_at w1 r1).
  { destruct (call_cases _ _ _ _ Hrun1)
      as [(r & Hp & Hreg & _ & Hres)|(Hp & Hreg & _ & Hres)].
    - destruct (Hres r1 eq_refl) as [-> Hs]. by rewrite Hreg.
    - destruct (Hres r1 eq_refl) as [-> Hs]. split; [|done].
      rewrite Hreg. apply lookup_insert_eq. }
  destruct (reaches_keeps _ _ Hreach Hok1) as (Hok1' & Hreg' & Hinit').
  destruct Hfirst as [Hp1%Hreg' (s & Hs & Hinit)%Hinit'].
  split.
  - intros <-. rewrite (call_again _ _ _ _ Hp1 Hs Hinit) in Hrun2.
    by injection Hrun2 as <- <-.
  - intros Hne ->. destruct Hok1' as [Hlt Hinj].
    destruct (call_cases _ _ _ _ Hrun2)
      as [(r & Hp & _ & _ & Hres)|(Hp & _ & _ & Hres)].
    + destruct (Hres r1 eq_refl) as [-> _]. apply Hne. by eapply Hinj.
    + destruct (Hres r1 eq_refl) as [Heq _].
      specialize (Hlt _ _ Hp1). lia.
Qed.

End SessionProperties.

(** * Concrete instances *)

Lemma sample_session_stored :
  heap sample_world !! 0%nat = Some (Instance sample_session).
Proof. reflexivity. Qed.

Lemma sample_session_ok : instance_ok sample_session.
Proof.
  split; [split; [reflexivity|repeat constructor]|].
  repeat split; apply NoDup_singleton.
Qed.

Lemma sample_grid_ok : grid_ok sample_grid.
Proof. split; [reflexivity|repeat constructor]. Qed.

Example sample_report_decodes : decode_state sample_report = OK sample_grid.
Proof. reflexivity. Qed.

Example sample_step_trace :
  fired (after (listen_step 0%nat sample_report) sample_world)
  = [FireChange "state" 1%nat 0%nat sample_grid;
     FireButtonDown "<function handler>" 3%nat 0%nat 0 0;
     FireBuzz "<function handler>" 2%nat 0%nat 0;
     FireButtonDown "<function handler>" 3%nat 0%nat 2 1].
Proof. reflexivity. Qed.

Example sample_release_trace :
  fired (after (listen_step 0%nat [0; 0; 0; 0; 0])
           (after (listen_step 0%nat sample_report) sample_world))
  = fired (after (listen_step 0%nat sample_report) sample_world)
    ++ [FireChange "state" 1%nat 0%nat (replicate 4 (replicate 5 false));
        FireButtonUp "up" 4%nat 0%nat 0 0;
        FireButtonUp "up" 4%nat 0%nat 2 1].
Proof. reflexivity. Qed.

Example sample_same_report_is_silent :
  fired (after (listen_step 0%nat sample_report)
           (after (listen_step 0%nat sample_report) sample_world))
  = fired (after (listen_step 0%nat sample_report) sample_world).
Proof. vm_compute. reflexivity. Qed.

Example set_light_negative_index :
  (set_light 0%nat (-1) true sample_world).2 = OK tt /\
  get_lights_state 0%nat (after (set_light 0%nat (-1) true) sample_world)
  = (after (set_light 0%nat (-1) true) sample_world,
     OK [false; false; false; true]).
Proof. split; vm_compute; reflexivity. Qed.

Example set_light_out_of_range :
  set_light 0%nat 4 true sample_world = (sample_world, Raise IndexError).
Proof. reflexivity. Qed.

Lemma decode_state_clusters_witness :
  (5 <= length sample_report)%nat /\ Forall is_byte sample_report /\
  exists (b2 b3 b4 : Z) (g : grid),
    sample_report !! 2%nat = Some b2 /\ sample_report !! 3%nat = Some b3 /\
    sample_report !! 4%nat = Some b4 /\
    decode_state sample_report = OK g /\
    length g = 4%nat /\
    (forall c : nat, (c < 4)%nat ->
       g !! c = Some
         (let bit k := Z.testbit (field24 b2 b3 b4) (5 * Z.of_nat c + k) in
          [bit 0; bit 4; bit 3; bit 2; bit 1])) /\
    (forall (data' : list Z) (b2' b3' b4' : Z),
       Forall is_byte data' ->
       data' !! 2%nat = Some b2' -> data' !! 3%nat = Some b3' ->
       data' !! 4%nat = Some b4' ->
       field24 b2' b3' b4' mod 2 ^ 20 = field24 b2 b3 b4 mod 2 ^ 20 ->
       decode_state data' = OK g).
Proof.
  assert (H1 : (5 <= length sample_report)%nat) by (cbn; lia).
  assert (H2 : Forall is_byte sample_report)
    by (repeat constructor; unfold is_byte; lia).
  exact (conj H1 (conj H2 (decode_state_clusters sample_report H1 H2))).
Defined.

Lemma state_update_counts_witness :
  heap sample_world !! 0%nat = Some (Instance sample_session) /\
  grid_ok (__state sample_session) /\
  grid_ok sample_grid /\
  exists (w' : @world nat) (tr : list (@firing nat)),
    __handle_event 0%nat sample_grid sample_world = (w', OK tt) /\
    fired w' = fired sample_world ++ tr /\
    get_buttons_state 0%nat w' = (w', OK sample_grid) /\
    (differ (__state sample_session) sample_grid ->
       List.filter is_change tr
       = map (fun '(l, h) => FireChange l h 0%nat sample_grid)
           (__on_change sample_session)) /\
    (~ differ (__state sample_session) sample_grid -> tr = []) /\
    List.filter is_button_down tr
      = flat_map
          (fun c => map (fun '(l, h) => FireButtonDown l h 0%nat c.1 c.2)
                      (__on_button_down sample_session))
          (List.filter
             (fun c => negb (lit (__state sample_session) c) && lit sample_grid c)
             twenty_cells) /\
    count is_button_down tr =
      (length (__on_button_down sample_session) *
       length (List.filter
                 (fun c => negb (lit (__state sample_session) c) && lit sample_grid c)
                 twenty_cells))%nat /\
    List.filter is_button_up tr
      = flat_map
          (fun c => map (fun '(l, h) => FireButtonUp l h 0%nat c.1 c.2)
                      (__on_button_up sample_session))
          (List.filter
             (fun c => lit (__state sample_session) c && negb (lit sample_grid c))
             twenty_cells) /\
    count is_button_up tr =
      (length (__on_button_up sample_session) *
       length (List.filter
                 (fun c => lit (__state sample_session) c && negb (lit sample_grid c))
                 twenty_cells))%nat.
Proof.
  exact (conj sample_session_stored (conj (proj1 sample_session_ok) (conj sample_grid_ok
    (state_update_counts sample_world 0%nat sample_session sample_grid
       sample_session_stored (proj1 sample_session_ok) sample_grid_ok)))).
Defined.

Lemma buzz_on_primary_press_witness :
  heap sample_world !! 0%nat = Some (Instance sample_session) /\
  grid_ok (__state sample_session) /\
  grid_ok sample_grid /\
  exists (w' : @world nat) (tr : list (@firing nat)),
    __handle_event 0%nat sample_grid sample_world = (w', OK tt) /\
    fired w' = fired sample_world ++ tr /\
    (forall buzzer button : nat,
       lit (__state sample_session) (buzzer, button) = false ->
       lit sample_grid (buzzer, button) = true ->
       List.filter (button_down_at (buzzer, button)) tr
         = map (fun '(l, h) => FireButtonDown l h 0%nat buzzer button)
             (__on_button_down sample_session) /\
       (button = 0%nat ->
        List.filter (buzz_at buzzer) tr
          = map (fun '(l, h) => FireBuzz l h 0%nat buzzer)
              (__on_buzz sample_session))) /\
    (forall buzzer : nat,
       List.filter (buzz_at buzzer) tr
       = if negb (lit (__state sample_session) (buzzer, 0%nat))
            && lit sample_grid (buzzer, 0%nat)
         then map (fun '(l, h) => FireBuzz l h 0%nat buzzer)
                (__on_buzz sample_session)
         else []) /\
    count is_buzz tr =
      (length (__on_buzz sample_session) *
       length (List.filter
                 (fun c => negb (lit (__state sample_session) c) && lit sample_grid c
                           && (c.2 =? 0)%nat)
                 twenty_cells))%nat.
Proof.
  exact (conj sample_session_stored (conj (proj1 sample_session_ok) (conj sample_grid_ok
    (buzz_on_primary_press sample_world 0%nat sample_session sample_grid
       sample_session_stored (proj1 sample_session_ok) sample_grid_ok)))).
Defined.

(** The callbacks of the sample may overwrite the grid and switch the
    lights: the registries of the session stay. *)
Lemma sample_effect_keeps_handlers : keeps_handlers 0%nat sample_effect.
Proof.
  intros f w s Hs. unfold sample_effect, after, set_lights_on.
  rewrite (setattr_instance _ _ _ _ Hs). cbn [fst].
  erewrite set_lights_spec by (cbn; by eapply heap_insert_lookup).
  cbn. split; [reflexivity|]. eexists. split.
  { rewrite list_insert_insert_eq. apply list_lookup_insert_eq.
    by eapply lookup_lt_Some. }
  done.
Qed.

(** With these callbacks the grid the session stores after the update is
    the one the callbacks wrote, and the press of the sample is dispatched
    all the same, and no release. *)
Example sample_effect_dispatch :
  let w' := after (handle_event_calling (call sample_effect) 0%nat sample_grid)
              sample_world in
  get_buttons_state 0%nat w' = (w', OK (replicate 4 (replicate 5 true))) /\
  fired w'
  = fired sample_world
    ++ [FireChange "state" 1%nat 0%nat sample_grid;
        FireButtonDown "<function handler>" 3%nat 0%nat 0 0;
        FireBuzz "<function handler>" 2%nat 0%nat 0;
        FireButtonDown "<function handler>" 3%nat 0%nat 2 1].
Proof. split; vm_compute; reflexivity. Qed.

Lemma dispatch_order_witness :
  heap sample_world !! 0%nat = Some (Instance sample_session) /\
  grid_ok (__state sample_session) /\
  grid_ok sample_grid /\
  keeps_handlers 0%nat sample_effect /\
  exists (w' : @world nat) (tr : list (@firing nat)),
    handle_event_calling (call sample_effect) 0%nat sample_grid sample_world
      = (w', OK tt) /\
    fired w' = fired sample_world ++ tr /\
    in_phase_order tr /\
    Forall (caused_by 0%nat (__state sample_session) sample_grid) tr /\
    (differ (__state sample_session) sample_grid ->
       tr = map (fun '(l, h) => FireChange l h 0%nat sample_grid)
              (__on_change sample_session)
            ++ flat_map (press_firings sample_session 0%nat)
                 (List.filter
                    (fun c => negb (lit (__state sample_session) c) && lit sample_grid c)
                    twenty_cells)
            ++ flat_map (release_firings sample_session 0%nat)
                 (List.filter
                    (fun c => lit (__state sample_session) c && negb (lit sample_grid c))
                    twenty_cells)) /\
    (~ differ (__state sample_session) sample_grid -> tr = []).
Proof.
  exact (conj sample_session_stored (conj (proj1 sample_session_ok) (conj sample_grid_ok
    (conj sample_effect_keeps_handlers
    (dispatch_order sample_effect sample_world 0%nat sample_session sample_grid
       sample_session_stored (proj1 sample_session_ok) sample_grid_ok
       sample_effect_keeps_handlers))))).
Defined.

Lemma set_lights_round_trip_witness :
  let w' := after (set_lights 0%nat [true; false; true; true]) sample_world in
  set_lights 0%nat [true; false; true; true] sample_world = (w', OK tt) /\
  get_lights_state 0%nat w' = (w', OK [true; false; true; true]) /\
  exists s : @BuzzerSet nat,
    heap sample_world !! 0%nat = Some (Instance s) /\
    hid_log w' = hid_log sample_world ++
      [HidWrite (__interface s) [0; 0; 255; 0; 255; 255; 0; 0]].
Proof.
  intros w'.
  assert (H1 : set_lights 0%nat [true; false; true; true] sample_world = (w', OK tt))
    by reflexivity.
  exact (conj H1 (set_lights_round_trip sample_world w' 0%nat true false true true H1)).
Defined.

(** C6, as stated, does not hold: on a transport that rejects the write,
    [set_lights] raises, and the Light State, all off before the call, is
    all on after it. *)
Lemma set_lights_failure_not_rolled_back :
  let w' := after (set_lights 0%nat [true; true; true; true]) sample_world_failing in
  set_lights 0%nat [true; true; true; true] sample_world_failing = (w', Raise OSError) /\
  get_lights_state 0%nat sample_world_failing
    = (sample_world_failing, OK [false; false; false; false]) /\
  get_lights_state 0%nat w' = (w', OK [true; true; true; true]).
Proof. repeat split. Qed.

Lemma set_lights_failed_write_witness :
  heap sample_world_failing !! 0%nat = Some (Instance sample_session) /\
  hid_script sample_world_failing = [true] /\
  exists w' : @world nat,
    set_lights 0%nat [true; true; true; true] sample_world_failing = (w', Raise OSError) /\
    get_lights_state 0%nat w' = (w', OK [true; true; true; true]) /\
    hid_log w' = hid_log sample_world_failing ++
      [HidWrite (__interface sample_session) (light_command [true; true; true; true])].
Proof.
  assert (H1 : heap sample_world_failing !! 0%nat = Some (Instance sample_session))
    by reflexivity.
  assert (H2 : hid_script sample_world_failing = [true]) by reflexivity.
  exact (conj H1 (conj H2
    (set_lights_failed_write sample_world_failing 0%nat sample_session
       [true; true; true; true] [] H1 H2))).
Defined.

Lemma construction_initial_state_witness :
  __existing_buzzer_sets (@initial_world nat []) !! sample_path = None /\
  accepts 2 (@initial_world nat []) /\
  exists (w' : @world nat) (self : ref),
    BuzzerSet_call sample_path (@initial_world nat []) = (w', OK self) /\
    __existing_buzzer_sets w' !! sample_path = Some self /\
    hid_log w' = hid_log (@initial_world nat []) ++
      [HidOpenPath hid_device_new sample_path;
       HidWrite {| opened := Some sample_path |} [0; 0; 0; 0; 0; 0; 0; 0]] /\
    get_buttons_state self w' =
      (w', OK [[false; false; false; false; false];
               [false; false; false; false; false];
               [false; false; false; false; false];
               [false; false; false; false; false]]) /\
    get_lights_state self w' = (w', OK [false; false; false; false]).
Proof.
  assert (H1 : __existing_buzzer_sets (@initial_world nat []) !! sample_path = None)
    by reflexivity.
  assert (H2 : accepts 2 (@initial_world nat [])) by constructor.
  exact (conj H1 (conj H2
    (construction_initial_state (@initial_world nat []) sample_path H1 H2))).
Defined.

Lemma sample_world_reached :
  reaches (after (BuzzerSet_call sample_path) (@initial_world nat [])) sample_world.
Proof.
  eapply (reaches_method (on_change sample_str 0%nat 1%nat (Some "state")));
    [apply stable_on_change|reflexivity|].
  eapply (reaches_method (on_buzz sample_str 0%nat 2%nat (Some "")));
    [apply stable_on_buzz|reflexivity|].
  eapply (reaches_method (on_button_down sample_str 0%nat 3%nat None));
    [apply stable_on_button_down|reflexivity|].
  eapply (reaches_method (on_button_up sample_str 0%nat 4%nat (Some "up")));
    [apply stable_on_button_up|reflexivity|].
  apply reaches_refl.
Qed.

Lemma singleton_per_path_witness :
  let w0 := @initial_world nat [] in
  let w1 := after (BuzzerSet_call sample_path) w0 in
  registry_ok w0 /\
  BuzzerSet_call sample_path w0 = (w1, OK 0%nat) /\
  reaches w1 sample_world /\
  BuzzerSet_call sample_path sample_world = (sample_world, OK 0%nat) /\
  (sample_path = sample_path -> OK 0%nat = OK 0%nat /\ sample_world = sample_world) /\
  (sample_path <> sample_path -> OK 0%nat <> OK 0%nat).
Proof.
  intros w0 w1.
  assert (H1 : registry_ok w0) by apply registry_ok_initial.
  assert (H2 : BuzzerSet_call sample_path w0 = (w1, OK 0%nat)) by reflexivity.
  assert (H3 : BuzzerSet_call sample_path sample_world = (sample_world, OK 0%nat))
    by reflexivity.
  exact (conj H1 (conj H2 (conj sample_world_reached (conj H3
    (singleton_per_path w0 w1 sample_world sample_world sample_path sample_path
       0%nat (OK 0%nat) H1 H2 sample_world_reached H3))))).
Defined.

Example distinct_paths_distinct_sessions :
  (BuzzerSet_call "/dev/hidraw1" sample_world).2 = OK 1%nat /\
  (BuzzerSet_call sample_path (after (BuzzerSet_call "/dev/hidraw1") sample_world)).2
  = OK 0%nat.
Proof. split; reflexivity. Qed.

Lemma set_light_frame_witness :
  heap sample_world !! 0%nat = Some (Instance sample_session) /\
  length (__lights sample_session) = 4%nat /\
  0 <= 2 < 4 /\
  exists (w' : @world nat) (r : result unit) (lights : list bool),
    set_light 0%nat 2 true sample_world = (w', r) /\
    get_lights_state 0%nat w' = (w', OK lights) /\
    lights !! Z.to_nat 2 = Some true /\
    (forall j : nat, j <> Z.to_nat 2 -> lights !! j = __lights sample_session !! j) /\
    length lights = 4%nat /\
    hid_log w' = hid_log sample_world ++
      [HidWrite (__interface sample_session) (light_command lights)] /\
    length (light_command lights) = 8%nat /\
    (accepts 1 sample_world -> r = OK tt) /\
    (r = OK tt \/ r = Raise OSError).
Proof.
  assert (H2 : length (__lights sample_session) = 4%nat) by reflexivity.
  assert (H3 : 0 <= 2 < 4) by lia.
  exact (conj sample_session_stored (conj H2 (conj H3
    (set_light_frame sample_world 0%nat sample_session 2 true
       sample_session_stored H2 H3)))).
Defined.

(** C10, as stated, does not hold of a callback whose [str] is the empty
    string: registered with the empty string as its label, it is stored
    under the empty string, which was no key of the registry before, and
    the empty string is what is returned. *)
Lemma empty_label_used_as_key :
  let w' := after (on_change blank_str 0%nat 7%nat (Some "")) sample_world in
  on_change blank_str 0%nat 7%nat (Some "") sample_world = (w', OK "") /\
  ("" ∉ dict_keys (__on_change sample_session)) /\
  exists s' : @BuzzerSet nat,
    heap w' !! 0%nat = Some (Instance s') /\
    "" ∈ dict_keys (__on_change s') /\
    dict_get (__on_change s') "" = Some 7%nat.
Proof.
  split; [reflexivity|]. split; [by apply (bool_decide_unpack _)|].
  eexists. split; [reflexivity|]. split; [|reflexivity].
  by apply (bool_decide_unpack _).
Qed.

Lemma empty_label_is_no_label_witness :
  heap sample_world !! 0%nat = Some (Instance sample_session) /\
  sample_str 7 <> "" /\
  empty_label_ignored (on_change sample_str) __on_change
    sample_world 0%nat sample_session 7%nat (sample_str 7) /\
  empty_label_ignored (on_buzz sample_str) __on_buzz
    sample_world 0%nat sample_session 7%nat (sample_str 7) /\
  empty_label_ignored (on_button_down sample_str) __on_button_down
    sample_world 0%nat sample_session 7%nat (sample_str 7) /\
  empty_label_ignored (on_button_up sample_str) __on_button_up
    sample_world 0%nat sample_session 7%nat (sample_str 7).
Proof.
  assert (H2 : sample_str 7 <> "") by discriminate.
  exact (conj sample_session_stored (conj H2
    (empty_label_is_no_label sample_str sample_world 0%nat sample_session 7%nat
       sample_session_stored H2))).
Defined.

(** * Further properties *)

(** ** The decoder on arbitrary input *)

(** On a report of five or more integers, the bits the decoder indexes. *)
Lemma report_bits_long (d0 d1 b2 b3 b4 : Z) (rest : list Z) :
  report_bits (d0 :: d1 :: b2 :: b3 :: b4 :: rest)
  = map (Z.testbit b2) [0; 1; 2; 3; 4; 5; 6; 7]
    ++ map (Z.testbit b3) [0; 1; 2; 3; 4; 5; 6; 7]
    ++ map (Z.testbit b4) [0; 1; 2; 3; 4; 5; 6; 7].
Proof.
  unfold report_bits, slice.
  change (take (5 - 2) (drop 2 (d0 :: d1 :: b2 :: b3 :: b4 :: rest)))
    with [b2; b3; b4].
  cbn [flat_map]. rewrite !byte_bits. by rewrite app_nil_r.
Qed.

Lemma decode_state_long (d0 d1 b2 b3 b4 : Z) (rest : list Z) :
  decode_state (d0 :: d1 :: b2 :: b3 :: b4 :: rest)
  = OK [[Z.testbit b2 0; Z.testbit b2 4; Z.testbit b2 3; Z.testbit b2 2; Z.testbit b2 1];
        [Z.testbit b2 5; Z.testbit b3 1; Z.testbit b3 0; Z.testbit b2 7; Z.testbit b2 6];
        [Z.testbit b3 2; Z.testbit b3 6; Z.testbit b3 5; Z.testbit b3 4; Z.testbit b3 3];
        [Z.testbit b3 7; Z.testbit b4 3; Z.testbit b4 2; Z.testbit b4 1; Z.testbit b4 0]].
Proof. unfold decode_state. rewrite report_bits_long. reflexivity. Qed.

Lemma decode_state_short (data : list Z) :
  (length data < 5)%nat -> decode_state data = Raise IndexError.
Proof.
  destruct data as [|d0 [|d1 [|b2 [|b3 [|b4 rest]]]]]; cbn; intros Hlen;
    try reflexivity; lia.
Qed.

(** X1.  The decoder raises [IndexError] exactly on the reports shorter than
    five elements; on every other list of integers it returns a grid of four
    rows of five cells. *)
Theorem decode_state_short_or_grid (data : list Z) :
  match decode_state data with
  | OK g => (5 <= length data)%nat /\ grid_ok g
  | Raise e => e = IndexError /\ (length data < 5)%nat
  end.
Proof.
  destruct data as [|d0 [|d1 [|b2 [|b3 [|b4 rest]]]]].
  1-5: cbn; split; [reflexivity|lia].
  rewrite decode_state_long. split; [cbn; lia|].
  split; [reflexivity|]. repeat constructor.
Qed.

(** X2.  The decoder reads the elements at offsets 2, 3 and 4 only, and of
    these the low eight bits only: the first two elements, whatever follows
    the fifth, and the higher bits (of a negative integer too) change
    nothing. *)
Theorem decode_state_reads_three_bytes (d0 d1 b2 b3 b4 : Z) (rest : list Z) :
  decode_state (d0 :: d1 :: b2 :: b3 :: b4 :: rest)
  = decode_state [0; 0; b2 mod 256; b3 mod 256; b4 mod 256].
Proof.
  rewrite !decode_state_long.
  change 256 with (2 ^ 8).
  by rewrite !Z.mod_pow2_bits_low by lia.
Qed.

Lemma spec_grid_bits (f : Z) :
  spec_grid f
  = [[Z.testbit f 0; Z.testbit f 4; Z.testbit f 3; Z.testbit f 2; Z.testbit f 1];
     [Z.testbit f 5; Z.testbit f 9; Z.testbit f 8; Z.testbit f 7; Z.testbit f 6];
     [Z.testbit f 10; Z.testbit f 14; Z.testbit f 13; Z.testbit f 12; Z.testbit f 11];
     [Z.testbit f 15; Z.testbit f 19; Z.testbit f 18; Z.testbit f 17; Z.testbit f 16]].
Proof. reflexivity. Qed.

Lemma spec_grid_inj_low20 (f f' : Z) :
  spec_grid f = spec_grid f' -> f mod 2 ^ 20 = f' mod 2 ^ 20.
Proof.
  rewrite !spec_grid_bits. intros Heq.
  injection Heq as H0 H4 H3 H2 H1 H5 H9 H8 H7 H6 H10 H14 H13 H12 H11
    H15 H19 H18 H17 H16.
  apply Z.bits_inj'. intros n Hn.
  destruct (Z.lt_ge_cases n 20) as [Hlt|Hge].
  - rewrite !Z.mod_pow2_bits_low by lia.
    rewrite <- (Z2Nat.id n) by lia.
    assert (Hk : (Z.to_nat n < 20)%nat) by lia.
    revert Hk. generalize (Z.to_nat n). intros k Hk.
    do 20 (destruct k as [|k]; [assumption|]). lia.
  - rewrite !Z.mod_pow2_bits_high by lia. reflexivity.
Qed.

(** X3.  Two reports of bytes decode to the same grid exactly when their
    fields agree on bits 0..19: the decoder loses no button and reads no
    other bit. *)
Theorem decode_state_same_grid (data data' : list Z) :
  (5 <= length data)%nat -> Forall is_byte data ->
  (5 <= length data')%nat -> Forall is_byte data' ->
  decode_state data = decode_state data'
  <-> report_field data mod 2 ^ 20 = report_field data' mod 2 ^ 20.
Proof.
  intros Hlen Hbytes Hlen' Hbytes'.
  rewrite !decode_state_field by done. split.
  - intros Heq. apply spec_grid_inj_low20. congruence.
  - intros Hmod. f_equal. by apply spec_grid_low20.
Qed.

(** ** Sessions *)

Section FurtherProperties.

Context {handler : Type}.

#[local] Abbreviation BuzzerSet := (@BuzzerSet handler).
#[local] Abbreviation world := (@world handler).
#[local] Abbreviation firing := (@firing handler).
#[local] Abbreviation M := (@M handler).

Implicit Types (w : world) (s : BuzzerSet) (self : ref).

Notation "x <- m ;; k" := (bind m (fun x => k))
  (at level 20, m at level 99, k at level 200, only parsing).
Notation "m ;; k" := (bind m (fun _ => k))
  (at level 100, k at level 200, right associativity, only parsing).

(** *** Lights at the edges *)

Lemma setitem_out_of_range {A} (l : list A) (i : Z) (x : A) :
  i < - Z.of_nat (length l) \/ Z.of_nat (length l) <= i ->
  setitem l i x = Raise IndexError.
Proof.
  intros Hi. unfold setitem.
  destruct (Z.leb_spec 0 i), (Z.ltb_spec i (Z.of_nat (length l))),
    (Z.leb_spec (- Z.of_nat (length l)) i), (Z.ltb_spec i 0);
    cbn; try reflexivity; lia.
Qed.

Lemma setitem_negative {A} (l : list A) (i : Z) (x : A) :
  - Z.of_nat (length l) <= i < 0 ->
  setitem l i x = setitem l (Z.of_nat (length l) + i) x.
Proof.
  intros Hi. rewrite (setitem_in_range l (Z.of_nat (length l) + i)) by lia.
  unfold setitem.
  destruct (Z.leb_spec 0 i); [lia|]. cbn.
  destruct (Z.leb_spec (- Z.of_nat (length l)) i); [|lia].
  destruct (Z.ltb_spec i 0); [|lia]. reflexivity.
Qed.

(** X4.  [set_light] with an index outside [-n, n), [n] being the number of
    stored lights, raises [IndexError]: nothing is stored and nothing is
    written. *)
Theorem set_light_index_error w self s (i : Z) (v : bool) :
  heap w !! self = Some (Instance s) ->
  i < - Z.of_nat (length (__lights s)) \/ Z.of_nat (length (__lights s)) <= i ->
  set_light self i v w = (w, Raise IndexError).
Proof.
  intros Hs Hi. unfold set_light.
  erewrite bind_OK by (by apply getattr_instance).
  unfold bind, lift. by rewrite setitem_out_of_range.
Qed.

(** X5.  [set_light] counts a negative index from the end: with [n] stored
    lights and [-n <= i < 0], [set_light(i, v)] is [set_light(n + i, v)]. *)
Theorem set_light_counts_from_end w self s (i : Z) (v : bool) :
  heap w !! self = Some (Instance s) ->
  - Z.of_nat (length (__lights s)) <= i < 0 ->
  set_light self i v w
  = set_light self (Z.of_nat (length (__lights s)) + i) v w.
Proof.
  intros Hs Hi. unfold set_light.
  erewrite bind_OK by (by apply getattr_instance).
  symmetry. erewrite bind_OK by (by apply getattr_instance).
  by rewrite (setitem_negative _ i) by done.
Qed.

(** X6.  [set_lights] does not check how many lights it is given: a list of
    any length is stored, and written as a command of that many bytes
    between the two leading and the two trailing zeros.  After a list
    shorter than an index, [set_light] at that index raises. *)
Theorem set_lights_any_length w self s (lights : list bool) :
  heap w !! self = Some (Instance s) ->
  accepts 1 w ->
  exists w' command,
    set_lights self lights w = (w', OK tt) /\
    get_lights_state self w' = (w', OK lights) /\
    hid_log w' = hid_log w ++ [HidWrite (__interface s) command] /\
    length command = (length lights + 4)%nat /\
    (forall (i : Z) (v : bool), Z.of_nat (length lights) <= i ->
       set_light self i v w' = (w', Raise IndexError)).
Proof.
  intros Hs Hacc. rewrite (set_lights_spec _ _ _ _ Hs).
  assert (Hok : match hid_script w with true :: _ => Raise OSError | _ => OK tt end
                = @OK unit tt).
  { unfold accepts in Hacc. destruct (hid_script w) as [|[] ?]; try done.
    apply Forall_cons in Hacc as [? _]. done. }
  rewrite Hok. eexists _, (light_command lights).
  split; [reflexivity|].
  assert (Hs' : forall w0 : world,
            heap w0 = <[self := Instance (with_lights lights s)]> (heap w) ->
            heap w0 !! self = Some (Instance (with_lights lights s))).
  { intros w0 ->. by eapply heap_insert_lookup. }
  split.
  { unfold get_lights_state. by erewrite getattr_instance by (by apply Hs'). }
  split; [reflexivity|]. split.
  { unfold light_command. rewrite !length_app, length_map. cbn. lia. }
  intros i v Hi. unfold set_light.
  erewrite bind_OK by (apply getattr_instance; by apply Hs').
  unfold bind, lift. rewrite setitem_out_of_range; [done|]. cbn. lia.
Qed.

Lemma after_set_light w self s (i : Z) (v : bool) :
  heap w !! self = Some (Instance s) ->
  0 <= i < Z.of_nat (length (__lights s)) ->
  heap (after (set_light self i v) w)
    = <[self := Instance (with_lights (<[Z.to_nat i := v]> (__lights s)) s)]> (heap w)
  /\ last (hid_log (after (set_light self i v) w))
    = Some (HidWrite (__interface s)
              (light_command (<[Z.to_nat i := v]> (__lights s)))).
Proof.
  intros Hs Hi. unfold after. rewrite (set_light_spec _ _ _ _ _ Hs Hi). cbn.
  split; [reflexivity|]. by rewrite last_snoc.
Qed.

(** X7.  [set_light] on two different buzzers, in either order and whatever
    the transport answers, leaves the same Light State, changed at the two
    indices only, and ends with the same command written. *)
Theorem set_light_commutes w self s (i j : Z) (v u : bool) :
  heap w !! self = Some (Instance s) ->
  0 <= i < Z.of_nat (length (__lights s)) ->
  0 <= j < Z.of_nat (length (__lights s)) ->
  i <> j ->
  let w1 := after (set_light self j u) (after (set_light self i v) w) in
  let w2 := after (set_light self i v) (after (set_light self j u) w) in
  let lights := <[Z.to_nat j := u]> (<[Z.to_nat i := v]> (__lights s)) in
  get_lights_state self w1 = (w1, OK lights) /\
  get_lights_state self w2 = (w2, OK lights) /\
  last (hid_log w1) = Some (HidWrite (__interface s) (light_command lights)) /\
  last (hid_log w2) = Some (HidWrite (__interface s) (light_command lights)).
Proof.
  intros Hs Hi Hj Hne w1 w2 lights.
  destruct (after_set_light w self s i v Hs Hi) as [Hheap_i _].
  destruct (after_set_light w self s j u Hs Hj) as [Hheap_j _].
  assert (Hsi : heap (after (set_light self i v) w) !! self
                = Some (Instance (with_lights (<[Z.to_nat i := v]> (__lights s)) s)))
    by (rewrite Hheap_i; by eapply heap_insert_lookup).
  assert (Hsj : heap (after (set_light self j u) w) !! self
                = Some (Instance (with_lights (<[Z.to_nat j := u]> (__lights s)) s)))
    by (rewrite Hheap_j; by eapply heap_insert_lookup).
  destruct (after_set_light _ self _ j u Hsi) as [Hheap1 Hlast1];
    [cbn; by rewrite length_insert|].
  destruct (after_set_light _ self _ i v Hsj) as [Hheap2 Hlast2];
    [cbn; by rewrite length_insert|].
  cbn in Hheap1, Hlast1, Hheap2, Hlast2.
  assert (Hcomm : <[Z.to_nat i := v]> (<[Z.to_nat j := u]> (__lights s)) = lights).
  { unfold lights. apply list_insert_insert_ne. lia. }
  rewrite Hcomm in Hheap2, Hlast2.
  assert (Hlt : (self < length (heap w))%nat) by (by eapply lookup_lt_Some).
  unfold get_lights_state, getattr. fold w1 in Hheap1, Hlast1. fold w2 in Hheap2, Hlast2.
  rewrite Hheap1, Hheap2, Hheap_i, Hheap_j.
  rewrite !list_lookup_insert_eq by (by rewrite ?length_insert).
  done.
Qed.

(** X8.  [set_lights_on] and [set_lights_off] store four lights, all on or
    all off, whatever was stored before (a list of another length too), and
    issue the one command for them. *)
Theorem set_lights_on_off w self s :
  heap w !! self = Some (Instance s) ->
  (let w' := after (set_lights_on self) w in
   get_lights_state self w' = (w', OK [true; true; true; true]) /\
   hid_log w' = hid_log w
     ++ [HidWrite (__interface s) [0; 0; 255; 255; 255; 255; 0; 0]]) /\
  (let w' := after (set_lights_off self) w in
   get_lights_state self w' = (w', OK [false; false; false; false]) /\
   hid_log w' = hid_log w
     ++ [HidWrite (__interface s) [0; 0; 0; 0; 0; 0; 0; 0]]).
Proof.
  intros Hs. unfold after, set_lights_on, set_lights_off.
  rewrite !(set_lights_spec _ _ _ _ Hs). cbn.
  unfold get_lights_state, getattr. cbn.
  rewrite !(heap_insert_lookup _ _ _ _ Hs). done.
Qed.

(** *** Handlers *)

Lemma dict_pop_missing {V} (d : dict V) (k : string) :
  k ∉ dict_keys d -> dict_pop d k = d.
Proof.
  unfold dict_pop, dict_keys. induction d as [|[k' v] d IH]; intros Hk; [done|].
  cbn in Hk. apply not_elem_of_cons in Hk as [Hne Hk].
  rewrite filter_cons_True by (cbn; congruence). by rewrite IH.
Qed.

Lemma dict_pop_set {V} (d : dict V) (k : string) (v : V) :
  k ∉ dict_keys d -> dict_pop (dict_set d k v) k = d.
Proof.
  unfold dict_pop, dict_keys.
  induction d as [|[k' v'] d IH]; intros Hk; cbn [dict_set].
  - by rewrite filter_cons_False by (cbn; auto).
  - cbn in Hk. apply not_elem_of_cons in Hk as [Hne Hk].
    rewrite decide_False by congruence.
    rewrite filter_cons_True by (cbn; congruence). by rewrite IH.
Qed.

Lemma dict_set_set {V} (d : dict V) (k : string) (v1 v2 : V) :
  dict_set (dict_set d k v1) k v2 = dict_set d k v2.
Proof.
  induction d as [|[k' v'] d IH]; cbn.
  - by rewrite decide_True.
  - destruct (decide (k' = k)) as [->|Hne]; cbn.
    + by rewrite decide_True.
    + rewrite decide_False by done. by rewrite IH.
Qed.

Lemma remove_handler_spec w self s (l : string) :
  heap w !! self = Some (Instance s) ->
  remove_handler self l w
  = (with_heap (<[self := Instance (removed l s)]> (heap w)) w, OK tt).
Proof.
  intros Hs. unfold remove_handler.
  assert (Hlt : (self < length (heap w))%nat) by (by eapply lookup_lt_Some).
  erewrite bind_OK by (by apply setattr_instance).
  erewrite bind_OK
    by (apply setattr_instance; cbn; by apply list_lookup_insert_eq).
  erewrite bind_OK
    by (apply setattr_instance; cbn; apply list_lookup_insert_eq;
        by rewrite !length_insert).
  erewrite setattr_instance
    by (cbn; apply list_lookup_insert_eq; by rewrite !length_insert).
  cbn. by rewrite !list_insert_insert_eq.
Qed.

Lemma clear_handlers_spec w self s :
  heap w !! self = Some (Instance s) ->
  clear_handlers self w
  = (with_heap (<[self := Instance (cleared s)]> (heap w)) w, OK tt).
Proof.
  intros Hs. unfold clear_handlers.
  assert (Hlt : (self < length (heap w))%nat) by (by eapply lookup_lt_Some).
  erewrite bind_OK by (by apply setattr_instance).
  erewrite bind_OK
    by (apply setattr_instance; cbn; by apply list_lookup_insert_eq).
  erewrite bind_OK
    by (apply setattr_instance; cbn; apply list_lookup_insert_eq;
        by rewrite !length_insert).
  erewrite setattr_instance
    by (cbn; apply list_lookup_insert_eq; by rewrite !length_insert).
  cbn. by rewrite !list_insert_insert_eq.
Qed.

Lemma with_heap_same w self s :
  heap w !! self = Some (Instance s) ->
  with_heap (<[self := Instance s]> (heap w)) w = w.
Proof.
  intros Hs. rewrite list_insert_id by done. by destruct w.
Qed.

(** X9.  [remove_handler] with a label that no registry of the session has
    returns normally and changes nothing. *)
Theorem remove_handler_unknown_label w self s (l : string) :
  heap w !! self = Some (Instance s) ->
  unregistered l s ->
  remove_handler self l w = (w, OK tt).
Proof.
  intros Hs (Hc & Hb & Hd & Hu). rewrite (remove_handler_spec _ _ _ _ Hs).
  assert (Hsame : removed l s = s).
  { unfold removed. rewrite !dict_pop_missing by done. by destruct s. }
  by rewrite Hsame, with_heap_same.
Qed.

(** The invocations for a registry without [l] are the invocations for the
    registry, without those made for [l]. *)
Lemma without_label_map (mk : string -> handler -> firing) (d : dict handler)
    (l : string) :
  (forall l' e, label_of (mk l' e) = l') ->
  without_label l (map (fun '(l', e) => mk l' e) d)
  = map (fun '(l', e) => mk l' e) (dict_pop d l).
Proof.
  intros Hmk. unfold without_label, dict_pop.
  induction d as [|[k v] d IH]; [done|]. cbn [map List.filter].
  rewrite Hmk. destruct (decide (k = l)) as [->|Hne].
  - rewrite bool_decide_eq_true_2 by done. cbn [negb].
    by rewrite filter_cons_False by (cbn; auto).
  - rewrite bool_decide_eq_false_2 by done. cbn [negb].
    rewrite filter_cons_True by done. cbn [map]. by rewrite IH.
Qed.

Lemma without_label_app (l : string) (tr1 tr2 : list firing) :
  without_label l (tr1 ++ tr2) = without_label l tr1 ++ without_label l tr2.
Proof. apply List.filter_app. Qed.

Lemma without_label_flat_map {A} (l : string) (f g : A -> list firing)
    (cs : list A) :
  (forall c, without_label l (f c) = g c) ->
  without_label l (flat_map f cs) = flat_map g cs.
Proof.
  intros Hfg. induction cs as [|c cs IH]; [done|]. cbn [flat_map].
  by rewrite without_label_app, Hfg, IH.
Qed.

Lemma dispatched_removed s self (l : string) (g : grid) :
  dispatched (removed l s) self g = without_label l (dispatched s self g).
Proof.
  unfold dispatched. cbn [removed __state].
  assert (Hall :
    change_firings (removed l s) self g
      ++ flat_map (press_firings (removed l s) self) (downs (__state s) g)
      ++ flat_map (release_firings (removed l s) self) (ups (__state s) g)
    = without_label l
        (change_firings s self g
           ++ flat_map (press_firings s self) (downs (__state s) g)
           ++ flat_map (release_firings s self) (ups (__state s) g))).
  { rewrite !without_label_app. f_equal; [|f_equal].
    - unfold change_firings. cbn [removed __on_change].
      symmetry. by apply (without_label_map (fun l' e => FireChange l' e self g)).
    - symmetry. apply without_label_flat_map. intros c.
      unfold press_firings. cbn [removed __on_button_down __on_buzz].
      rewrite without_label_app.
      rewrite (without_label_map (fun l' e => FireButtonDown l' e self c.1 c.2))
        by done.
      destruct (c.2 =? 0)%nat; [|done].
      by rewrite (without_label_map (fun l' e => FireBuzz l' e self c.1)).
    - symmetry. apply without_label_flat_map. intros c.
      unfold release_firings. cbn [removed __on_button_up].
      by apply (without_label_map (fun l' e => FireButtonUp l' e self c.1 c.2)). }
  destruct (ups (__state s) g), (downs (__state s) g); try exact Hall. done.
Qed.

(** X10.  After [remove_handler(l)] the session has the label [l] in no
    registry, and a state update makes the invocations it would have made
    before, in their order, except those of callbacks registered as [l]. *)
Theorem remove_handler_silences w self s (l : string) (data : list Z) (g : grid) :
  heap w !! self = Some (Instance s) ->
  grid_ok (__state s) ->
  decode_state data = OK g ->
  exists w1 w2 s1,
    remove_handler self l w = (w1, OK tt) /\
    heap w1 !! self = Some (Instance s1) /\
    unregistered l s1 /\
    __listen_loop self [OK data] w1 = (w2, OK Waiting) /\
    fired w2 = fired w ++ without_label l (dispatched s self g).
Proof.
  intros Hs Hok Hdecode. rewrite (remove_handler_spec _ _ _ _ Hs).
  set (w1 := with_heap _ w).
  assert (Hs1 : heap w1 !! self = Some (Instance (removed l s)))
    by (by eapply heap_insert_lookup).
  eexists w1, _, (removed l s). split; [done|]. split; [done|].
  split; [repeat split; apply dict_pop_absent|].
  cbn [__listen_loop].
  erewrite bind_OK by (by apply getattr_instance).
  unfold read. erewrite bind_OK by reflexivity.
  erewrite bind_OK by (unfold lift; by rewrite Hdecode).
  rewrite (handle_event_spec _ _ _ _ Hs1 Hok)
    by (by eapply decode_state_grid_ok).
  split; [reflexivity|]. cbn. by rewrite dispatched_removed.
Qed.

Lemma flat_map_nil {A B} (f : A -> list B) (l : list A) :
  (forall x, f x = []) -> flat_map f l = [].
Proof. intros Hf. induction l as [|x l IH]; cbn; [done|]. by rewrite Hf, IH. Qed.

Lemma dispatched_cleared s self (g : grid) : dispatched (cleared s) self g = [].
Proof.
  unfold dispatched, change_firings. cbn [cleared __state __on_change map].
  rewrite !flat_map_nil.
  - by destruct (ups (__state s) g), (downs (__state s) g).
  - done.
  - intros c. unfold press_firings. cbn. by destruct (c.2 =? 0)%nat.
Qed.

(** X11.  After [clear_handlers()] a state update stores the new grid and
    calls nothing. *)
Theorem clear_handlers_silences w self s (data : list Z) (g : grid) :
  heap w !! self = Some (Instance s) ->
  grid_ok (__state s) ->
  decode_state data = OK g ->
  exists w1 w2,
    clear_handlers self w = (w1, OK tt) /\
    __listen_loop self [OK data] w1 = (w2, OK Waiting) /\
    fired w2 = fired w /\
    get_buttons_state self w2 = (w2, OK g).
Proof.
  intros Hs Hok Hdecode. rewrite (clear_handlers_spec _ _ _ Hs).
  set (w1 := with_heap _ w).
  assert (Hs1 : heap w1 !! self = Some (Instance (cleared s)))
    by (by eapply heap_insert_lookup).
  eexists w1, _. split; [done|].
  cbn [__listen_loop].
  erewrite bind_OK by (by apply getattr_instance).
  unfold read. erewrite bind_OK by reflexivity.
  erewrite bind_OK by (unfold lift; by rewrite Hdecode).
  rewrite (handle_event_spec _ _ _ _ Hs1 Hok)
    by (by eapply decode_state_grid_ok).
  split; [reflexivity|]. cbn [fst]. rewrite dispatched_cleared.
  split; [cbn; by rewrite app_nil_r|].
  unfold get_buttons_state.
  erewrite getattr_instance
    by (cbn; apply list_lookup_insert_eq; rewrite length_insert;
        by eapply lookup_lt_Some).
  reflexivity.
Qed.

Lemma register_twice_with (str_of : handler -> string) w self
    (set : dict handler -> BuzzerSet -> BuzzerSet)
    (get : BuzzerSet -> dict handler) (l : string) (h1 h2 : handler) :
  (forall d s, get (set d s) = d) ->
  (forall d d' s, set d' (set d s) = set d' s) ->
  bind (bind (setattr self (fun s => set (dict_set (get s) l h1) s))
          (fun _ => ret l))
       (fun _ => bind (setattr self (fun s => set (dict_set (get s) l h2) s))
                   (fun _ => ret l)) w
  = bind (setattr self (fun s => set (dict_set (get s) l h2) s))
      (fun _ => ret l) w.
Proof.
  intros Hget Hset. unfold bind, ret, setattr.
  destruct (heap w !! self) as [[|s]|] eqn:Hs; try done.
  cbn. rewrite list_lookup_insert_eq by (by eapply lookup_lt_Some).
  by rewrite list_insert_insert_eq, Hget, Hset, dict_set_set.
Qed.

(** X12.  Registering a second callback under the label of the first
    replaces it: the two registrations leave what the second one alone
    leaves.  Without a label, this is the case of two callbacks that print
    alike. *)
Theorem register_twice_keeps_last (str_of : handler -> string) w self
    (h1 h2 : handler) (label : option string) :
  label_or label (str_of h1) = label_or label (str_of h2) ->
  (on_change str_of self h1 label ;; on_change str_of self h2 label) w
    = on_change str_of self h2 label w /\
  (on_buzz str_of self h1 label ;; on_buzz str_of self h2 label) w
    = on_buzz str_of self h2 label w /\
  (on_button_down str_of self h1 label ;; on_button_down str_of self h2 label) w
    = on_button_down str_of self h2 label w /\
  (on_button_up str_of self h1 label ;; on_button_up str_of self h2 label) w
    = on_button_up str_of self h2 label w.
Proof.
  intros Hl. unfold on_change, on_buzz, on_button_down, on_button_up.
  rewrite Hl.
  repeat split.
  - by apply (register_twice_with str_of w self with_on_change __on_change).
  - by apply (register_twice_with str_of w self with_on_buzz __on_buzz).
  - by apply (register_twice_with str_of w self with_on_button_down __on_button_down).
  - by apply (register_twice_with str_of w self with_on_button_up __on_button_up).
Qed.

Lemma register_remove_with w self s
    (set : dict handler -> BuzzerSet -> BuzzerSet)
    (get : BuzzerSet -> dict handler) (l : string) (h : handler) :
  heap w !! self = Some (Instance s) ->
  unregistered l s ->
  removed l (set (dict_set (get s) l h) s) = s ->
  bind (bind (setattr self (fun s => set (dict_set (get s) l h) s))
          (fun _ => ret l))
       (fun l => remove_handler self l) w
  = (w, OK tt).
Proof.
  intros Hs Hfresh Hback.
  erewrite bind_OK
    by (erewrite bind_OK by (by apply setattr_instance); reflexivity).
  erewrite remove_handler_spec by (cbn; by eapply heap_insert_lookup).
  cbn. rewrite Hback.
  rewrite list_insert_insert_eq, list_insert_id by done. by destruct w.
Qed.

(** X13.  Registering a callback under a label that is new to the session
    and then removing the label that the registration returned restores the
    session: the two calls together change nothing. *)
Theorem register_then_remove (str_of : handler -> string) w self s
    (h : handler) (label : option string) :
  heap w !! self = Some (Instance s) ->
  unregistered (label_or label (str_of h)) s ->
  (l <- on_change str_of self h label ;; remove_handler self l) w = (w, OK tt) /\
  (l <- on_buzz str_of self h label ;; remove_handler self l) w = (w, OK tt) /\
  (l <- on_button_down str_of self h label ;; remove_handler self l) w = (w, OK tt) /\
  (l <- on_button_up str_of self h label ;; remove_handler self l) w = (w, OK tt).
Proof.
  intros Hs Hfresh. pose proof Hfresh as (Hc & Hb & Hd & Hu).
  unfold on_change, on_buzz, on_button_down, on_button_up.
  repeat split.
  - apply (register_remove_with w self s with_on_change __on_change); [done..|].
    unfold removed. cbn -[dict_pop dict_set].
    rewrite dict_pop_set, !dict_pop_missing by done.
    by destruct s.
  - apply (register_remove_with w self s with_on_buzz __on_buzz); [done..|].
    unfold removed. cbn -[dict_pop dict_set].
    rewrite dict_pop_set, !dict_pop_missing by done.
    by destruct s.
  - apply (register_remove_with w self s with_on_button_down __on_button_down);
      [done..|].
    unfold removed. cbn -[dict_pop dict_set].
    rewrite dict_pop_set, !dict_pop_missing by done.
    by destruct s.
  - apply (register_remove_with w self s with_on_button_up __on_button_up);
      [done..|].
    unfold removed. cbn -[dict_pop dict_set].
    rewrite dict_pop_set, !dict_pop_missing by done.
    by destruct s.
Qed.

(** *** What every method keeps *)

Lemma keeps_ret {A} (a : A) : keeps_sessions (@ret handler A a).
Proof. intros w w' r [= <- <-]. split; [|split]; eauto 10. Qed.

Lemma keeps_lift {A} (x : result A) : keeps_sessions (@lift handler A x).
Proof. intros w w' r [= <- <-]. split; [|split]; eauto 10. Qed.

Lemma keeps_getattr {A} self (attr : BuzzerSet -> A) :
  keeps_sessions (getattr self attr).
Proof.
  intros w w' r. unfold getattr.
  destruct (heap w !! self) as [[|s]|]; intros [= <- <-];
    (split; [|split]; eauto 10).
Qed.

Lemma keeps_setattr self (upd : BuzzerSet -> BuzzerSet) :
  (forall s, path (upd s) = path s) ->
  (forall s, __initialised (upd s) = __initialised s) ->
  keeps_sessions (setattr self upd).
Proof.
  intros Hpath Hinit w w' r. unfold setattr.
  destruct (heap w !! self) as [[|s]|] eqn:Hs; intros [= <- <-];
    try solve [split; [|split]; eauto 10].
  cbn. split; [done|]. split; [by rewrite length_insert|].
  assert (Hlt : (self < length (heap w))%nat) by (by eapply lookup_lt_Some).
  intros a s' Ha. destruct (decide (a = self)) as [->|Hne].
  - rewrite list_lookup_insert_eq by done. exists (upd s).
    pose proof (eq_trans (eq_sym Hs) Ha) as [= ->]. eauto.
  - rewrite list_lookup_insert_ne by done. eauto.
Qed.

Lemma keeps_hid_issue (c : hid_call) : keeps_sessions (@hid_issue handler c).
Proof.
  intros w w' r. unfold hid_issue.
  destruct (hid_script w) as [|[] ?]; intros [= <- <-]; cbn;
    (split; [|split]; eauto 10).
Qed.

Lemma keeps_close (dev : hid_device) : keeps_sessions (@close handler dev).
Proof. intros w w' r [= <- <-]. cbn. split; [|split]; eauto 10. Qed.

Lemma keeps_fire (f : firing) : keeps_sessions (fire f).
Proof. intros w w' r [= <- <-]. cbn. split; [|split]; eauto 10. Qed.

Lemma keeps_bind {A B} (m : M A) (k : A -> M B) :
  keeps_sessions m -> (forall a, keeps_sessions (k a)) -> keeps_sessions (bind m k).
Proof.
  intros Hm Hk w w' r. unfold bind.
  destruct (m w) as [w1 [a|e]] eqn:Hrun.
  - intros Hrun'. destruct (Hm _ _ _ Hrun) as (Hreg & Hlen & Hinst).
    destruct (Hk _ _ _ _ Hrun') as (Hreg' & Hlen' & Hinst').
    split; [congruence|]. split; [congruence|].
    intros b s Hb. destruct (Hinst _ _ Hb) as (s1 & Hb1 & Hp1 & Hi1).
    destruct (Hinst' _ _ Hb1) as (s2 & Hb2 & Hp2 & Hi2).
    exists s2. split; [done|]. split; congruence.
  - intros [= <- <-]. by eapply Hm.
Qed.

Lemma keeps_for {A} (l : list A) (body : A -> M unit) :
  (forall x, keeps_sessions (body x)) -> keeps_sessions (for_ l body).
Proof.
  intros Hbody. induction l as [|x l IH]; cbn [for_].
  - apply keeps_ret.
  - apply keeps_bind; auto.
Qed.

Ltac keeps_step :=
  first
    [ apply keeps_bind; [|intros ?]
    | apply keeps_for; intros [??]
    | apply keeps_setattr; reflexivity
    | match goal with
      | |- keeps_sessions (if ?b then _ else _) => destruct b
      end
    | apply keeps_ret | apply keeps_lift | apply keeps_getattr
    | apply keeps_hid_issue | apply keeps_fire | apply keeps_close ].

Lemma keeps_set_lights self (lights : list bool) :
  keeps_sessions (handler := handler) (set_lights self lights).
Proof. unfold set_lights, write. repeat keeps_step. Qed.

Lemma keeps_set_light self (buzzer : Z) (light : bool) :
  keeps_sessions (handler := handler) (set_light self buzzer light).
Proof. unfold set_light, set_lights, write. repeat keeps_step. Qed.

Lemma keeps_registrations (str_of : handler -> string) self (h : handler)
    (l : option string) :
  keeps_sessions (handler := handler) (on_change str_of self h l) /\
  keeps_sessions (handler := handler) (on_buzz str_of self h l) /\
  keeps_sessions (handler := handler) (on_button_down str_of self h l) /\
  keeps_sessions (handler := handler) (on_button_up str_of self h l).
Proof.
  unfold on_change, on_buzz, on_button_down, on_button_up.
  split; [|split; [|split]]; repeat keeps_step.
Qed.

Lemma keeps_remove_handler self (l : string) :
  keeps_sessions (handler := handler) (remove_handler self l).
Proof. unfold remove_handler. repeat keeps_step. Qed.

Lemma keeps_clear_handlers self :
  keeps_sessions (handler := handler) (clear_handlers self).
Proof. unfold clear_handlers. repeat keeps_step. Qed.

Lemma keeps_handle_event self (new_state : grid) :
  keeps_sessions (handler := handler) (__handle_event self new_state).
Proof. unfold __handle_event, handle_event_calling. repeat keeps_step. Qed.

Lemma keeps_stop_listening self :
  keeps_sessions (handler := handler) (stop_listening self).
Proof. unfold stop_listening, open_path. repeat keeps_step. Qed.

(** A run of the loop is a run of its body, then of the loop. *)
Lemma listen_loop_keeps (P : world -> world -> Prop) self
    (reads : list (result (list Z))) :
  (forall w, P w w) ->
  (forall w1 w2 w3, P w1 w2 -> P w2 w3 -> P w1 w3) ->
  (forall outcome w w' r,
     (dev <- getattr self __interface ;;
      data <- read dev outcome ;;
      new_state <- lift (decode_state data) ;;
      __handle_event self new_state) w = (w', r) -> P w w') ->
  forall w w' r, __listen_loop self reads w = (w', r) -> P w w'.
Proof.
  intros Hrefl Htrans Hbody.
  induction reads as [|outcome reads IH]; intros w w' r; cbn [__listen_loop].
  - intros [= <- <-]. apply Hrefl.
  - match goal with
    | |- context [match ?m w with _ => _ end] =>
        destruct (m w) as [w1 [[]|e]] eqn:Hrun
    end.
    + intros Hloop. eapply Htrans; [by eapply Hbody|by eapply IH].
    + destruct e; intros [= <- <-]; by eapply Hbody.
Qed.

Lemma keeps_listen_loop self (reads : list (result (list Z))) :
  keeps_sessions (handler := handler) (__listen_loop self reads).
Proof.
  intros w w' r.
  apply (listen_loop_keeps
    (fun w w' : world =>
       __existing_buzzer_sets w' = __existing_buzzer_sets w /\
       length (heap w') = length (heap w) /\
       (forall a s, heap w !! a = Some (Instance s) ->
          exists s', heap w' !! a = Some (Instance s')
                     /\ path s' = path s /\ __initialised s' = __initialised s))).
  - intros w0. split; [|split]; eauto 10.
  - intros w1 w2 w3 (Hreg & Hlen & Hinst) (Hreg' & Hlen' & Hinst').
    split; [congruence|]. split; [congruence|].
    intros b s Hb. destruct (Hinst _ _ Hb) as (s1 & Hb1 & Hp1 & Hi1).
    destruct (Hinst' _ _ Hb1) as (s2 & Hb2 & Hp2 & Hi2).
    exists s2. split; [done|]. split; congruence.
  - intros outcome w0 w0' r0. revert w0 w0' r0.
    change (keeps_sessions
              (dev <- getattr self __interface ;;
               data <- read dev outcome ;;
               new_state <- lift (decode_state data) ;;
               __handle_event (handler := handler) self new_state)).
    unfold read. repeat keeps_step.
Qed.

Lemma stable_listen_loop self (reads : list (result (list Z))) :
  stable (handler := handler) (__listen_loop self reads).
Proof.
  intros w w' r.
  apply (listen_loop_keeps
    (fun w w' : world =>
       __existing_buzzer_sets w' = __existing_buzzer_sets w /\
       length (heap w') = length (heap w) /\
       (instances_ok w -> instances_ok w') /\
       (forall a, initialised_at w a -> initialised_at w' a))).
  - intros w0. done.
  - intros w1 w2 w3 (Hreg & Hlen & Hok & Hinit) (Hreg' & Hlen' & Hok' & Hinit').
    split; [congruence|]. split; [congruence|auto].
  - intros outcome w0 w0' r0. revert w0 w0' r0.
    change (stable
              (dev <- getattr self __interface ;;
               data <- read dev outcome ;;
               listen_step (handler := handler) self data)).
    apply stable_bind; [apply stable_getattr|intros dev].
    apply stable_bind; [apply stable_lift|intros data].
    apply stable_listen_step.
Qed.

Lemma stable_stop_listening self :
  stable (handler := handler) (stop_listening self).
Proof.
  unfold stop_listening, open_path.
  repeat first
    [ apply stable_bind; [|intros ?]
    | apply stable_setattr; [by intros [] ?|reflexivity]
    | apply stable_ret | apply stable_getattr | apply stable_hid_issue
    | by intros w w' r [= <- <-] ].
Qed.

(** *** The listen loop *)

Lemma listen_loop_cons w self s (outcome : result (list Z))
    (reads : list (result (list Z))) :
  heap w !! self = Some (Instance s) ->
  __listen_loop self (outcome :: reads) w =
    match outcome with
    | OK data =>
        match listen_step self data w with
        | (w', OK _) => __listen_loop self reads w'
        | (w', Raise OSError) => (w', OK Broke)
        | (w', Raise e) => (w', Raise e)
        end
    | Raise OSError => (w, OK Broke)
    | Raise e => (w, Raise e)
    end.
Proof.
  intros Hs. cbn [__listen_loop].
  erewrite bind_OK by (by apply getattr_instance).
  unfold read. destruct outcome as [data|e].
  - erewrite bind_OK by reflexivity. reflexivity.
  - unfold bind, lift. by destruct e.
Qed.

Lemma listen_loop_app w w1 self (reads1 reads2 : list (result (list Z))) :
  __listen_loop self reads1 w = (w1, OK Waiting) ->
  __listen_loop self (reads1 ++ reads2) w = __listen_loop self reads2 w1.
Proof.
  revert w. induction reads1 as [|outcome reads1 IH]; intros w;
    cbn [app __listen_loop].
  - by intros [= <-].
  - match goal with
    | |- context [match ?m w with _ => _ end] =>
        destruct (m w) as [w' [[]|e]] eqn:Hrun
    end.
    + apply IH.
    + by destruct e.
Qed.

Lemma listen_loop_instance w w1 self s (reads : list (result (list Z)))
    (r : result loop_end) :
  heap w !! self = Some (Instance s) ->
  __listen_loop self reads w = (w1, r) ->
  exists s1, heap w1 !! self = Some (Instance s1).
Proof.
  intros Hs Hrun.
  destruct (keeps_listen_loop _ _ _ _ _ Hrun) as (_ & _ & Hinst).
  destruct (Hinst _ _ Hs) as (s1 & Hs1 & _). eauto.
Qed.

Lemma listen_loop_run w self s (reports : list (list Z)) (grids : list grid) :
  heap w !! self = Some (Instance s) ->
  grid_ok (__state s) ->
  Forall2 (fun data g => decode_state data = OK g) reports grids ->
  exists w',
    __listen_loop self (map OK reports) w = (w', OK Waiting) /\
    fired w' = fired w ++ dispatched_all s self grids /\
    get_buttons_state self w' = (w', OK (default (__state s) (last grids))) /\
    hid_log w' = hid_log w.
Proof.
  intros Hs Hok Hall. revert w s Hs Hok.
  induction Hall as [|data g reports grids Hdecode _ IH]; intros w s Hs Hok.
  - exists w. cbn. rewrite app_nil_r. repeat split.
    unfold get_buttons_state. by rewrite (getattr_instance _ _ _ _ Hs).
  - cbn [map]. rewrite (listen_loop_cons _ _ _ _ _ Hs).
    rewrite (listen_step_spec _ _ _ _ _ Hs Hok Hdecode).
    set (w1 := with_fired _ _).
    destruct (IH w1 (with_state g s)) as (w' & Hrun & Hfired & Hstate & Hlog).
    { cbn. by eapply heap_insert_lookup. }
    { by eapply decode_state_grid_ok. }
    exists w'. split; [done|]. split.
    { rewrite Hfired. cbn. by rewrite <- app_assoc. }
    split; [|done]. rewrite Hstate, last_cons. cbn.
    by destruct (last grids).
Qed.

(** X14.  A run of the loop over reports of five bytes or more stores the
    grid of the last one and makes, in order, the invocations of each
    report dispatched against the grid of the report before it (the first
    one against the grid stored at the start); it opens nothing and writes
    nothing on the transport, and is then waiting for the next report. *)
Theorem listen_loop_trace w self s (reports : list (list Z)) (grids : list grid) :
  heap w !! self = Some (Instance s) ->
  grid_ok (__state s) ->
  Forall2 (fun data g => decode_state data = OK g) reports grids ->
  exists w',
    __listen_loop self (map OK reports) w = (w', OK Waiting) /\
    fired w' = fired w ++ dispatched_all s self grids /\
    get_buttons_state self w' = (w', OK (default (__state s) (last grids))) /\
    hid_log w' = hid_log w.
Proof. apply listen_loop_run. Qed.

Lemma downs_same (g : grid) : downs g g = [].
Proof.
  unfold downs, went_down. induction cells as [|c cs IH]; [done|].
  cbn. by destruct (lit g c).
Qed.

Lemma ups_same (g : grid) : ups g g = [].
Proof.
  unfold ups, went_up. induction cells as [|c cs IH]; [done|].
  cbn. by destruct (lit g c).
Qed.

(** X15.  Reports that decode to the grid the session has stored change
    nothing: however many of them the loop reads, no callback is called and
    the world stays as it is. *)
Theorem listen_loop_same_report w self s (data : list Z) (n : nat) :
  heap w !! self = Some (Instance s) ->
  decode_state data = OK (__state s) ->
  __listen_loop self (replicate n (OK data)) w = (w, OK Waiting).
Proof.
  intros Hs Hdecode. induction n as [|n IH]; [done|].
  cbn [replicate]. rewrite (listen_loop_cons _ _ _ _ _ Hs).
  assert (Hok : grid_ok (__state s)) by (by eapply decode_state_grid_ok).
  rewrite (listen_step_spec _ _ _ _ _ Hs Hok Hdecode).
  assert (Hsame : with_state (__state s) s = s) by (by destruct s).
  unfold dispatched. rewrite downs_same, ups_same, app_nil_r, Hsame.
  rewrite with_heap_same by done. by rewrite with_fired_same.
Qed.

(** X16.  A read that raises [OSError] ends the loop quietly: the loop
    returns, nothing is raised, the reads after it are not made, and the
    world is the one the reads before it left. *)
Theorem listen_loop_breaks_on_OSError w w1 self s
    (reads1 reads2 : list (result (list Z))) :
  heap w !! self = Some (Instance s) ->
  __listen_loop self reads1 w = (w1, OK Waiting) ->
  __listen_loop self (reads1 ++ Raise OSError :: reads2) w = (w1, OK Broke).
Proof.
  intros Hs Hrun. rewrite (listen_loop_app _ _ _ _ _ Hrun).
  destruct (listen_loop_instance _ _ _ _ _ _ Hs Hrun) as [s1 Hs1].
  by rewrite (listen_loop_cons _ _ _ _ _ Hs1).
Qed.

(** X17.  A report of fewer than five elements ends the loop with
    [IndexError], which is not caught: the grid and the trace stay as the
    reads before it left them, and the reads after it are not made. *)
Theorem listen_loop_short_report w w1 self s (data : list Z)
    (reads1 reads2 : list (result (list Z))) :
  heap w !! self = Some (Instance s) ->
  __listen_loop self reads1 w = (w1, OK Waiting) ->
  (length data < 5)%nat ->
  __listen_loop self (reads1 ++ OK data :: reads2) w = (w1, Raise IndexError).
Proof.
  intros Hs Hrun Hlen. rewrite (listen_loop_app _ _ _ _ _ Hrun).
  destruct (listen_loop_instance _ _ _ _ _ _ Hs Hrun) as [s1 Hs1].
  rewrite (listen_loop_cons _ _ _ _ _ Hs1).
  unfold listen_step, bind, lift. by rewrite decode_state_short.
Qed.

Lemma transitions_balance (old new : grid) :
  (length (downs old new) + held old = length (ups old new) + held new)%nat.
Proof.
  unfold downs, ups, held, went_down, went_up. rewrite cells_twenty.
  induction twenty_cells as [|c cs IH]; [done|].
  cbn. destruct (lit old c), (lit new c); cbn; lia.
Qed.

Section Balance.

Context `{!EqDecision handler}.

(** In a dictionary, the entries that are the registration of [h] as [l]
    are one when it is registered so. *)
Lemma count_entries_of (d : dict handler) (mk : string -> handler -> firing)
    (p : firing -> bool) (l : string) (h : handler) :
  dict_ok d -> (l, h) ∈ d ->
  (forall l' e, p (mk l' e) = bool_decide (l' = l /\ e = h)) ->
  count p (map (fun '(l, e) => mk l e) d) = 1%nat.
Proof.
  intros Hok Hin Hp. unfold dict_ok, dict_keys in Hok.
  induction d as [|[k v] d IH]; [by apply elem_of_nil in Hin|].
  cbn [map fst] in *. apply NoDup_cons in Hok as [Hk Hok].
  change (count p (mk k v :: map (fun '(l, e) => mk l e) d))
    with (count p ([mk k v] ++ map (fun '(l, e) => mk l e) d)).
  rewrite count_app. unfold count at 1. cbn. rewrite Hp.
  apply elem_of_cons in Hin as [[= <- <-]|Hin].
  - rewrite bool_decide_eq_true_2 by done. cbn.
    assert (Hnone : count p (map (fun '(l, e) => mk l e) d) = 0%nat).
    { clear IH Hok. induction d as [|[k' v'] d IH]; [done|].
      cbn [map fst] in *. apply not_elem_of_cons in Hk as [Hne Hk].
      change (count p (mk k' v' :: map (fun '(l, e) => mk l e) d))
        with (count p ([mk k' v'] ++ map (fun '(l, e) => mk l e) d)).
      rewrite count_app, IH by done. unfold count. cbn. rewrite Hp.
      rewrite bool_decide_eq_false_2; [done|]. intros [? _]. congruence. }
    by rewrite Hnone.
  - rewrite bool_decide_eq_false_2.
    + cbn. by apply IH.
    + intros [-> _]. apply Hk. by apply (entry_key d l h).
Qed.

Lemma count_button_down_as s self (g : grid) (l : string) (h : handler) :
  dict_ok (__on_button_down s) ->
  (l, h) ∈ __on_button_down s ->
  count (button_down_as l h self) (dispatched s self g)
  = length (downs (__state s) g).
Proof.
  intros Hok Hl.
  destruct (dispatched_cases s self g) as [(_ & -> & _ & ->)|[_ ->]]; [done|].
  rewrite !count_app. unfold change_firings.
  rewrite count_map_none by (by intros [??]).
  rewrite (count_flat_map_const _ _ 1).
  - rewrite count_flat_map_none; [lia|].
    intros c. unfold release_firings. by apply count_map_none; intros [??].
  - intros c. unfold press_firings. rewrite count_app.
    rewrite (count_entries_of _ (fun l e => FireButtonDown l e self c.1 c.2) _ l h);
      [|done|done|intros l' e; cbn; apply bool_decide_ext; tauto].
    destruct (c.2 =? 0)%nat; [|done].
    by rewrite count_map_none by (by intros [??]).
Qed.

Lemma count_button_up_as s self (g : grid) (l : string) (h : handler) :
  dict_ok (__on_button_up s) ->
  (l, h) ∈ __on_button_up s ->
  count (button_up_as l h self) (dispatched s self g)
  = length (ups (__state s) g).
Proof.
  intros Hok Hl.
  destruct (dispatched_cases s self g) as [(_ & _ & -> & ->)|[_ ->]]; [done|].
  rewrite !count_app. unfold change_firings.
  rewrite count_map_none by (by intros [??]).
  rewrite count_flat_map_none.
  - rewrite (count_flat_map_const _ _ 1); [lia|].
    intros c. unfold release_firings.
    by rewrite (count_entries_of _ (fun l e => FireButtonUp l e self c.1 c.2) _ l h);
      [|done|done|intros l' e; cbn; apply bool_decide_ext; tauto].
  - intros c. unfold press_firings. rewrite count_app.
    rewrite count_map_none by (by intros [??]).
    destruct (c.2 =? 0)%nat; [|done].
    by rewrite count_map_none by (by intros [??]).
Qed.

Lemma dispatched_all_balance s self (grids : list grid) (ld lu : string)
    (hd hu : handler) :
  dict_ok (__on_button_down s) -> (ld, hd) ∈ __on_button_down s ->
  dict_ok (__on_button_up s) -> (lu, hu) ∈ __on_button_up s ->
  (count (button_down_as ld hd self) (dispatched_all s self grids)
     + held (__state s)
   = count (button_up_as lu hu self) (dispatched_all s self grids)
     + held (default (__state s) (last grids)))%nat.
Proof.
  intros Hokd Hd Hoku Hu. revert s Hokd Hd Hoku Hu.
  induction grids as [|g grids IH]; intros s Hokd Hd Hoku Hu; [done|].
  cbn [dispatched_all]. rewrite !count_app.
  rewrite count_button_down_as, count_button_up_as by done.
  pose proof (transitions_balance (__state s) g) as Hstep.
  pose proof (IH (with_state g s) Hokd Hd Hoku Hu) as Hrest.
  rewrite last_cons. cbn [with_state __state] in Hrest.
  destruct (last grids); cbn [default] in *; unfold id in *; lia.
Qed.

(** X18.  Presses and releases balance.  Over a run of the loop on reports
    of five bytes or more, the calls of a callback as a button-down handler
    it is registered as, plus the buttons among the twenty held at the
    start, number the calls of a callback as a button-up handler it is
    registered as, plus the buttons held at the end: a release is reported
    only for a button whose press was, and a button reported pressed and
    not yet released is held. *)
Theorem presses_balance_releases w self s (reports : list (list Z))
    (grids : list grid) (ld lu : string) (hd hu : handler) :
  heap w !! self = Some (Instance s) ->
  instance_ok s ->
  Forall2 (fun data g => decode_state data = OK g) reports grids ->
  (ld, hd) ∈ __on_button_down s ->
  (lu, hu) ∈ __on_button_up s ->
  exists w' tr g,
    __listen_loop self (map OK reports) w = (w', OK Waiting) /\
    fired w' = fired w ++ tr /\
    get_buttons_state self w' = (w', OK g) /\
    (count (button_down_as ld hd self) tr + held (__state s)
     = count (button_up_as lu hu self) tr + held g)%nat.
Proof.
  intros Hs (Hok & _ & _ & Hokd & Hoku) Hall Hd Hu.
  destruct (listen_loop_run w self s reports grids Hs Hok Hall)
    as (w' & Hrun & Hfired & Hstate & _).
  exists w', (dispatched_all s self grids), (default (__state s) (last grids)).
  repeat split; try done. by apply dispatched_all_balance.
Qed.

End Balance.

(** *** Shutdown and failed construction *)

Lemma stop_listening_spec w self s :
  heap w !! self = Some (Instance s) ->
  stop_listening self w =
    match hid_script w with
    | true :: rest =>
        ({| __existing_buzzer_sets := __existing_buzzer_sets w;
            heap := <[self := Instance (with_interface hid_device_new s)]> (heap w);
            hid_log := hid_log w ++ [HidClose (__interface s);
                                     HidOpenPath hid_device_new (path s)];
            hid_script := rest;
            fired := fired w |},
         Raise OSError)
    | script =>
        ({| __existing_buzzer_sets := __existing_buzzer_sets w;
            heap := <[self := Instance (with_interface {| opened := Some (path s) |} s)]>
                      (heap w);
            hid_log := hid_log w ++ [HidClose (__interface s);
                                     HidOpenPath hid_device_new (path s)];
            hid_script := tail script;
            fired := fired w |},
         OK tt)
    end.
Proof.
  intros Hs. unfold stop_listening.
  assert (Hlt : (self < length (heap w))%nat) by (by eapply lookup_lt_Some).
  erewrite bind_OK by (by apply getattr_instance).
  erewrite bind_OK by reflexivity.
  erewrite bind_OK by (by apply setattr_instance).
  erewrite !bind_OK
    by (apply getattr_instance; cbn; by apply list_lookup_insert_eq).
  unfold open_path, bind, hid_issue, ret, attr_path, setattr. cbn.
  destruct (hid_script w) as [|[] script]; cbn; rewrite <- ?app_assoc;
    try reflexivity.
  all: rewrite list_lookup_insert_eq by done; cbn.
  all: by rewrite list_insert_insert_eq.
Qed.

(** X19.  [stop_listening] issues two transport calls: it closes the handle
    the session holds, then opens a new handle at the path of the session.
    It calls no callback and changes no other attribute of the session than
    the handle.  When the transport accepts the opening, the session holds
    the handle opened at its path; when the transport rejects it, [OSError]
    is raised and the session is left with a handle that was never opened
    (the old one stays closed). *)
Theorem stop_listening_reopens w self s :
  heap w !! self = Some (Instance s) ->
  exists w' r dev,
    stop_listening self w = (w', r) /\
    hid_log w' = hid_log w ++ [HidClose (__interface s);
                               HidOpenPath hid_device_new (path s)] /\
    heap w' !! self = Some (Instance (with_interface dev s)) /\
    fired w' = fired w /\
    (accepts 1 w -> r = OK tt /\ dev = {| opened := Some (path s) |}) /\
    (forall rest, hid_script w = true :: rest ->
       r = Raise OSError /\ dev = hid_device_new).
Proof.
  intros Hs. rewrite (stop_listening_spec _ _ _ Hs). unfold accepts.
  destruct (hid_script w) as [|[] script]; cbn;
    eexists _, _, _; (split; [reflexivity|]); cbn;
    (split; [reflexivity|]);
    (split; [by eapply heap_insert_lookup|]);
    (split; [reflexivity|]); split; try done.
  intros Hacc. by apply Forall_cons in Hacc as [? _].
Qed.

(** X20.  A construction that raises is not undone and not retried.  When
    [BuzzerSet(path)] raises for a path that had no session, what it raises
    is [OSError], and the session is registered all the same: the next
    [BuzzerSet(path)] returns it without a transport call and without an
    error.  When it was the opening that failed, the handle of that session
    was never opened. *)
Theorem failed_construction_is_kept w w1 (path : bytes) (e : exn) :
  __existing_buzzer_sets w !! path = None ->
  BuzzerSet_call path w = (w1, Raise e) ->
  e = OSError /\
  exists r,
    __existing_buzzer_sets w1 !! path = Some r /\
    BuzzerSet_call path w1 = (w1, OK r) /\
    get_lights_state r w1 = (w1, OK [false; false; false; false]) /\
    (forall rest, hid_script w = true :: rest ->
       getattr r __interface w1 = (w1, OK hid_device_new)).
Proof.
  intros Hp. rewrite (call_unregistered _ _ Hp). cbn zeta.
  assert (Hagain : forall (w0 : world) s0,
            __existing_buzzer_sets w0 = <[path := length (heap w)]> (__existing_buzzer_sets w) ->
            heap w0 = heap w ++ [Instance s0] ->
            __initialised s0 = true ->
            __existing_buzzer_sets w0 !! path = Some (length (heap w)) /\
            BuzzerSet_call path w0 = (w0, OK (length (heap w))) /\
            heap w0 !! length (heap w) = Some (Instance s0)).
  { intros w0 s0 Hreg Hheap Hinit.
    assert (Hr : __existing_buzzer_sets w0 !! path = Some (length (heap w)))
      by (rewrite Hreg; apply lookup_insert_eq).
    assert (Hs0 : heap w0 !! length (heap w) = Some (Instance s0))
      by (rewrite Hheap; apply snoc_lookup).
    split; [done|]. split; [|done]. by eapply call_again. }
  destruct (hid_script w) as [|[] [|[] script]] eqn:Hscript; intros [= <- <-];
    (split; [reflexivity|]); exists (length (heap w)).
  all: match goal with
       | |- context [BuzzerSet_call _ ?w0] =>
           match w0 with
           | context [Instance ?s0] =>
               destruct (Hagain w0 s0 eq_refl eq_refl eq_refl)
                 as (Hr & Hcall & Hs0)
           end
       end.
  all: split; [done|]; split; [done|]; unfold get_lights_state.
  all: rewrite !(getattr_instance _ _ _ _ Hs0); done.
Qed.

(** *** Which calls do what *)

Lemma preserves_bind {A B C} (proj : world -> C) (m : M A) (k : A -> M B) :
  preserves proj m -> (forall a, preserves proj (k a)) -> preserves proj (bind m k).
Proof.
  intros Hm Hk w w' r. unfold bind.
  destruct (m w) as [w1 [a|e]] eqn:Hrun.
  - intros Hrun'. rewrite (Hk _ _ _ _ Hrun'). by eapply Hm.
  - intros [= <- <-]. by eapply Hm.
Qed.

Lemma preserves_for {A C} (proj : world -> C) (l : list A) (body : A -> M unit) :
  (forall x, preserves proj (body x)) -> preserves proj (for_ l body).
Proof.
  intros Hbody. induction l as [|x l IH]; cbn [for_].
  - by intros w w' r [= <- <-].
  - apply preserves_bind; auto.
Qed.

Ltac preserves_step :=
  first
    [ apply preserves_bind; [|intros ?]
    | apply preserves_for; intros [??]
    | match goal with
      | |- preserves _ (if ?b then _ else _) => destruct b
      | |- preserves _ (match ?x with _ => _ end) => destruct x
      end
    | solve
        [ intros ? ? ?;
          unfold ret, lift, getattr, setattr, fire, hid_issue, close,
            object_new, register, existing, get_initialised, init_attrs;
          repeat case_match; intros [= <- <-]; reflexivity ] ].

Lemma preserves_listen_loop {C} (proj : world -> C) self
    (reads : list (result (list Z))) :
  (forall new_state, preserves proj (__handle_event (handler := handler) self new_state)) ->
  preserves proj (__listen_loop (handler := handler) self reads).
Proof.
  intros Hevent w w' r.
  apply (listen_loop_keeps (fun w w' : world => proj w' = proj w)).
  - done.
  - intros w1 w2 w3 H12 H23. congruence.
  - intros outcome w0 w0' r0. revert w0 w0' r0.
    change (preserves proj
              (dev <- getattr self __interface ;;
               data <- read dev outcome ;;
               new_state <- lift (decode_state data) ;;
               __handle_event (handler := handler) self new_state)).
    unfold read.
    apply preserves_bind; [preserves_step|intros dev].
    apply preserves_bind; [preserves_step|intros data].
    apply preserves_bind; [preserves_step|intros new_state].
    apply Hevent.
Qed.

Lemma after_preserves {A C} (proj : world -> C) (m : M A) w :
  preserves proj m -> proj (after m w) = proj w.
Proof.
  intros Hm. unfold after. destruct (m w) as [w' r] eqn:Hrun. by eapply Hm.
Qed.

Lemma transport_untouched (str_of : handler -> string) (upper : string -> string)
    (c : api_call) w :
  uses_transport c = false ->
  (hid_log (perform upper str_of c w), hid_script (perform upper str_of c w))
  = (hid_log w, hid_script w).
Proof.
  intros Hc.
  destruct c; try discriminate Hc; cbn [perform];
    apply (after_preserves (fun w : world => (hid_log w, hid_script w))).
  - unfold set_label. repeat preserves_step.
  - unfold get_buttons_state. repeat preserves_step.
  - unfold get_lights_state. repeat preserves_step.
  - unfold on_change. repeat preserves_step.
  - unfold on_buzz. repeat preserves_step.
  - unfold on_button_down. repeat preserves_step.
  - unfold on_button_up. repeat preserves_step.
  - unfold remove_handler. repeat preserves_step.
  - unfold clear_handlers. repeat preserves_step.
  - apply preserves_listen_loop. intros new_state.
    unfold __handle_event, handle_event_calling. repeat preserves_step.
Qed.

(** X21.  Registering, removing and clearing handlers, setting the label,
    reading the two states and running the listen loop never open the
    transport nor write to it (the loop only reads from it): the calls
    issued and the answers still to come are what they were. *)
Theorem only_lights_and_handles_use_transport (str_of : handler -> string)
    (upper : string -> string) (c : api_call) w :
  uses_transport c = false ->
  hid_log (perform upper str_of c w) = hid_log w /\
  hid_script (perform upper str_of c w) = hid_script w.
Proof.
  intros Hc. pose proof (transport_untouched str_of upper c w Hc) as [= Hlog Hscript].
  done.
Qed.

Lemma preserves_fired_call (p : bytes) :
  preserves (handler := handler) fired (BuzzerSet_call p).
Proof.
  unfold BuzzerSet_call, __new__, __init__, set_lights_off, set_lights,
    open_path, write.
  repeat preserves_step.
Qed.

Lemma preserves_fired_construct_each (devices : list device_info) :
  preserves (handler := handler) fired (construct_each devices).
Proof.
  induction devices as [|device devices IH]; cbn [construct_each].
  - preserves_step.
  - apply preserves_bind; [apply preserves_fired_call|intros instance].
    apply preserves_bind; [apply IH|intros instances]. preserves_step.
Qed.

(** X22.  Callbacks are called from the listen loop only: no other call of
    the package, construction included, calls a callback. *)
Theorem only_the_loop_calls_back (str_of : handler -> string)
    (upper : string -> string) (c : api_call) w :
  listens c = false ->
  fired (perform upper str_of c w) = fired w.
Proof.
  intros Hc.
  destruct c; try discriminate Hc; cbn [perform];
    apply (after_preserves fired).
  - apply preserves_fired_call.
  - apply preserves_fired_construct_each.
  - unfold set_label. repeat preserves_step.
  - unfold get_buttons_state. repeat preserves_step.
  - unfold get_lights_state. repeat preserves_step.
  - unfold on_change. repeat preserves_step.
  - unfold on_buzz. repeat preserves_step.
  - unfold on_button_down. repeat preserves_step.
  - unfold on_button_up. repeat preserves_step.
  - unfold remove_handler. repeat preserves_step.
  - unfold clear_handlers. repeat preserves_step.
  - unfold stop_listening, open_path. repeat preserves_step.
  - unfold set_lights, write. repeat preserves_step.
  - unfold set_light, set_lights, write. repeat preserves_step.
  - unfold set_lights_on, set_lights, write. repeat preserves_step.
  - unfold set_lights_off, set_lights, write. repeat preserves_step.
Qed.

(** *** What every program keeps *)

Lemma after_stable {A} (m : M A) w :
  stable m -> world_ok w -> world_ok (after m w).
Proof.
  intros Hm Hok. unfold after. destruct (m w) as [w' r] eqn:Hrun.
  by eapply stable_world_ok.
Qed.

Lemma construct_each_world_ok (devices : list device_info) w w'
    (r : result (list ref)) :
  world_ok w -> construct_each devices w = (w', r) -> world_ok w'.
Proof.
  revert w w' r. induction devices as [|device devices IH]; intros w w' r Hok;
    cbn [construct_each].
  - by intros [= <- <-].
  - unfold bind at 1.
    destruct (BuzzerSet_call (info_path device) w) as [w1 [instance|e]] eqn:Hcall.
    + unfold bind at 1.
      destruct (construct_each devices w1) as [w2 [instances|e]] eqn:Heach;
        intros [= <- <-];
        (eapply (IH w1); [by eapply call_world_ok|exact Heach]).
    + intros [= <- <-]. by eapply call_world_ok.
Qed.

Lemma perform_world_ok (str_of : handler -> string) (upper : string -> string)
    (c : api_call) w :
  world_ok w -> world_ok (perform upper str_of c w).
Proof.
  intros Hok. destruct c; cbn [perform];
    [ | |apply after_stable; [|done]..].
  - unfold after.
    destruct (BuzzerSet_call path0 w) as [w' r] eqn:Hrun.
    by eapply call_world_ok.
  - unfold after, get_all_buzzers.
    destruct (construct_each (list_connected_buzzers upper enumerated) w)
      as [w' r] eqn:Hrun.
    by eapply construct_each_world_ok.
  - apply stable_set_label.
  - apply stable_get_buttons_state.
  - apply stable_get_lights_state.
  - apply stable_on_change.
  - apply stable_on_buzz.
  - apply stable_on_button_down.
  - apply stable_on_button_up.
  - apply stable_remove_handler.
  - apply stable_clear_handlers.
  - apply stable_listen_loop.
  - apply stable_stop_listening.
  - apply stable_set_lights.
  - apply stable_set_light.
  - apply stable_set_lights_on.
  - apply stable_set_lights_off.
Qed.

(** X23.  Whatever calls a program makes, with whatever arguments and
    whatever the transport answers, every session keeps a button grid of
    four rows of five cells and registries whose labels are pairwise
    distinct, and no two paths share a session. *)
Theorem program_keeps_world_ok (str_of : handler -> string)
    (upper : string -> string) (program : list api_call) (script : list bool) :
  world_ok (run upper str_of program (initial_world script)).
Proof.
  unfold run.
  assert (Hinit : world_ok (initial_world (handler := handler) script))
    by apply world_ok_initial.
  revert Hinit. generalize (initial_world (handler := handler) script).
  induction program as [|c program IH]; intros w Hok; [done|].
  cbn [fold_left]. apply IH. by apply perform_world_ok.
Qed.

Lemma keeps_sessions_ok {A} (m : M A) w w' (r : result A) :
  keeps_sessions m -> sessions_ok w -> m w = (w', r) -> sessions_ok w'.
Proof.
  intros Hm Hok Hrun p a Hp.
  destruct (Hm _ _ _ Hrun) as (Hreg & _ & Hinst).
  rewrite Hreg in Hp. destruct (Hok _ _ Hp) as (s & Hs & Hi & Hpath).
  destruct (Hinst _ _ Hs) as (s' & Hs' & Hpath' & Hi').
  exists s'. split; [done|]. split; congruence.
Qed.

Lemma after_keeps {A} (m : M A) w :
  keeps_sessions m -> sessions_ok w -> sessions_ok (after m w).
Proof.
  intros Hm Hok. unfold after. destruct (m w) as [w' r] eqn:Hrun.
  by eapply keeps_sessions_ok.
Qed.

Lemma call_sessions_ok w w1 (p : bytes) (res : result ref) :
  sessions_ok w -> BuzzerSet_call p w = (w1, res) -> sessions_ok w1.
Proof.
  intros Hok Hrun.
  destruct (__existing_buzzer_sets w !! p) as [r|] eqn:Hp.
  { destruct (Hok _ _ Hp) as (s & Hs & Hi & _).
    rewrite (call_again _ _ _ _ Hp Hs Hi) in Hrun. by injection Hrun as <- _. }
  rewrite (call_unregistered _ _ Hp) in Hrun. cbn zeta in Hrun.
  assert (Hnew : forall (w0 : world) s0,
            __existing_buzzer_sets w0
              = <[p := length (heap w)]> (__existing_buzzer_sets w) ->
            heap w0 = heap w ++ [Instance s0] ->
            __initialised s0 = true -> path s0 = p ->
            sessions_ok w0).
  { intros w0 s0 Hreg Hheap Hi Hpath q a Hq. rewrite Hreg in Hq. rewrite Hheap.
    apply lookup_insert_Some in Hq as [[<- <-]|[Hne Hq]].
    - exists s0. by rewrite snoc_lookup.
    - destruct (Hok _ _ Hq) as (s & Hs & Hs').
      exists s. split; [|done]. by apply lookup_app_l_Some. }
  destruct (hid_script w) as [|[] [|[] script]]; injection Hrun as <- _;
    by eapply Hnew.
Qed.

Lemma construct_each_sessions_ok (devices : list device_info) w w'
    (r : result (list ref)) :
  sessions_ok w -> construct_each devices w = (w', r) -> sessions_ok w'.
Proof.
  revert w w' r. induction devices as [|device devices IH]; intros w w' r Hok;
    cbn [construct_each].
  - by intros [= <- <-].
  - unfold bind at 1.
    destruct (BuzzerSet_call (info_path device) w) as [w1 [instance|e]] eqn:Hcall.
    + unfold bind at 1.
      destruct (construct_each devices w1) as [w2 [instances|e]] eqn:Heach;
        intros [= <- <-];
        (eapply (IH w1); [by eapply call_sessions_ok|exact Heach]).
    + intros [= <- <-]. by eapply call_sessions_ok.
Qed.

Lemma perform_sessions_ok (str_of : handler -> string) (upper : string -> string)
    (c : api_call) w :
  sessions_ok w -> sessions_ok (perform upper str_of c w).
Proof.
  intros Hok. destruct c; cbn [perform];
    [ | |apply after_keeps; [|done]..].
  - unfold after.
    destruct (BuzzerSet_call path0 w) as [w' r] eqn:Hrun.
    by eapply call_sessions_ok.
  - unfold after, get_all_buzzers.
    destruct (construct_each (list_connected_buzzers upper enumerated) w)
      as [w' r] eqn:Hrun.
    by eapply construct_each_sessions_ok.
  - unfold set_label. repeat keeps_step.
  - apply keeps_getattr.
  - apply keeps_getattr.
  - apply keeps_registrations.
  - apply keeps_registrations.
  - apply keeps_registrations.
  - apply keeps_registrations.
  - apply keeps_remove_handler.
  - apply keeps_clear_handlers.
  - apply keeps_listen_loop.
  - apply keeps_stop_listening.
  - apply keeps_set_lights.
  - apply keeps_set_light.
  - apply keeps_set_lights.
  - apply keeps_set_lights.
Qed.

Lemma run_sessions_ok (str_of : handler -> string) (upper : string -> string)
    (program : list api_call) w :
  sessions_ok w -> sessions_ok (run upper str_of program w).
Proof.
  unfold run. revert w.
  induction program as [|c program IH]; intros w Hok; [done|].
  cbn [fold_left]. apply IH. by apply perform_sessions_ok.
Qed.

(** X24.  Whatever calls a program makes, every path of the session
    registry names a session that is flagged as initialised and whose
    [path] is that path: no call changes the path of a session, removes a
    session from the registry, or lets [__init__] run on it again, so
    [BuzzerSet(path)] for such a path returns it and does nothing else. *)
Theorem program_keeps_sessions (str_of : handler -> string)
    (upper : string -> string) (program : list api_call) (script : list bool)
    (p : bytes) (r : ref) :
  let w := run upper str_of program (initial_world script) in
  __existing_buzzer_sets w !! p = Some r ->
  (exists s, heap w !! r = Some (Instance s)
             /\ __initialised s = true /\ path s = p) /\
  BuzzerSet_call p w = (w, OK r).
Proof.
  intros w Hp.
  assert (Hok : sessions_ok w).
  { apply run_sessions_ok. intros q a Hq. cbn in Hq. by rewrite lookup_empty in Hq. }
  destruct (Hok _ _ Hp) as (s & Hs & Hi & Hpath).
  split; [by exists s|]. by eapply call_again.
Qed.

(** *** Discovery *)

Lemma prefix_spec (sub s : string) :
  String.prefix sub s = true <-> exists post, s = sub +:+ post.
Proof.
  revert s. induction sub as [|a sub IH]; intros s.
  - split; [intros _; by exists s|by destruct s].
  - destruct s as [|b s]; cbn.
    + split; [done|]. by intros [post ?].
    + destruct (Ascii.ascii_dec a b) as [->|Hne].
      * rewrite IH. split; intros [post Hpost]; exists post.
        -- by rewrite Hpost.
        -- change (String b s = String b (sub +:+ post)) in Hpost.
           by injection Hpost.
      * split; [done|]. intros [post Hpost].
        change (String b s = String a (sub +:+ post)) in Hpost.
        injection Hpost as ? _. done.
Qed.

Lemma occurs_spec (sub s : string) :
  occurs sub s = true <-> exists pre post, s = pre +:+ sub +:+ post.
Proof.
  induction s as [|a s IH]; cbn [occurs]; rewrite orb_true_iff, prefix_spec.
  - split.
    + intros [[post Hpost]|?]; [|done]. by exists "", post.
    + intros (pre & post & Hs). left. exists post.
      destruct pre; [done|discriminate].
  - rewrite IH. split.
    + intros [[post Hpost]|(pre & post & Hs)].
      * by exists "", post.
      * exists (String a pre), post. by rewrite Hs.
    + intros (pre & post & Hs). destruct pre as [|b pre].
      * left. by exists post.
      * right. change (String a s = String b (pre +:+ sub +:+ post)) in Hs.
        injection Hs as _ Hs. by exists pre, post.
Qed.

(** X25.  [list_connected_buzzers] returns, in the order of the
    enumeration, the devices whose product string in upper case has
    [BUZZ] somewhere in it, and no other. *)
Theorem list_connected_buzzers_spec (upper : string -> string)
    (enumerated : list device_info) :
  sublist (list_connected_buzzers upper enumerated) enumerated /\
  forall device,
    device ∈ list_connected_buzzers upper enumerated <->
    device ∈ enumerated /\
    exists pre post, upper (product_string device) = pre +:+ "BUZZ" +:+ post.
Proof.
  unfold list_connected_buzzers. split.
  - induction enumerated as [|device enumerated IH]; cbn; [done|].
    destruct (occurs _ _); by constructor.
  - intros device. rewrite list_elem_of_In, List.filter_In, <- list_elem_of_In.
    by rewrite occurs_spec.
Qed.

Lemma construct_each_registered (devices : list device_info) w w1
    (refs : list ref) :
  construct_each devices w = (w1, OK refs) ->
  Forall2 (fun device r =>
             __existing_buzzer_sets w1 !! info_path device = Some r
             /\ initialised_at w1 r) devices refs.
Proof.
  revert w w1 refs.
  induction devices as [|device devices IH]; intros w w1 refs;
    cbn [construct_each].
  - intros [= <- <-]. constructor.
  - unfold bind at 1.
    destruct (BuzzerSet_call (info_path device) w) as [w2 [r|e]] eqn:Hcall;
      [|done].
    unfold bind at 1.
    destruct (construct_each devices w2) as [w3 [rs|e]] eqn:Heach; [|done].
    intros [= <- <-]. constructor; [|by eapply IH].
    assert (Hhere : __existing_buzzer_sets w2 !! info_path device = Some r
                    /\ initialised_at w2 r).
    { destruct (call_cases _ _ _ _ Hcall)
        as [(r0 & Hp & Hreg & _ & Hres)|(Hp & Hreg & _ & Hres)].
      - destruct (Hres r eq_refl) as [-> Hs]. by rewrite Hreg.
      - destruct (Hres r eq_refl) as [-> Hs]. split; [|done].
        rewrite Hreg. apply lookup_insert_eq. }
    clear Hcall. revert Hhere. generalize (info_path device).
    revert w2 w3 rs Heach. clear IH.
    induction devices as [|device' devices IH]; intros w2 w3 rs;
      cbn [construct_each].
    + by intros [= <- <-].
    + unfold bind at 1.
      destruct (BuzzerSet_call (info_path device') w2) as [w4 [r'|e]] eqn:Hcall;
        [|done].
      unfold bind at 1.
      destruct (construct_each devices w4) as [w5 [rs'|e]] eqn:Heach; [|done].
      intros [= <- <-] p [Hp Hr].
      destruct (call_keeps _ _ _ _ Hcall) as (Hreg & _ & Hinit).
      eapply IH; [exact Heach|]. split; [by apply Hreg|by apply Hinit].
Qed.

Lemma construct_each_again (devices : list device_info) w (refs : list ref) :
  Forall2 (fun device r =>
             __existing_buzzer_sets w !! info_path device = Some r
             /\ initialised_at w r) devices refs ->
  construct_each devices w = (w, OK refs).
Proof.
  induction 1 as [|device r devices refs [Hp (s & Hs & Hi)] _ IH];
    cbn [construct_each]; [done|].
  erewrite bind_OK by (by eapply call_again).
  by erewrite bind_OK by exact IH.
Qed.

(** X26.  When [get_all_buzzers] returns, it has returned one session for
    each enumerated Buzz device, in the order of the enumeration, the
    session of a device being the one [BuzzerSet] returns for the path of
    the device; and asking again returns the same sessions and does
    nothing: no object is made, no transport call is issued. *)
Theorem get_all_buzzers_again (upper : string -> string)
    (enumerated : list device_info) w w1 (refs : list ref) :
  get_all_buzzers upper enumerated w = (w1, OK refs) ->
  Forall2 (fun device r => BuzzerSet_call (info_path device) w1 = (w1, OK r))
    (list_connected_buzzers upper enumerated) refs /\
  get_all_buzzers upper enumerated w1 = (w1, OK refs).
Proof.
  unfold get_all_buzzers. intros Hrun.
  pose proof (construct_each_registered _ _ _ _ Hrun) as Hall.
  split; [|by apply construct_each_again].
  eapply Forall2_impl; [exact Hall|].
  intros device r [Hp (s & Hs & Hi)]. by eapply call_again.
Qed.

Lemma construct_each_registry_ok (devices : list device_info) w w'
    (r : result (list ref)) :
  registry_ok w -> construct_each devices w = (w', r) -> registry_ok w'.
Proof.
  revert w w' r. induction devices as [|device devices IH]; intros w w' r Hok;
    cbn [construct_each].
  - by intros [= <- <-].
  - unfold bind at 1.
    destruct (BuzzerSet_call (info_path device) w) as [w1 [instance|e]] eqn:Hcall.
    + unfold bind at 1.
      destruct (construct_each devices w1) as [w2 [instances|e]] eqn:Heach;
        intros [= <- <-];
        (eapply (IH w1); [by eapply call_registry_ok|exact Heach]).
    + intros [= <- <-]. by eapply call_registry_ok.
Qed.

(** X27.  Among the sessions [get_all_buzzers] returns, two are the same
    session exactly when their devices have the same path: a path that the
    enumeration lists twice gives the same session twice, and two paths
    never share a session. *)
Theorem get_all_buzzers_one_per_path (upper : string -> string)
    (enumerated : list device_info) w w1 (refs : list ref)
    (i j : nat) (di dj : device_info) (ri rj : ref) :
  registry_ok w ->
  get_all_buzzers upper enumerated w = (w1, OK refs) ->
  list_connected_buzzers upper enumerated !! i = Some di ->
  list_connected_buzzers upper enumerated !! j = Some dj ->
  refs !! i = Some ri ->
  refs !! j = Some rj ->
  info_path di = info_path dj <-> ri = rj.
Proof.
  unfold get_all_buzzers. intros Hok Hrun Hdi Hdj Hri Hrj.
  pose proof (construct_each_registered _ _ _ _ Hrun) as Hall.
  pose proof (construct_each_registry_ok _ _ _ _ Hok Hrun) as [_ Hinj].
  destruct (Forall2_lookup_lr _ _ _ _ _ _ Hall Hdi Hri) as [Hpi _].
  destruct (Forall2_lookup_lr _ _ _ _ _ _ Hall Hdj Hrj) as [Hpj _].
  split.
  - intros Heq. rewrite Heq in Hpi. congruence.
  - intros ->. by eapply Hinj.
Qed.

End FurtherProperties.

(** ** Instances of the further properties *)

Lemma decode_state_same_grid_witness :
  (5 <= length sample_report)%nat /\ Forall is_byte sample_report /\
  (5 <= length [9; 9; 1; 64; 240])%nat /\ Forall is_byte [9; 9; 1; 64; 240] /\
  (decode_state sample_report = decode_state [9; 9; 1; 64; 240]
   <-> report_field sample_report mod 2 ^ 20
       = report_field [9; 9; 1; 64; 240] mod 2 ^ 20).
Proof.
  assert (H1 : (5 <= length sample_report)%nat) by (cbn; lia).
  assert (H2 : Forall is_byte sample_report)
    by (repeat constructor; unfold is_byte; lia).
  assert (H3 : (5 <= length [9; 9; 1; 64; 240])%nat) by (cbn; lia).
  assert (H4 : Forall is_byte [9; 9; 1; 64; 240])
    by (repeat constructor; unfold is_byte; lia).
  exact (conj H1 (conj H2 (conj H3 (conj H4
    (decode_state_same_grid sample_report [9; 9; 1; 64; 240] H1 H2 H3 H4))))).
Defined.

Lemma set_light_index_error_witness :
  heap sample_world !! 0%nat = Some (Instance sample_session) /\
  (4 < - Z.of_nat (length (__lights sample_session))
   \/ Z.of_nat (length (__lights sample_session)) <= 4) /\
  set_light 0%nat 4 true sample_world = (sample_world, Raise IndexError).
Proof.
  assert (H2 : 4 < - Z.of_nat (length (__lights sample_session))
               \/ Z.of_nat (length (__lights sample_session)) <= 4)
    by (right; cbn; lia).
  exact (conj sample_session_stored (conj H2
    (set_light_index_error sample_world 0%nat sample_session 4 true
       sample_session_stored H2))).
Defined.

Lemma set_light_counts_from_end_witness :
  heap sample_world !! 0%nat = Some (Instance sample_session) /\
  - Z.of_nat (length (__lights sample_session)) <= -1 < 0 /\
  set_light 0%nat (-1) true sample_world
  = set_light 0%nat (Z.of_nat (length (__lights sample_session)) + -1) true
      sample_world.
Proof.
  assert (H2 : - Z.of_nat (length (__lights sample_session)) <= -1 < 0)
    by (cbn; lia).
  exact (conj sample_session_stored (conj H2
    (set_light_counts_from_end sample_world 0%nat sample_session (-1) true
       sample_session_stored H2))).
Defined.

Lemma set_lights_any_length_witness :
  heap sample_world !! 0%nat = Some (Instance sample_session) /\
  accepts 1 sample_world /\
  exists (w' : @world nat) (command : list Z),
    set_lights 0%nat [true; false] sample_world = (w', OK tt) /\
    get_lights_state 0%nat w' = (w', OK [true; false]) /\
    hid_log w' = hid_log sample_world
                 ++ [HidWrite (__interface sample_session) command] /\
    length command = (length [true; false] + 4)%nat /\
    (forall (i : Z) (v : bool), Z.of_nat (length [true; false]) <= i ->
       set_light 0%nat i v w' = (w', Raise IndexError)).
Proof.
  assert (H2 : accepts 1 sample_world) by (vm_compute; constructor).
  exact (conj sample_session_stored (conj H2
    (set_lights_any_length sample_world 0%nat sample_session [true; false]
       sample_session_stored H2))).
Defined.

Lemma set_light_commutes_witness :
  heap sample_world !! 0%nat = Some (Instance sample_session) /\
  0 <= 1 < Z.of_nat (length (__lights sample_session)) /\
  0 <= 3 < Z.of_nat (length (__lights sample_session)) /\
  1 <> 3 /\
  let w1 := after (set_light 0%nat 3 false)
              (after (set_light 0%nat 1 true) sample_world) in
  let w2 := after (set_light 0%nat 1 true)
              (after (set_light 0%nat 3 false) sample_world) in
  let lights :=
    <[Z.to_nat 3 := false]> (<[Z.to_nat 1 := true]> (__lights sample_session)) in
  get_lights_state 0%nat w1 = (w1, OK lights) /\
  get_lights_state 0%nat w2 = (w2, OK lights) /\
  last (hid_log w1)
    = Some (HidWrite (__interface sample_session) (light_command lights)) /\
  last (hid_log w2)
    = Some (HidWrite (__interface sample_session) (light_command lights)).
Proof.
  assert (H2 : 0 <= 1 < Z.of_nat (length (__lights sample_session)))
    by (cbn; lia).
  assert (H3 : 0 <= 3 < Z.of_nat (length (__lights sample_session)))
    by (cbn; lia).
  assert (H4 : 1 <> 3) by lia.
  exact (conj sample_session_stored (conj H2 (conj H3 (conj H4
    (set_light_commutes sample_world 0%nat sample_session 1 3 true false
       sample_session_stored H2 H3 H4))))).
Defined.

Lemma set_lights_on_off_witness :
  heap sample_world !! 0%nat = Some (Instance sample_session) /\
  (let w' := after (set_lights_on 0%nat) sample_world in
   get_lights_state 0%nat w' = (w', OK [true; true; true; true]) /\
   hid_log w' = hid_log sample_world
     ++ [HidWrite (__interface sample_session) [0; 0; 255; 255; 255; 255; 0; 0]]) /\
  (let w' := after (set_lights_off 0%nat) sample_world in
   get_lights_state 0%nat w' = (w', OK [false; false; false; false]) /\
   hid_log w' = hid_log sample_world
     ++ [HidWrite (__interface sample_session) [0; 0; 0; 0; 0; 0; 0; 0]]).
Proof.
  exact (conj sample_session_stored
    (set_lights_on_off sample_world 0%nat sample_session sample_session_stored)).
Defined.

Lemma remove_handler_unknown_label_witness :
  heap sample_world !! 0%nat = Some (Instance sample_session) /\
  unregistered "nobody" sample_session /\
  remove_handler 0%nat "nobody" sample_world = (sample_world, OK tt).
Proof.
  assert (H2 : unregistered "nobody" sample_session)
    by (unfold unregistered; cbn; by apply (bool_decide_unpack _)).
  exact (conj sample_session_stored (conj H2
    (remove_handler_unknown_label sample_world 0%nat sample_session "nobody"
       sample_session_stored H2))).
Defined.

Lemma remove_handler_silences_witness :
  heap sample_world !! 0%nat = Some (Instance sample_session) /\
  grid_ok (__state sample_session) /\
  decode_state sample_report = OK sample_grid /\
  exists (w1 w2 : @world nat) (s1 : @BuzzerSet nat),
    remove_handler 0%nat "state" sample_world = (w1, OK tt) /\
    heap w1 !! 0%nat = Some (Instance s1) /\
    unregistered "state" s1 /\
    __listen_loop 0%nat [OK sample_report] w1 = (w2, OK Waiting) /\
    fired w2 = fired sample_world
               ++ without_label "state" (dispatched sample_session 0%nat sample_grid).
Proof.
  assert (H3 : decode_state sample_report = OK sample_grid) by reflexivity.
  exact (conj sample_session_stored (conj (proj1 sample_session_ok) (conj H3
    (remove_handler_silences sample_world 0%nat sample_session "state"
       sample_report sample_grid
       sample_session_stored (proj1 sample_session_ok) H3)))).
Defined.

Lemma clear_handlers_silences_witness :
  heap sample_world !! 0%nat = Some (Instance sample_session) /\
  grid_ok (__state sample_session) /\
  decode_state sample_report = OK sample_grid /\
  exists w1 w2 : @world nat,
    clear_handlers 0%nat sample_world = (w1, OK tt) /\
    __listen_loop 0%nat [OK sample_report] w1 = (w2, OK Waiting) /\
    fired w2 = fired sample_world /\
    get_buttons_state 0%nat w2 = (w2, OK sample_grid).
Proof.
  assert (H3 : decode_state sample_report = OK sample_grid) by reflexivity.
  exact (conj sample_session_stored (conj (proj1 sample_session_ok) (conj H3
    (clear_handlers_silences sample_world 0%nat sample_session
       sample_report sample_grid
       sample_session_stored (proj1 sample_session_ok) H3)))).
Defined.

Lemma register_twice_keeps_last_witness :
  label_or None (sample_str 5%nat) = label_or None (sample_str 6%nat) /\
  bind (on_change sample_str 0%nat 5%nat None)
    (fun _ => on_change sample_str 0%nat 6%nat None) sample_world
    = on_change sample_str 0%nat 6%nat None sample_world /\
  bind (on_buzz sample_str 0%nat 5%nat None)
    (fun _ => on_buzz sample_str 0%nat 6%nat None) sample_world
    = on_buzz sample_str 0%nat 6%nat None sample_world /\
  bind (on_button_down sample_str 0%nat 5%nat None)
    (fun _ => on_button_down sample_str 0%nat 6%nat None) sample_world
    = on_button_down sample_str 0%nat 6%nat None sample_world /\
  bind (on_button_up sample_str 0%nat 5%nat None)
    (fun _ => on_button_up sample_str 0%nat 6%nat None) sample_world
    = on_button_up sample_str 0%nat 6%nat None sample_world.
Proof.
  assert (H1 : label_or None (sample_str 5%nat) = label_or None (sample_str 6%nat))
    by reflexivity.
  exact (conj H1
    (register_twice_keeps_last sample_str sample_world 0%nat 5%nat 6%nat None H1)).
Defined.

Lemma register_then_remove_witness :
  heap sample_world !! 0%nat = Some (Instance sample_session) /\
  unregistered (label_or (Some "fresh") (sample_str 5%nat)) sample_session /\
  bind (on_change sample_str 0%nat 5%nat (Some "fresh"))
    (fun l => remove_handler 0%nat l) sample_world = (sample_world, OK tt) /\
  bind (on_buzz sample_str 0%nat 5%nat (Some "fresh"))
    (fun l => remove_handler 0%nat l) sample_world = (sample_world, OK tt) /\
  bind (on_button_down sample_str 0%nat 5%nat (Some "fresh"))
    (fun l => remove_handler 0%nat l) sample_world = (sample_world, OK tt) /\
  bind (on_button_up sample_str 0%nat 5%nat (Some "fresh"))
    (fun l => remove_handler 0%nat l) sample_world = (sample_world, OK tt).
Proof.
  assert (H2 : unregistered (label_or (Some "fresh") (sample_str 5%nat)) sample_session)
    by (unfold unregistered; cbn; by apply (bool_decide_unpack _)).
  exact (conj sample_session_stored (conj H2
    (register_then_remove sample_str sample_world 0%nat sample_session 5%nat
       (Some "fresh") sample_session_stored H2))).
Defined.

Lemma listen_loop_trace_witness :
  heap sample_world !! 0%nat = Some (Instance sample_session) /\
  grid_ok (__state sample_session) /\
  Forall2 (fun data g => decode_state data = OK g)
    [sample_report; [0; 0; 0; 0; 0]]
    [sample_grid; replicate 4 (replicate 5 false)] /\
  exists w' : @world nat,
    __listen_loop 0%nat (map OK [sample_report; [0; 0; 0; 0; 0]]) sample_world
      = (w', OK Waiting) /\
    fired w' = fired sample_world
      ++ dispatched_all sample_session 0%nat
           [sample_grid; replicate 4 (replicate 5 false)] /\
    get_buttons_state 0%nat w'
      = (w', OK (default (__state sample_session)
                   (last [sample_grid; replicate 4 (replicate 5 false)]))) /\
    hid_log w' = hid_log sample_world.
Proof.
  assert (H3 : Forall2 (fun data g => decode_state data = OK g)
                 [sample_report; [0; 0; 0; 0; 0]]
                 [sample_grid; replicate 4 (replicate 5 false)])
    by (repeat constructor).
  exact (conj sample_session_stored (conj (proj1 sample_session_ok) (conj H3
    (listen_loop_trace sample_world 0%nat sample_session _ _
       sample_session_stored (proj1 sample_session_ok) H3)))).
Defined.

Lemma listen_loop_same_report_witness :
  heap sample_world !! 0%nat = Some (Instance sample_session) /\
  decode_state [0; 0; 0; 0; 0] = OK (__state sample_session) /\
  __listen_loop 0%nat (replicate 3 (OK [0; 0; 0; 0; 0])) sample_world
  = (sample_world, OK Waiting).
Proof.
  assert (H2 : decode_state [0; 0; 0; 0; 0] = OK (__state sample_session))
    by reflexivity.
  exact (conj sample_session_stored (conj H2
    (listen_loop_same_report sample_world 0%nat sample_session [0; 0; 0; 0; 0] 3
       sample_session_stored H2))).
Defined.

Lemma sample_world_listening_run :
  __listen_loop 0%nat [OK sample_report] sample_world
  = (sample_world_listening, OK Waiting).
Proof. vm_compute. reflexivity. Qed.

Lemma listen_loop_breaks_on_OSError_witness :
  heap sample_world !! 0%nat = Some (Instance sample_session) /\
  __listen_loop 0%nat [OK sample_report] sample_world
    = (sample_world_listening, OK Waiting) /\
  __listen_loop 0%nat ([OK sample_report] ++ Raise OSError :: [OK [0; 0; 0; 0; 0]])
    sample_world
  = (sample_world_listening, OK Broke).
Proof.
  exact (conj sample_session_stored (conj sample_world_listening_run
    (listen_loop_breaks_on_OSError sample_world sample_world_listening 0%nat
       sample_session [OK sample_report] [OK [0; 0; 0; 0; 0]]
       sample_session_stored sample_world_listening_run))).
Defined.

Lemma listen_loop_short_report_witness :
  heap sample_world !! 0%nat = Some (Instance sample_session) /\
  __listen_loop 0%nat [OK sample_report] sample_world
    = (sample_world_listening, OK Waiting) /\
  (length [0; 0; 255] < 5)%nat /\
  __listen_loop 0%nat ([OK sample_report] ++ OK [0; 0; 255] :: [OK [0; 0; 0; 0; 0]])
    sample_world
  = (sample_world_listening, Raise IndexError).
Proof.
  assert (H3 : (length [0; 0; 255] < 5)%nat) by (cbn; lia).
  exact (conj sample_session_stored (conj sample_world_listening_run (conj H3
    (listen_loop_short_report sample_world sample_world_listening 0%nat
       sample_session [0; 0; 255] [OK sample_report] [OK [0; 0; 0; 0; 0]]
       sample_session_stored sample_world_listening_run H3)))).
Defined.

Lemma presses_balance_releases_witness :
  heap sample_world !! 0%nat = Some (Instance sample_session) /\
  instance_ok sample_session /\
  Forall2 (fun data g => decode_state data = OK g)
    [sample_report; [0; 0; 0; 0; 0]]
    [sample_grid; replicate 4 (replicate 5 false)] /\
  ("<function handler>", 3%nat) ∈ __on_button_down sample_session /\
  ("up", 4%nat) ∈ __on_button_up sample_session /\
  exists (w' : @world nat) (tr : list (@firing nat)) (g : grid),
    __listen_loop 0%nat (map OK [sample_report; [0; 0; 0; 0; 0]]) sample_world
      = (w', OK Waiting) /\
    fired w' = fired sample_world ++ tr /\
    get_buttons_state 0%nat w' = (w', OK g) /\
    (count (button_down_as "<function handler>" 3%nat 0%nat) tr
       + held (__state sample_session)
     = count (button_up_as "up" 4%nat 0%nat) tr + held g)%nat.
Proof.
  assert (H3 : Forall2 (fun data g => decode_state data = OK g)
                 [sample_report; [0; 0; 0; 0; 0]]
                 [sample_grid; replicate 4 (replicate 5 false)])
    by (repeat constructor).
  assert (H4 : ("<function handler>", 3%nat) ∈ __on_button_down sample_session)
    by (cbn; by apply (bool_decide_unpack _)).
  assert (H5 : ("up", 4%nat) ∈ __on_button_up sample_session)
    by (cbn; by apply (bool_decide_unpack _)).
  exact (conj sample_session_stored (conj sample_session_ok (conj H3 (conj H4 (conj H5
    (presses_balance_releases sample_world 0%nat sample_session _ _ _ _ _ _
       sample_session_stored sample_session_ok H3 H4 H5)))))).
Defined.

Lemma stop_listening_reopens_witness :
  heap sample_world !! 0%nat = Some (Instance sample_session) /\
  exists (w' : @world nat) (r : result unit) (dev : hid_device),
    stop_listening 0%nat sample_world = (w', r) /\
    hid_log w' = hid_log sample_world
                 ++ [HidClose (__interface sample_session);
                     HidOpenPath hid_device_new (path sample_session)] /\
    heap w' !! 0%nat = Some (Instance (with_interface dev sample_session)) /\
    fired w' = fired sample_world /\
    (accepts 1 sample_world ->
       r = OK tt /\ dev = {| opened := Some (path sample_session) |}) /\
    (forall rest, hid_script sample_world = true :: rest ->
       r = Raise OSError /\ dev = hid_device_new).
Proof.
  exact (conj sample_session_stored
    (stop_listening_reopens sample_world 0%nat sample_session
       sample_session_stored)).
Defined.

Lemma failed_construction_is_kept_witness :
  __existing_buzzer_sets (@initial_world nat [true]) !! sample_path = None /\
  BuzzerSet_call sample_path (@initial_world nat [true])
    = (sample_world_rejected, Raise OSError) /\
  OSError = OSError /\
  exists r : ref,
    __existing_buzzer_sets sample_world_rejected !! sample_path = Some r /\
    BuzzerSet_call sample_path sample_world_rejected
      = (sample_world_rejected, OK r) /\
    get_lights_state r sample_world_rejected
      = (sample_world_rejected, OK [false; false; false; false]) /\
    (forall rest, hid_script (@initial_world nat [true]) = true :: rest ->
       getattr r __interface sample_world_rejected
       = (sample_world_rejected, OK hid_device_new)).
Proof.
  assert (H1 : __existing_buzzer_sets (@initial_world nat [true]) !! sample_path = None)
    by reflexivity.
  assert (H2 : BuzzerSet_call sample_path (@initial_world nat [true])
               = (sample_world_rejected, Raise OSError))
    by reflexivity.
  exact (conj H1 (conj H2
    (failed_construction_is_kept (@initial_world nat [true]) sample_world_rejected
       sample_path OSError H1 H2))).
Defined.

Lemma only_lights_and_handles_use_transport_witness :
  uses_transport (@CallListen nat 0%nat [OK sample_report]) = false /\
  hid_log (perform sample_upper sample_str (CallListen 0%nat [OK sample_report])
             sample_world)
    = hid_log sample_world /\
  hid_script (perform sample_upper sample_str (CallListen 0%nat [OK sample_report])
                sample_world)
    = hid_script sample_world.
Proof.
  assert (H1 : uses_transport (@CallListen nat 0%nat [OK sample_report]) = false)
    by reflexivity.
  exact (conj H1
    (only_lights_and_handles_use_transport sample_str sample_upper
       (CallListen 0%nat [OK sample_report]) sample_world H1)).
Defined.

Lemma only_the_loop_calls_back_witness :
  listens (@CallSetLightsOn nat 0%nat) = false /\
  fired (perform sample_upper sample_str (CallSetLightsOn 0%nat) sample_world)
  = fired sample_world.
Proof.
  assert (H1 : listens (@CallSetLightsOn nat 0%nat) = false) by reflexivity.
  exact (conj H1
    (only_the_loop_calls_back sample_str sample_upper (CallSetLightsOn 0%nat)
       sample_world H1)).
Defined.

Lemma program_keeps_sessions_witness :
  let w := run sample_upper sample_str sample_program (initial_world []) in
  __existing_buzzer_sets w !! sample_path = Some 0%nat /\
  (exists s : @BuzzerSet nat,
     heap w !! 0%nat = Some (Instance s)
     /\ __initialised s = true /\ path s = sample_path) /\
  BuzzerSet_call sample_path w = (w, OK 0%nat).
Proof.
  intros w.
  assert (H1 : __existing_buzzer_sets w !! sample_path = Some 0%nat)
    by (vm_compute; reflexivity).
  exact (conj H1
    (program_keeps_sessions sample_str sample_upper sample_program []
       sample_path 0%nat H1)).
Defined.

Lemma sample_world_collected_run :
  get_all_buzzers sample_upper sample_devices (initial_world [])
  = (sample_world_collected, OK [0%nat; 0%nat]).
Proof. vm_compute. reflexivity. Qed.

Lemma get_all_buzzers_again_witness :
  get_all_buzzers sample_upper sample_devices (initial_world [])
    = (sample_world_collected, OK [0%nat; 0%nat]) /\
  Forall2 (fun device r =>
             BuzzerSet_call (info_path device) sample_world_collected
             = (sample_world_collected, OK r))
    (list_connected_buzzers sample_upper sample_devices) [0%nat; 0%nat] /\
  get_all_buzzers sample_upper sample_devices sample_world_collected
    = (sample_world_collected, OK [0%nat; 0%nat]).
Proof.
  exact (conj sample_world_collected_run
    (get_all_buzzers_again sample_upper sample_devices (initial_world [])
       sample_world_collected [0%nat; 0%nat] sample_world_collected_run)).
Defined.

Lemma get_all_buzzers_one_per_path_witness :
  registry_ok (@initial_world nat []) /\
  get_all_buzzers sample_upper sample_devices (initial_world [])
    = (sample_world_collected, OK [0%nat; 0%nat]) /\
  list_connected_buzzers sample_upper sample_devices !! 0%nat
    = Some {| info_path := sample_path;
              product_string := "Logitech Buzz(tm) Controller V1" |} /\
  list_connected_buzzers sample_upper sample_devices !! 1%nat
    = Some {| info_path := sample_path;
              product_string := "Logitech Buzz(tm) Controller V1" |} /\
  [0%nat; 0%nat] !! 0%nat = Some 0%nat /\
  [0%nat; 0%nat] !! 1%nat = Some 0%nat /\
  (sample_path = sample_path <-> 0%nat = 0%nat).
Proof.
  assert (H1 : registry_ok (@initial_world nat [])) by apply registry_ok_initial.
  assert (H3 : list_connected_buzzers sample_upper sample_devices !! 0%nat
               = Some {| info_path := sample_path;
                         product_string := "Logitech Buzz(tm) Controller V1" |})
    by reflexivity.
  assert (H4 : list_connected_buzzers sample_upper sample_devices !! 1%nat
               = Some {| info_path := sample_path;
                         product_string := "Logitech Buzz(tm) Controller V1" |})
    by reflexivity.
  assert (H5 : [0%nat; 0%nat] !! 0%nat = Some 0%nat) by reflexivity.
  assert (H6 : [0%nat; 0%nat] !! 1%nat = Some 0%nat) by reflexivity.
  exact (conj H1 (conj sample_world_collected_run (conj H3 (conj H4 (conj H5 (conj H6
    (get_all_buzzers_one_per_path sample_upper sample_devices (initial_world [])
       sample_world_collected [0%nat; 0%nat] 0%nat 1%nat _ _ 0%nat 0%nat
       H1 sample_world_collected_run H3 H4 H5 H6))))))).
Defined.
